(** * arb-provider-ethers: result verification, sequencing and submission

    A shallow embedding of [ArbProvider] (provider.ts) and [ArbWallet]
    (wallet.ts).  Asynchronous methods become computations in a state and
    error monad: the state holds the mutable fields of the two objects and
    a log of the requests issued to the collaborators (validator RPC,
    base-chain client, aggregator, signer, contract bindings); a rejected
    promise or a thrown [Error] is a [Throw].

    Conventions of the embedding:
    - a JavaScript [number] or [BigNumber] that holds a count, a sequence
      number or an amount is its integer value in [Z]; the wallet's sequence
      counter is a [number], a double, and the sums that the code forms on
      it are rounded as sums of doubles are ([number_add]); hexadecimal
      strings (hashes, addresses, payloads) are values of [string];
    - [undefined] and [null] are [None]; the truthiness tests of the code
      ([!x], [if (x)]) are written out by the [truthy_] functions;
    - a field of a request that may be a promise is taken in its awaited
      form;
    - a method body that is read in two steps is cut in two definitions
      named after the method, and so are the branches of a [try] block. *)

From Stdlib Require Import ZArith List String Ascii Bool Lia HexString.
Import ListNotations.
Open Scope string_scope.
Open Scope Z_scope.

(** ** Errors and results *)

(** A thrown JavaScript value: [Error(message)] or a [TypeError]. *)
Inductive Error : Type :=
| JsError (message : string)
| TypeError (message : string).

Inductive res (A : Type) : Type :=
| Ok (a : A)
| Throw (e : Error).
Arguments Ok {A} a.
Arguments Throw {A} e.

Definition isThrow {A} (r : res A) : bool :=
  match r with Ok _ => false | Throw _ => true end.

(** ** JavaScript and ethers (v4) primitives used by the code *)

(** Truthiness of a string: every string but the empty one. *)
Definition truthy_string (s : string) : bool := negb (s =? "")%string.

(** Truthiness of [string | undefined]. *)
Definition truthy_ostring (o : option string) : bool :=
  match o with Some s => truthy_string s | None => false end.

(** Truthiness of [number | undefined]. *)
Definition truthy_onumber (o : option Z) : bool :=
  match o with Some n => negb (n =? 0) | None => false end.

(** A [number] is an IEEE 754 double.  Every integer from [-2^53] to
    [2^53] is a number; beyond, a number has 53 significant bits, and an
    integer that is none is rounded to the nearest number, to the one with
    the even significand when two are as near.  [roundNumber z] is that
    number, for integers of a size that doubles reach (below [2^1023]). *)
Definition roundNumber (z : Z) : Z :=
  let e := Z.log2 (Z.abs z) in
  if e <? 53 then z
  else
    let ulp := 2 ^ (e - 52) in
    let q := z / ulp in
    let r := z mod ulp in
    if 2 * r <? ulp then q * ulp
    else if ulp <? 2 * r then (q + 1) * ulp
    else if Z.even q then q * ulp else (q + 1) * ulp.

(** [a + b] on two numbers that are integers. *)
Definition number_add (a b : Z) : Z := roundNumber (a + b).

(** [BigNumberish]: a JavaScript number, a [BigNumber] object or a string. *)
Inductive BigNumberish : Type :=
| BN_number (n : Z)
| BN_BigNumber (n : Z)
| BN_string (s : string).

Definition truthy_BigNumberish (o : option BigNumberish) : bool :=
  match o with
  | None => false
  | Some (BN_number n) => negb (n =? 0)
  | Some (BN_BigNumber _) => true
  | Some (BN_string s) => truthy_string s
  end.

(** [BlockTag = string | number]. *)
Inductive BlockTag : Type :=
| TagString (s : string)
| TagNumber (n : Z).

Definition truthy_BlockTag (o : option BlockTag) : bool :=
  match o with
  | None => false
  | Some (TagString s) => truthy_string s
  | Some (TagNumber n) => negb (n =? 0)
  end.

(** [tag == 'pending']: a number never equals a non-numeric string. *)
Definition tag_eq (tag : BlockTag) (s : string) : bool :=
  match tag with
  | TagString t => (t =? s)%string
  | TagNumber _ => false
  end.

(** The line break of an error message. *)
Definition newline : string := String (ascii_of_nat 10) EmptyString.

(** [String.prototype.toLowerCase] on ASCII. *)
Definition lower_ascii (c : ascii) : ascii :=
  let n := nat_of_ascii c in
  if (andb (Nat.leb 65 n) (Nat.leb n 90)) then ascii_of_nat (n + 32) else c.

Fixpoint toLowerCase (s : string) : string :=
  match s with
  | EmptyString => EmptyString
  | String c r => String (lower_ascii c) (toLowerCase r)
  end.

Definition is_hex_digit (c : ascii) : bool :=
  let n := nat_of_ascii c in
  (Nat.leb 48 n && Nat.leb n 57) || (Nat.leb 65 n && Nat.leb n 70)
  || (Nat.leb 97 n && Nat.leb n 102).

Fixpoint all_hex (s : string) : bool :=
  match s with
  | EmptyString => true
  | String c r => is_hex_digit c && all_hex r
  end.

(** [isHexString(value)]: [value.match(/^0x[0-9A-Fa-f]*$/)]. *)
Definition isHexString (s : string) : bool :=
  match s with
  | String "0" (String "x" r) => all_hex r
  | _ => false
  end.

(** [hexDataLength(data)]: [null] unless [data] is a hex string of even
    length, else [(data.length - 2) / 2]. *)
Definition hexDataLength (s : string) : option nat :=
  if isHexString s && Nat.even (String.length s)
  then Some ((String.length s - 2) / 2)%nat
  else None.

(** [value.substring(2)]. *)
Definition substring2 (s : string) : string :=
  match s with
  | String _ (String _ r) => r
  | _ => EmptyString
  end.

(** The loop of [hexZeroPad]:
    [while (value.length < 2 * length + 2) value = '0x0' + value.substring(2)].
    Every round makes [value] one character longer, so the loop runs
    [deficit] rounds, the number of characters missing at its start. *)
Fixpoint hexZeroPad_loop (deficit : nat) (value : string) : string :=
  match deficit with
  | O => value
  | S d => hexZeroPad_loop d ("0x0" ++ substring2 value)
  end.

(** [ethers.utils.hexZeroPad(value, length)]. *)
Definition hexZeroPad (value : string) (length : nat) : res string :=
  if isHexString value
  then Ok (hexZeroPad_loop (2 * length + 2 - String.length value) value)
  else Throw (JsError "invalid hex string").

(** Hexadecimal digits of a non-negative integer, as [BN.toString(16)]. *)
Definition hex_digits (n : Z) : string :=
  match n with
  | Zpos p => HexString.Raw.of_pos p ""
  | _ => "0"
  end.

(** [BigNumber.prototype.toHexString]: an even number of digits after
    ["0x"]; a negative number prints as ["-0x.."]. *)
Definition toHexString (n : Z) : string :=
  let d := hex_digits (Z.abs n) in
  let body := if Nat.even (String.length d) then "0x" ++ d else "0x0" ++ d in
  if n <? 0 then "-" ++ body else body.

(** ** Data *)

(** A raw base-chain log. *)
Module Log.
Record t : Type := { address : string; topics : list string; data : string }.
End Log.

(** The decoded arguments of an event ([LogDescription.values]); an event
    carries the fields of its own kind, the others are unused. *)
Module LogValues.
Record t : Type := {
  to : string;
  from : string;
  seqNumber : Z;
  value : Z;
  data : string;
  messageNum : Z;
  fields : list string
}.
End LogValues.

Module LogDescription.
Record t : Type := { name : string; values : LogValues.t }.
End LogDescription.

(** [ethers.providers.TransactionReceipt], the fields the code reads. *)
Module Receipt.
Record t : Type := { logs : option (list Log.t); confirmations : option Z }.
End Receipt.

Record NodeInfo : Type := {
  nodeHash : string;
  nodeHeight : Z;
  l1TxHash : option string;
  l1Confirmations : option Z
}.

Record AVMProof : Type := {
  logPreHash : string;
  logPostHash : string;
  logValHashes : list string
}.

(** [ethers.utils.Transaction]; a [TransactionResponse] is the same object
    with a [wait] method attached. *)
Module Transaction.
Record t : Type := {
  data : string;
  from : string;
  gasLimit : Z;
  gasPrice : Z;
  hash : option string;
  nonce : Z;
  to : string;
  value : Z;
  chainId : Z
}.
End Transaction.

(** [ethers.providers.TransactionRequest]: every field may be omitted. *)
Module TransactionRequest.
Record t : Type := {
  to : option string;
  from : option string;
  gasLimit : option BigNumberish;
  gasPrice : option BigNumberish;
  value : option BigNumberish;
  data : option string
}.
End TransactionRequest.

(** EthBridge event names. *)
Definition EB_EVENT_CDA := "RollupAsserted".
Definition TransactionMessageDelivered := "TransactionMessageDelivered".
Definition EthDepositMessageDelivered := "EthDepositMessageDelivered".
Definition ERC20DepositMessageDelivered := "ERC20DepositMessageDelivered".
Definition ERC721DepositMessageDelivered := "ERC721DepositMessageDelivered".

Definition ARB_SYS_ADDRESS := "0x0000000000000000000000000000000000000064".
Definition ARB_INFO_ADDRESS := "0x0000000000000000000000000000000000000065".

(** [BaseProvider._wrapTransaction(tx, hash)] of ethers: rejects a [hash]
    that is not 32 bytes of hex or that differs from [tx.hash], and
    otherwise returns [tx] itself. *)
Definition _wrapTransaction (tx : Transaction.t) (hash : option string)
  : res Transaction.t :=
  match hash with
  | None => Ok tx
  | Some h =>
      match hexDataLength h with
      | Some 32%nat =>
          match Transaction.hash tx with
          | Some h' =>
              if (h' =? h)%string then Ok tx
              else Throw (JsError "Transaction hash mismatch from Provider.sendTransaction.")
          | None => Throw (JsError "Transaction hash mismatch from Provider.sendTransaction.")
          end
      | _ => Throw (JsError "invalid response - sendTransaction")
      end
  end.

(** ** The modules the two classes import

    message.ts, value.ts and hashing.ts are not part of the sources at hand,
    and the hash functions of ethers are not computed here: the embedding
    takes their types and functions as a parameter. *)
Record Lib : Type := {
  (** [ArbValue.Value] and [value.hash()] *)
  Value : Type;
  value_hash : Value -> string;
  (** [Result], [Result.fromValue(val)], [result.incoming.messageID()],
      [result.resultCode == ResultCode.Return], [hexlify(result.returnData)] *)
  Result : Type;
  Result_fromValue : Value -> res Result;
  incoming_messageID : Result -> string;
  resultCode_isReturn : Result -> bool;
  returnData : Result -> string;
  (** [L2Transaction]: constructor, fields and hashes *)
  L2Transaction : Type;
  new_L2Transaction :
    BigNumberish -> BigNumberish -> Z -> option string ->
    option BigNumberish -> option string -> res L2Transaction;
  destAddress : L2Transaction -> string;
  sequenceNum : L2Transaction -> Z;
  payment : L2Transaction -> Z;
  calldata : L2Transaction -> string;
  messageID : L2Transaction -> string -> string;
  batchHash : L2Transaction -> string -> string;
  asData : L2Transaction -> string;
  (** [L2Call] *)
  L2Call : Type;
  new_L2Call :
    option BigNumberish -> option BigNumberish -> option string ->
    option string -> res L2Call;
  (** [Hashing.calculateTransactionHash(chain, to, from, seqNumber, value, data)] *)
  calculateTransactionHash :
    string -> string -> string -> Z -> Z -> string -> string;
  (** [ethers.utils.solidityKeccak256(['bytes32', 'bytes32'], [a, b])] *)
  solidityKeccak256 : string -> string -> string;
  (** [ethers.utils.hashMessage], [ethers.utils.recoverPublicKey] *)
  hashMessage : string -> string;
  recoverPublicKey : string -> string -> res string
}.

(** ** Requests to the collaborators *)

Inductive Request : Type :=
| ReqClientGetVmID
| ReqClientGetMessageResult (txHash : string)
| ReqClientCall (from : option string)
| ReqClientPendingCall (from : option string)
| ReqEthGetTransactionReceipt (txHash : string)
| ReqEthWaitForTransaction (txHash : string)
| ReqArbRollupGlobalInbox (arbRollup : string)
| ReqArbSysGetTransactionCount (address : string)
| ReqArbInfoGetCode (address : string)
| ReqSignerGetAddress
| ReqSignerSignMessage (message : string)
| ReqAggregatorSendTransaction
    (to : string) (sequenceNum value : Z) (data pubkey signature : string)
| ReqGlobalInboxSendL2Message (globalInbox chain data : string).

(** ** Mutable state of an [ArbProvider] and of the [ArbWallet] on it *)

Record State : Type := {
  (** [ArbProvider]: a connected contract is kept as its address *)
  arbRollupCache : option string;
  globalInboxCache : option string;
  vmIdCache : option string;
  (** [ArbWallet] *)
  wallet_globalInboxCache : option string;
  seqCache : option Z;
  pubkey : option string;
  (** requests issued so far, the latest first *)
  requests : list Request
}.

Definition set_arbRollupCache (v : option string) (st : State) : State :=
  {| arbRollupCache := v; globalInboxCache := globalInboxCache st;
     vmIdCache := vmIdCache st;
     wallet_globalInboxCache := wallet_globalInboxCache st;
     seqCache := seqCache st; pubkey := pubkey st; requests := requests st |}.

Definition set_globalInboxCache (v : option string) (st : State) : State :=
  {| arbRollupCache := arbRollupCache st; globalInboxCache := v;
     vmIdCache := vmIdCache st;
     wallet_globalInboxCache := wallet_globalInboxCache st;
     seqCache := seqCache st; pubkey := pubkey st; requests := requests st |}.

Definition set_vmIdCache (v : option string) (st : State) : State :=
  {| arbRollupCache := arbRollupCache st;
     globalInboxCache := globalInboxCache st; vmIdCache := v;
     wallet_globalInboxCache := wallet_globalInboxCache st;
     seqCache := seqCache st; pubkey := pubkey st; requests := requests st |}.

Definition set_wallet_globalInboxCache (v : option string) (st : State) : State :=
  {| arbRollupCache := arbRollupCache st;
     globalInboxCache := globalInboxCache st; vmIdCache := vmIdCache st;
     wallet_globalInboxCache := v;
     seqCache := seqCache st; pubkey := pubkey st; requests := requests st |}.

Definition set_seqCache (v : option Z) (st : State) : State :=
  {| arbRollupCache := arbRollupCache st;
     globalInboxCache := globalInboxCache st; vmIdCache := vmIdCache st;
     wallet_globalInboxCache := wallet_globalInboxCache st;
     seqCache := v; pubkey := pubkey st; requests := requests st |}.

Definition set_pubkey (v : option string) (st : State) : State :=
  {| arbRollupCache := arbRollupCache st;
     globalInboxCache := globalInboxCache st; vmIdCache := vmIdCache st;
     wallet_globalInboxCache := wallet_globalInboxCache st;
     seqCache := seqCache st; pubkey := v; requests := requests st |}.

Definition log_request (q : Request) (st : State) : State :=
  {| arbRollupCache := arbRollupCache st;
     globalInboxCache := globalInboxCache st; vmIdCache := vmIdCache st;
     wallet_globalInboxCache := wallet_globalInboxCache st;
     seqCache := seqCache st; pubkey := pubkey st;
     requests := q :: requests st |}.

(** The state of a freshly constructed provider and wallet. *)
Definition initial : State :=
  {| arbRollupCache := None; globalInboxCache := None; vmIdCache := None;
     wallet_globalInboxCache := None; seqCache := None; pubkey := None;
     requests := [] |}.

(** ** The monad of asynchronous methods *)

Definition M (A : Type) : Type := State -> res A * State.

Definition ret {A} (a : A) : M A := fun st => (Ok a, st).

Definition throw {A} (e : Error) : M A := fun st => (Throw e, st).

Definition bind {A B} (m : M A) (k : A -> M B) : M B :=
  fun st =>
    match m st with
    | (Ok a, st') => k a st'
    | (Throw e, st') => (Throw e, st')
    end.

(** A synchronous call that may throw. *)
Definition lift {A} (r : res A) : M A := fun st => (r, st).

(** [await] of a collaborator's promise: the request is logged and the
    promise's outcome becomes the outcome of the computation. *)
Definition await {A} (q : Request) (r : res A) : M A :=
  fun st => (r, log_request q st).

(** A promise that is started and not awaited: only the request is logged. *)
Definition fire (q : Request) : M unit :=
  fun st => (Ok tt, log_request q st).

Definition get : M State := fun st => (Ok st, st).

Definition modify (f : State -> State) : M unit := fun st => (Ok tt, f st).

(** [try { body } catch (err) { handler(err) }] *)
Definition try_catch {A} (body : M A) (handler : Error -> M A) : M A :=
  fun st =>
    match body st with
    | (Ok a, st') => (Ok a, st')
    | (Throw e, st') => handler e st'
    end.

Declare Scope js_scope.
Delimit Scope js_scope with js.
Notation "x <- m ;; k" := (bind m (fun x => k))
  (at level 100, m at next level, right associativity) : js_scope.
Notation "m ;;; k" := (bind m (fun _ => k))
  (at level 100, right associativity) : js_scope.
Open Scope js_scope.

Section Embedding.

Variable lib : Lib.

(** What the validator answers to [getMessageResult]. *)
Record RawResult : Type := {
  raw_val : Value lib;
  raw_nodeInfo : option NodeInfo;
  raw_proof : option AVMProof
}.

Record MessageResult : Type := {
  result : Result lib;
  txHash : string;
  nodeInfo : option NodeInfo
}.

(** [AggregatorClient]: [sendTransaction(to, sequenceNum, value, data,
    pubkey, signature)] and the outcome of the promise it returns. *)
Definition AggregatorClient : Type :=
  string -> Z -> Z -> string -> string -> string -> res unit.

(** The collaborators.  Each one answers a given request the same way
    throughout a run. *)
Record Env : Type := {
  (** constructor arguments of [ArbProvider] *)
  deterministicAssertions : bool;
  aggregator : option AggregatorClient;
  (** [ArbClient], the validator RPC *)
  client_getVmID : res string;
  client_getMessageResult : string -> res (option RawResult);
  client_call : L2Call lib -> option string -> res (Value lib);
  client_pendingCall : L2Call lib -> option string -> res (Value lib);
  (** [ethProvider], the base-chain client *)
  ethProvider_getTransactionReceipt : string -> res (option Receipt.t);
  ethProvider_waitForTransaction : string -> res Receipt.t;
  (** contract bindings *)
  arbRollup_globalInbox : string -> res string;
  arbRollup_parseLog : Log.t -> option LogDescription.t;
  globalInbox_parseLog : Log.t -> option LogDescription.t;
  globalInbox_sendL2Message : string -> string -> string -> res Transaction.t;
  arbSys_getTransactionCount : string -> res Z;
  arbInfo_getCode : string -> res string;
  (** the wallet's signer *)
  signer_getAddress : res string;
  signer_signMessage : string -> res string
}.

Variable env : Env.

(** ** ArbProvider *)

Definition chainId : Z := 123456789.

Definition arbRollupConn : M string :=
  st <- get ;;
  match arbRollupCache st with
  | None =>
      vmID <- await ReqClientGetVmID (client_getVmID env) ;;
      modify (set_arbRollupCache (Some vmID)) ;;;
      ret vmID
  | Some arbRollup => ret arbRollup
  end.

Definition globalInboxConn : M string :=
  st <- get ;;
  match globalInboxCache st with
  | None =>
      arbRollup <- arbRollupConn ;;
      globalInboxAddress <-
        await (ReqArbRollupGlobalInbox arbRollup)
              (arbRollup_globalInbox env arbRollup) ;;
      modify (set_globalInboxCache (Some globalInboxAddress)) ;;;
      ret globalInboxAddress
  | Some globalInbox => ret globalInbox
  end.

Definition getVmID : M string :=
  st <- get ;;
  if negb (truthy_ostring (vmIdCache st)) then
    vmId <- await ReqClientGetVmID (client_getVmID env) ;;
    st' <- get ;;
    (if negb (truthy_ostring (vmIdCache st'))
     then modify (set_vmIdCache (Some vmId))
     else ret tt) ;;;
    ret vmId
  else
    match vmIdCache st with
    | Some vmId => ret vmId
    | None => ret ""
    end.

Definition isDeposit (name : string) : bool :=
  (name =? EthDepositMessageDelivered)%string
  || (name =? ERC20DepositMessageDelivered)%string
  || (name =? ERC721DepositMessageDelivered)%string.

(** The [for (const log of logs)] loop of [getArbTxId]. *)
Fixpoint getArbTxId_loop (logs : list (option LogDescription.t))
  : M (option string) :=
  match logs with
  | [] => ret None
  | None :: rest => getArbTxId_loop rest
  | Some log :: rest =>
      let v := LogDescription.values log in
      if (LogDescription.name log =? TransactionMessageDelivered)%string then
        vmId <- getVmID ;;
        ret (Some (calculateTransactionHash lib vmId
                     (LogValues.to v) (LogValues.from v)
                     (LogValues.seqNumber v) (LogValues.value v)
                     (LogValues.data v)))
      else if isDeposit (LogDescription.name log) then
        id <- lift (hexZeroPad (toHexString (LogValues.messageNum v)) 32) ;;
        ret (Some id)
      else getArbTxId_loop rest
  end.

Definition getArbTxId (ethReceipt : Receipt.t) : M (option string) :=
  globalInbox <- globalInboxConn ;;
  match Receipt.logs ethReceipt with
  | Some logs => getArbTxId_loop (map (globalInbox_parseLog env) logs)
  | None => ret None
  end.

(** Returns true if the hash of value is in logPostHash and false otherwise *)
Definition processLogsProof (value : Value lib) (proof : AVMProof) : bool :=
  let startHash :=
    solidityKeccak256 lib (logPreHash proof) (value_hash lib value) in
  let checkHash :=
    fold_left (fun acc hash => solidityKeccak256 lib acc hash)
              (logValHashes proof) startHash in
  (logPostHash proof =? checkHash)%string.

(** [events.findIndex(event => event.name === EB_EVENT_CDA)]; reading
    [name] of a log that [parseLog] left [null] is a [TypeError]. *)
Fixpoint findIndex_CDA (events : list (option LogDescription.t)) (i : nat)
  : res (option nat) :=
  match events with
  | [] => Ok None
  | None :: _ => Throw (TypeError "Cannot read property 'name' of null")
  | Some event :: rest =>
      if (LogDescription.name event =? EB_EVENT_CDA)%string then Ok (Some i)
      else findIndex_CDA rest (S i)
  end.

(** How [undefined] prints inside an error message. *)
Definition show (o : option string) : string :=
  match o with Some s => s | None => "undefined" end.

(** [a !== b] where [a] may be [undefined] and [b] is a string. *)
Definition differs (a : option string) (b : string) : bool :=
  match a with
  | Some s => negb (s =? b)%string
  | None => true
  end.

Definition processConfirmedDisputableAssertion
    (nodeInfo : NodeInfo) (proof : AVMProof) : M Receipt.t :=
  match l1TxHash nodeInfo with
  | None => throw (JsError "node doesn't exist on chain")
  | Some l1 =>
      receipt <- await (ReqEthWaitForTransaction l1)
                       (ethProvider_waitForTransaction env l1) ;;
      match Receipt.logs receipt with
      | None => throw (JsError "RollupAsserted tx had no logs")
      | Some logs =>
          arbRollup <- arbRollupConn ;;
          let events := map (arbRollup_parseLog env) logs in
          eventIndex <- lift (findIndex_CDA events 0) ;;
          match eventIndex with
          | None =>
              throw (JsError ("RollupAsserted " ++ l1 ++ " not found on chain"))
          | Some i =>
              match nth_error logs i, nth_error events i with
              | Some rawLog, Some (Some cda) =>
                  vmId <- getVmID ;;
                  let fields := LogValues.fields (LogDescription.values cda) in
                  (* Check correct VM *)
                  if negb (toLowerCase (Log.address rawLog)
                           =? toLowerCase vmId)%string then
                    throw (JsError
                      ("RollupAsserted Event is from a different address: "
                       ++ Log.address rawLog ++ newline
                       ++ "Expected address: " ++ vmId))
                  (* Check correct logs hash *)
                  else if differs (nth_error fields 6) (logPostHash proof) then
                    throw (JsError
                      ("RollupAsserted Event on-chain logPostHash is: "
                       ++ show (nth_error fields 6) ++ newline
                       ++ "Expected: " ++ logPostHash proof))
                  else if differs (nth_error fields 7) (nodeHash nodeInfo) then
                    throw (JsError
                      ("RollupAsserted Event on-chain nodeHash is: "
                       ++ show (nth_error fields 7) ++ newline
                       ++ "Expected: " ++ nodeHash nodeInfo))
                  else ret receipt
              | _, _ =>
                  throw (TypeError "Cannot read property 'address' of undefined")
              end
          end
      end
  end.

(** [getMessageResult], first part: from the caller's [txHash] to the
    rollup message id [arbTxHash]; [None] is the early [return null]. *)
Definition getMessageResult_arbTxHash (txHash : string) : M (option string) :=
  ethReceipt <- await (ReqEthGetTransactionReceipt txHash)
                      (ethProvider_getTransactionReceipt env txHash) ;;
  match ethReceipt with
  | Some ethReceipt =>
      (* If this receipt exists, it must've been an L1 hash *)
      arbTxId <- getArbTxId ethReceipt ;;
      if negb (truthy_ostring arbTxId) then ret None
      else ret arbTxId
  | None => ret (Some txHash)
  end.

(** [getMessageResult], last part: what is done with a raw result that the
    validator returned for [arbTxHash]. *)
Definition getMessageResult_check (arbTxHash : string) (rawResult : RawResult)
  : M MessageResult :=
  let val := raw_val rawResult in
  result <- lift (Result_fromValue lib val) ;;
  let txHashCheck := incoming_messageID lib result in
  (* Check txHashCheck matches txHash *)
  if negb (arbTxHash =? txHashCheck)%string then
    throw (JsError ("txHash did not match its queried transaction "
                    ++ arbTxHash ++ " " ++ txHashCheck))
  else
    match raw_proof rawResult, raw_nodeInfo rawResult with
    | None, nodeInfo =>
        ret {| result := result; txHash := arbTxHash; nodeInfo := nodeInfo |}
    | Some _, None =>
        throw (TypeError "Cannot read property 'l1TxHash' of undefined")
    | Some proof, Some nodeInfo =>
        match l1TxHash nodeInfo with
        | None =>
            ret {| result := result; txHash := arbTxHash;
                   nodeInfo := Some nodeInfo |}
        | Some _ =>
            (* Step 1: prove that val is in logPostHash *)
            if negb (processLogsProof val proof) then
              throw (JsError "Failed to prove val is in logPostHash")
            else
              (* Step 2: prove that logPostHash is in assertion and
                 assertion is valid *)
              receipt <- processConfirmedDisputableAssertion nodeInfo proof ;;
              ret {| result := result; txHash := arbTxHash;
                     nodeInfo := Some
                       {| nodeHash := nodeHash nodeInfo;
                          nodeHeight := nodeHeight nodeInfo;
                          l1TxHash := l1TxHash nodeInfo;
                          l1Confirmations := Receipt.confirmations receipt |} |}
        end
    end.

Definition getMessageResult (txHash : string) : M (option MessageResult) :=
  arbTxHash <- getMessageResult_arbTxHash txHash ;;
  match arbTxHash with
  | None => ret None
  | Some arbTxHash =>
      rawResult <- await (ReqClientGetMessageResult arbTxHash)
                         (client_getMessageResult env arbTxHash) ;;
      match rawResult with
      | None => ret None
      | Some rawResult =>
          r <- getMessageResult_check arbTxHash rawResult ;;
          ret (Some r)
      end
  end.

(** [perform('getCode', params)] *)
Definition perform_getCode (address : string) : M string :=
  if (address =? ARB_SYS_ADDRESS)%string || (address =? ARB_INFO_ADDRESS)%string
  then ret "0x100"
  else await (ReqArbInfoGetCode address) (arbInfo_getCode env address).

(** [perform('getTransactionCount', params)], which answers the
    provider's [getTransactionCount(address)].  What
    [arbSys_getTransactionCount] answers is the count after [toNumber()],
    which throws on a count of [2^53] or more. *)
Definition perform_getTransactionCount (address : string) : M Z :=
  await (ReqArbSysGetTransactionCount address)
        (arbSys_getTransactionCount env address).

(** [callLatest] inside [call]. *)
Definition callLatest (tx : L2Call lib) (from : option string)
  : M (Value lib) :=
  if deterministicAssertions env
  then await (ReqClientPendingCall from) (client_pendingCall env tx from)
  else await (ReqClientCall from) (client_call env tx from).

Definition call (transaction : TransactionRequest.t)
    (blockTag : option BlockTag) : M string :=
  let from := TransactionRequest.from transaction in
  tx <- lift (new_L2Call lib (TransactionRequest.gasLimit transaction)
                (TransactionRequest.gasPrice transaction)
                (TransactionRequest.to transaction)
                (TransactionRequest.data transaction)) ;;
  resultVal <-
    (if truthy_BlockTag blockTag then
       match blockTag with
       | Some tag =>
           if tag_eq tag "pending" then
             await (ReqClientPendingCall from) (client_pendingCall env tx from)
           else if tag_eq tag "latest" then callLatest tx from
           else throw (JsError "Invalid block tag")
       | None => callLatest tx from
       end
     else callLatest tx from) ;;
  result <- lift (Result_fromValue lib resultVal) ;;
  if negb (resultCode_isReturn lib result) then
    throw (JsError "Call was reverted")
  else ret (returnData lib result).

(** ** ArbWallet *)

Definition getAddress : M string :=
  await ReqSignerGetAddress (signer_getAddress env).

Definition generateSeq : M Z :=
  st <- get ;;
  if negb (truthy_onumber (seqCache st)) then
    address <- getAddress ;;
    seq <- perform_getTransactionCount address ;;
    modify (set_seqCache (Some seq)) ;;;
    ret seq
  else
    match seqCache st with
    | Some seq => ret seq
    | None => ret 0
    end.

Definition generateAndIncrementSeq : M Z :=
  st <- get ;;
  if negb (truthy_onumber (seqCache st)) then
    address <- getAddress ;;
    seq <- perform_getTransactionCount address ;;
    modify (set_seqCache (Some (number_add seq 1))) ;;;
    ret seq
  else
    match seqCache st with
    | Some currentSeq =>
        modify (set_seqCache (Some (number_add currentSeq 1))) ;;;
        ret currentSeq
    | None => ret 0
    end.

Definition incrementSeq : M unit :=
  st <- get ;;
  match seqCache st with
  | None => throw (JsError "Sequence number must have already been generated")
  | Some seq => modify (set_seqCache (Some (number_add seq 1)))
  end.

(** [ArbWallet.globalInboxConn]: the provider's inbox, linked to the signer. *)
Definition wallet_globalInboxConn : M string :=
  st <- get ;;
  match wallet_globalInboxCache st with
  | None =>
      globalInbox <- globalInboxConn ;;
      modify (set_wallet_globalInboxCache (Some globalInbox)) ;;;
      ret globalInbox
  | Some globalInbox => ret globalInbox
  end.

(** The [catch (err)] block of [sendTransactionMessage].  The counter it
    decrements is a transaction count, which [toNumber] keeps below [2^53],
    incremented some times: it is at most [2^53], where [- 1] is exact. *)
Definition sendTransactionMessage_catch {A} (err : Error) : M A :=
  st <- get ;;
  (if truthy_onumber (seqCache st) then
     match seqCache st with
     | Some seq => modify (set_seqCache (Some (seq - 1)))
     | None => ret tt
     end
   else ret tt) ;;;
  throw err.

(** The aggregator branch of [sendTransactionMessage].  The promise that
    [agg] returns is started and never awaited, so its outcome is not read. *)
Definition sendTransactionMessage_aggregator
    (agg : AggregatorClient) (l2tx : L2Transaction lib) (vmId from : string)
  : M Transaction.t :=
  let arbTxHash := messageID lib l2tx from in
  let batchTxHash := batchHash lib l2tx vmId in
  let messageHashBytes := batchTxHash in
  sig <- await (ReqSignerSignMessage messageHashBytes)
               (signer_signMessage env messageHashBytes) ;;
  st <- get ;;
  pubkey <-
    (if negb (truthy_ostring (pubkey st)) then
       pk <- lift (recoverPublicKey lib (hashMessage lib messageHashBytes) sig) ;;
       modify (set_pubkey (Some pk)) ;;;
       ret pk
     else
       match pubkey st with
       | Some pk => ret pk
       | None => ret ""
       end) ;;
  fire (ReqAggregatorSendTransaction (destAddress lib l2tx)
          (sequenceNum lib l2tx) (payment lib l2tx) (calldata lib l2tx)
          pubkey sig) ;;;
  let tx :=
    {| Transaction.data := calldata lib l2tx;
       Transaction.from := from;
       Transaction.gasLimit := 1;
       Transaction.gasPrice := 1;
       Transaction.hash := Some arbTxHash;
       Transaction.nonce := sequenceNum lib l2tx;
       Transaction.to := destAddress lib l2tx;
       Transaction.value := payment lib l2tx;
       Transaction.chainId := chainId |} in
  lift (_wrapTransaction tx (Some arbTxHash)).

(** The global-inbox branch of [sendTransactionMessage]. *)
Definition sendTransactionMessage_inbox
    (l2tx : L2Transaction lib) (vmId : string) : M Transaction.t :=
  globalInbox <- wallet_globalInboxConn ;;
  tx <- await (ReqGlobalInboxSendL2Message globalInbox vmId (asData lib l2tx))
              (globalInbox_sendL2Message env globalInbox vmId (asData lib l2tx)) ;;
  tx2 <- lift (_wrapTransaction tx (Transaction.hash tx)) ;;
  ret tx2.

(** The [try] block of [sendTransactionMessage]: the two dispatch paths. *)
Definition sendTransactionMessage_try
    (l2tx : L2Transaction lib) (vmId from : string) : M Transaction.t :=
  match aggregator env with
  | Some agg => sendTransactionMessage_aggregator agg l2tx vmId from
  | None => sendTransactionMessage_inbox l2tx vmId
  end.

Definition sendTransactionMessage (l2tx : L2Transaction lib)
  : M Transaction.t :=
  vmId <- getVmID ;;
  from <- getAddress ;;
  try_catch (sendTransactionMessage_try l2tx vmId from)
            sendTransactionMessage_catch.

Definition sendTransaction (transaction : TransactionRequest.t)
  : M Transaction.t :=
  if negb (truthy_BigNumberish (TransactionRequest.gasLimit transaction)) then
    throw (JsError "must specify gas limit")
  else if negb (truthy_BigNumberish (TransactionRequest.gasPrice transaction))
  then throw (JsError "must specify gas price")
  else
    match TransactionRequest.gasLimit transaction,
          TransactionRequest.gasPrice transaction with
    | Some gasLimit, Some gasPrice =>
        seq <- generateAndIncrementSeq ;;
        tx <- lift (new_L2Transaction lib gasLimit gasPrice seq
                      (TransactionRequest.to transaction)
                      (TransactionRequest.value transaction)
                      (TransactionRequest.data transaction)) ;;
        sendTransactionMessage tx
    | _, _ => throw (JsError "must specify gas limit")
    end.

End Embedding.

Arguments raw_val {lib} r.
Arguments raw_nodeInfo {lib} r.
Arguments raw_proof {lib} r.
Arguments result {lib} m.
Arguments txHash {lib} m.
Arguments nodeInfo {lib} m.
Arguments deterministicAssertions {lib} e.
Arguments aggregator {lib} e.
Arguments client_getVmID {lib} e.
Arguments client_getMessageResult {lib} e.
Arguments client_call {lib} e.
Arguments client_pendingCall {lib} e.
Arguments ethProvider_getTransactionReceipt {lib} e.
Arguments ethProvider_waitForTransaction {lib} e.
Arguments arbRollup_globalInbox {lib} e.
Arguments arbRollup_parseLog {lib} e.
Arguments globalInbox_parseLog {lib} e.
Arguments globalInbox_sendL2Message {lib} e.
Arguments arbSys_getTransactionCount {lib} e.
Arguments arbInfo_getCode {lib} e.
Arguments signer_getAddress {lib} e.
Arguments signer_signMessage {lib} e.

(** ** Vocabulary of the statements *)

(** [n] consecutive reservations, with the numbers they return. *)
Fixpoint reserve (lib : Lib) (env : Env lib) (n : nat) : M (list Z) :=
  match n with
  | O => ret []
  | S k =>
      seq <- generateAndIncrementSeq lib env ;;
      rest <- reserve lib env k ;;
      ret (seq :: rest)
  end.

(** The range [[c, c + n)]. *)
Fixpoint range (c : Z) (n : nat) : list Z :=
  match n with
  | O => []
  | S k => c :: range (c + 1) k
  end.

(** The spec's "left-padded to 32 bytes": after ["0x"], the hexadecimal
    digits of [n] preceded by as many zeros as it takes to make 64 digits. *)
Fixpoint zeros (k : nat) : string :=
  match k with
  | O => EmptyString
  | S k' => String "0" (zeros k')
  end.

Definition leftPad32 (n : Z) : string :=
  "0x" ++ zeros (64 - String.length (hex_digits n)) ++ hex_digits n.

(** Step A as the spec words it: starting from
    [acc = hash(logPreHash, hash(value))], every sibling in order gives
    [acc = hash(acc, sibling)]; the proof holds when the last [acc] is
    [logPostHash]. *)
Fixpoint foldSiblings (hash : string -> string -> string) (acc : string)
    (siblings : list string) : string :=
  match siblings with
  | [] => acc
  | sibling :: rest => foldSiblings hash (hash acc sibling) rest
  end.

Definition logInclusion (lib : Lib) (value : Value lib) (proof : AVMProof)
  : Prop :=
  foldSiblings (solidityKeccak256 lib)
    (solidityKeccak256 lib (logPreHash proof) (value_hash lib value))
    (logValHashes proof)
  = logPostHash proof.

(** Number of hexadecimal digits of a positive number. *)
Definition hexlen (p : positive) : nat := ((Pos.size_nat p + 3) / 4)%nat.

(** Whether a decoded log is one of the four message-delivery events. *)
Definition isDelivery (log : option LogDescription.t) : bool :=
  match log with
  | None => false
  | Some d =>
      (LogDescription.name d =? TransactionMessageDelivered)%string
      || isDeposit (LogDescription.name d)
  end.

(** No decoded log of the list is a message-delivery event. *)
Definition noDelivery (logs : list (option LogDescription.t)) : bool :=
  forallb (fun log => negb (isDelivery log)) logs.

(** The logs of a receipt, decoded by [parseLog], hold no message-delivery
    event (a receipt without [logs] holds none). *)
Definition receiptHasNoDelivery
    (parseLog : Log.t -> option LogDescription.t) (receipt : Receipt.t)
  : bool :=
  match Receipt.logs receipt with
  | Some logs => noDelivery (map parseLog logs)
  | None => true
  end.

(** The decoded event [log] is the delivery of the transaction [l2tx]
    sent by [from]: a transaction-delivery event that carries the
    destination, sender, sequence number, value and payload of [l2tx]. *)
Definition deliveryOf (lib : Lib) (l2tx : L2Transaction lib) (from : string)
    (log : LogDescription.t) : Prop :=
  let v := LogDescription.values log in
  LogDescription.name log = TransactionMessageDelivered
  /\ LogValues.to v = destAddress lib l2tx
  /\ LogValues.from v = from
  /\ LogValues.seqNumber v = sequenceNum lib l2tx
  /\ LogValues.value v = payment lib l2tx
  /\ LogValues.data v = calldata lib l2tx.

(** A computation that leaves [seqCache] as it found it, whatever its
    outcome. *)
Definition keepsSeqCache {A} (m : M A) : Prop :=
  forall (st : State) (r : res A) (st' : State),
    m st = (r, st') -> seqCache st' = seqCache st.

(** The message of the error thrown when the recomputed id differs. *)
Definition mismatchMessage (arbTxHash txHashCheck : string) : string :=
  "txHash did not match its queried transaction "
  ++ arbTxHash ++ " " ++ txHashCheck.

(** The three checks of [processConfirmedDisputableAssertion] on the
    located event [cda], found in the raw log [rawLog]. *)
Definition addressMatches (rawLog : Log.t) (vmId : string) : Prop :=
  toLowerCase (Log.address rawLog) = toLowerCase vmId.

Definition logPostHashMatches (cda : LogDescription.t) (proof : AVMProof)
  : Prop :=
  nth_error (LogValues.fields (LogDescription.values cda)) 6
  = Some (logPostHash proof).

Definition nodeHashMatches (cda : LogDescription.t) (ni : NodeInfo) : Prop :=
  nth_error (LogValues.fields (LogDescription.values cda)) 7
  = Some (nodeHash ni).

(** ** A small instance

    Concrete collaborators on which the embedding computes.  Values and
    results are strings (a result is its envelope's message id), an
    [L2Transaction] is its sequence number, and the hash functions are
    simple injective stand-ins. *)
Module Demo.

Definition rollup : string := "0x00000000000000000000000000000000000000c1".
Definition inbox : string := "0x00000000000000000000000000000000000000f2".
Definition account : string := "0x00000000000000000000000000000000000000a3".

Definition lib : Lib :=
  {| Value := string;
     value_hash := fun v => "h(" ++ v ++ ")";
     Result := string;
     Result_fromValue := fun v => Ok v;
     incoming_messageID := fun r => r;
     resultCode_isReturn := fun _ => true;
     returnData := fun r => r;
     L2Transaction := Z;
     new_L2Transaction := fun _ _ seq _ _ _ => Ok seq;
     destAddress := fun _ => "0x00000000000000000000000000000000000000d4";
     sequenceNum := fun seq => seq;
     payment := fun _ => 0;
     calldata := fun _ => "0x";
     messageID := fun seq _ => leftPad32 (4096 + seq);
     batchHash := fun seq _ => leftPad32 (8192 + seq);
     asData := fun _ => "0x";
     L2Call := unit;
     new_L2Call := fun _ _ _ _ => Ok tt;
     calculateTransactionHash := fun _ _ _ seq _ _ => leftPad32 (4096 + seq);
     solidityKeccak256 := fun a b => "k(" ++ a ++ "," ++ b ++ ")";
     hashMessage := fun m => m;
     recoverPublicKey := fun _ _ => Ok "0x04" |}.

Definition noValues : LogValues.t :=
  {| LogValues.to := ""; LogValues.from := ""; LogValues.seqNumber := 0;
     LogValues.value := 0; LogValues.data := "0x";
     LogValues.messageNum := 0; LogValues.fields := [] |}.

(** Decoding: the first topic names the event, [data] is its number
    (sequence or message number), the other topics are its [fields]. *)
Definition parseLog (l : Log.t) : option LogDescription.t :=
  match Log.topics l with
  | [] => None
  | name :: fields =>
      Some {| LogDescription.name := name;
              LogDescription.values :=
                {| LogValues.to := "0x00000000000000000000000000000000000000d4";
                   LogValues.from := account;
                   LogValues.seqNumber := HexString.to_Z (Log.data l);
                   LogValues.value := 0;
                   LogValues.data := "0x";
                   LogValues.messageNum := HexString.to_Z (Log.data l);
                   LogValues.fields := fields |} |}
  end.

(** The base-chain transaction that [sendL2Message] returns. *)
Definition inboxTx : Transaction.t :=
  {| Transaction.data := "0x"; Transaction.from := account;
     Transaction.gasLimit := 21000; Transaction.gasPrice := 1;
     Transaction.hash := Some (leftPad32 48879);
     Transaction.nonce := 0; Transaction.to := inbox;
     Transaction.value := 0; Transaction.chainId := 1 |}.

Definition env (agg : option (AggregatorClient))
    (count : res Z) (sent : res Transaction.t)
    (receipts : string -> option Receipt.t)
    (results : string -> option (RawResult lib)) : Env lib :=
  {| deterministicAssertions := false;
     aggregator := agg;
     client_getVmID := Ok rollup;
     client_getMessageResult := fun id => Ok (results id);
     client_call := fun _ _ => Ok "0x2a";
     client_pendingCall := fun _ _ => Ok "0x2b";
     ethProvider_getTransactionReceipt := fun h => Ok (receipts h);
     ethProvider_waitForTransaction := fun h =>
       match receipts h with
       | Some r => Ok r
       | None => Throw (JsError "timeout")
       end;
     arbRollup_globalInbox := fun _ => Ok inbox;
     arbRollup_parseLog := parseLog;
     globalInbox_parseLog := parseLog;
     globalInbox_sendL2Message := fun _ _ _ => sent;
     arbSys_getTransactionCount := fun _ => count;
     arbInfo_getCode := fun _ => Ok "0x6080";
     signer_getAddress := Ok account;
     signer_signMessage := fun m => Ok ("sig(" ++ m ++ ")") |}.

(** An aggregator whose promise always rejects. *)
Definition deafAggregator : AggregatorClient :=
  fun _ _ _ _ _ _ => Throw (JsError "aggregator unreachable").

Definition noReceipt : string -> option Receipt.t := fun _ => None.
Definition noResult : string -> option (RawResult lib) := fun _ => None.

(** A quiet chain: no aggregator, five transactions sent so far. *)
Definition quiet : Env lib := env None (Ok 5) (Ok inboxTx) noReceipt noResult.

(** Identifiers: the hash of [inboxTx], the hash of the base-chain
    transaction that asserted a node, and the message id of the
    transaction with sequence number 5. *)
Definition l1Hash : string := leftPad32 48879.
Definition assertionHash : string := leftPad32 256.
Definition messageId5 : string := leftPad32 4101.

(** Raw logs: a transaction delivery with sequence number 5, an ETH
    deposit with message number 7, an event of another kind and a log that
    the interface does not decode. *)
Definition txLog : Log.t :=
  {| Log.address := inbox; Log.topics := [TransactionMessageDelivered];
     Log.data := "0x5" |}.
Definition depositLog : Log.t :=
  {| Log.address := inbox; Log.topics := [EthDepositMessageDelivered];
     Log.data := "0x7" |}.
Definition otherLog : Log.t :=
  {| Log.address := inbox; Log.topics := ["Transfer"]; Log.data := "0x0" |}.
Definition foreignLog : Log.t :=
  {| Log.address := account; Log.topics := []; Log.data := "0x" |}.

Definition receipt (logs : list Log.t) : Receipt.t :=
  {| Receipt.logs := Some logs; Receipt.confirmations := Some 1 |}.

(** The only receipt of a chain: that of transaction [h], with [logs]. *)
Definition receiptOf (h : string) (logs : list Log.t)
  : string -> option Receipt.t :=
  fun x => if (x =? h)%string then Some (receipt logs) else None.

(** A validator that answers every id with a result for that very id. *)
Definition echo (ni : option NodeInfo) (proof : option AVMProof)
  : string -> option (RawResult lib) :=
  fun id => Some (Build_RawResult lib id ni proof).

(** A validator that answers every id with the same foreign result. *)
Definition forged : string -> option (RawResult lib) :=
  fun _ => Some (Build_RawResult lib "forged" None None).

Definition pendingNode : NodeInfo :=
  {| nodeHash := "0x91"; nodeHeight := 9; l1TxHash := None;
     l1Confirmations := None |}.
Definition assertedNode : NodeInfo :=
  {| nodeHash := "0x91"; nodeHeight := 9; l1TxHash := Some assertionHash;
     l1Confirmations := None |}.

(** Proofs without siblings for the value [messageId5]: one whose
    [logPostHash] is the hash of [h0] and the value's hash, one whose
    [logPostHash] is something else. *)
Definition goodProof : AVMProof :=
  {| logPreHash := "h0";
     logPostHash := "k(h0,h(" ++ messageId5 ++ "))";
     logValHashes := [] |}.
Definition badProof : AVMProof :=
  {| logPreHash := "h0"; logPostHash := "0xbad"; logValHashes := [] |}.

(** A RollupAsserted log of the rollup contract: its post-logs hash is
    that of [goodProof], its node hash is not that of [assertedNode]. *)
Definition assertedLog : Log.t :=
  {| Log.address := rollup;
     Log.topics :=
       [EB_EVENT_CDA; "f0"; "f1"; "f2"; "f3"; "f4"; "f5";
        logPostHash goodProof; "0x92"];
     Log.data := "0x0" |}.

(** A chain on which a node was asserted, with a validator whose proofs
    are [proof]. *)
Definition asserted (ni : NodeInfo) (proof : AVMProof) : Env lib :=
  env None (Ok 5) (Ok inboxTx)
      (receiptOf assertionHash [otherLog; assertedLog])
      (echo (Some ni) (Some proof)).

(** A chain whose only base-chain transaction has the given logs. *)
Definition delivered (logs : list Log.t) : Env lib :=
  env None (Ok 5) (Ok inboxTx) (receiptOf l1Hash logs) (echo None None).

(** No aggregator, and an inbox that refuses the transaction. *)
Definition refusing : Env lib :=
  env None (Ok 5) (Throw (JsError "insufficient funds")) noReceipt noResult.

(** An aggregator is configured; its promise rejects. *)
Definition aggregated : Env lib :=
  env (Some deafAggregator) (Ok 5) (Ok inboxTx) noReceipt (echo None None).

(** A validator that forges its answers. *)
Definition forging : Env lib :=
  env None (Ok 5) (Ok inboxTx) noReceipt forged.

Definition request : TransactionRequest.t :=
  {| TransactionRequest.to := Some "0x00000000000000000000000000000000000000d4";
     TransactionRequest.from := Some account;
     TransactionRequest.gasLimit := Some (BN_number 100000);
     TransactionRequest.gasPrice := Some (BN_number 1);
     TransactionRequest.value := None;
     TransactionRequest.data := Some "0x" |}.

End Demo.

(** ** Further methods of the two classes

    The receipt and transaction lookups of [perform], and the deposit,
    withdrawal and payment helpers of the wallet.  What they read of
    message.ts beyond [Lib], and the collaborators they call beyond [Env],
    is one more parameter; the calls to these collaborators are not
    entered in the request log. *)

(** [ethers.providers.TransactionReceipt] as [perform] builds it; [L] is
    the type of the logs of a result. *)
Module TransactionReceipt.
Record t (L : Type) : Type := {
  blockHash : string;
  blockNumber : Z;
  confirmations : Z;
  cumulativeGasUsed : Z;
  from : string;
  gasUsed : Z;
  logs : list L;
  status : Z;
  to : string;
  transactionHash : string;
  transactionIndex : Z;
  byzantium : bool
}.
Arguments blockHash {L} t.
Arguments blockNumber {L} t.
Arguments confirmations {L} t.
Arguments cumulativeGasUsed {L} t.
Arguments from {L} t.
Arguments gasUsed {L} t.
Arguments logs {L} t.
Arguments status {L} t.
Arguments to {L} t.
Arguments transactionHash {L} t.
Arguments transactionIndex {L} t.
Arguments byzantium {L} t.
End TransactionReceipt.

(** [ethers.providers.TransactionResponse] as [getTransaction] builds it:
    the transaction, and the block fields when they were spread over it. *)
Module TransactionResponse.
Record t : Type := {
  tx : Transaction.t;
  blockHash : option string;
  blockNumber : option Z;
  confirmations : option Z
}.
End TransactionResponse.

Record Facade (lib : Lib) : Type := {
  (** [message.Log] and [result.logs] *)
  EvmLog : Type;
  result_logs : Result lib -> list EvmLog;
  (** [result.incoming.blockNumber.toNumber()], [result.incoming.sender] *)
  incoming_blockNumber : Result lib -> Z;
  incoming_sender : Result lib -> string;
  (** [incoming.msg.message] when [incoming.msg.kind] is [MessageCode.L2]
      and [incoming.msg.message.kind] is [L2MessageCode.Transaction] *)
  incoming_l2Transaction : Result lib -> option (L2Transaction lib);
  (** [ethers.utils.hexlify], [ethers.utils.bigNumberify] *)
  hexlify : string -> string;
  bigNumberify : BigNumberish -> res Z;
  (** [ethProvider.getBlockNumber()] *)
  ethProvider_getBlockNumber : res Z;
  (** methods of the GlobalInbox contract, at the address of the contract *)
  globalInbox_depositERC20Message :
    string -> string -> string -> string -> Z -> res Transaction.t;
  globalInbox_depositERC721Message :
    string -> string -> string -> string -> BigNumberish -> res Transaction.t;
  globalInbox_depositEthMessage :
    string -> string -> string -> BigNumberish -> res Transaction.t;
  globalInbox_withdrawEth : string -> res Transaction.t;
  globalInbox_withdrawERC20 : string -> string -> res Transaction.t;
  globalInbox_withdrawERC721 :
    string -> string -> BigNumberish -> res Transaction.t;
  globalInbox_transferPayment :
    string -> string -> string -> string -> Z -> res Transaction.t
}.
Arguments EvmLog {lib} f.
Arguments result_logs {lib} f r.
Arguments incoming_blockNumber {lib} f r.
Arguments incoming_sender {lib} f r.
Arguments incoming_l2Transaction {lib} f r.
Arguments hexlify {lib} f s.
Arguments bigNumberify {lib} f v.
Arguments ethProvider_getBlockNumber {lib} f.
Arguments globalInbox_depositERC20Message {lib} f.
Arguments globalInbox_depositERC721Message {lib} f.
Arguments globalInbox_depositEthMessage {lib} f.
Arguments globalInbox_withdrawEth {lib} f.
Arguments globalInbox_withdrawERC20 {lib} f.
Arguments globalInbox_withdrawERC721 {lib} f.
Arguments globalInbox_transferPayment {lib} f.

Section Further.

Variable lib : Lib.
Variable env : Env lib.
Variable fac : Facade lib.

Definition notL2Transaction : string :=
  "Can only call getTransaction on an L2 Transaction message".

(** [result.nodeInfo?.l1Confirmations] *)
Definition l1Confs (m : MessageResult lib) : option Z :=
  match nodeInfo m with
  | Some ni => l1Confirmations ni
  | None => None
  end.

(** [perform('getTransactionReceipt', params)], last part: the receipt
    made of a result that [getMessageResult] returned. *)
Definition getTransactionReceipt_of (m : MessageResult lib)
  : M (TransactionReceipt.t (EvmLog fac)) :=
  let isReturn := resultCode_isReturn lib (result m) in
  let status := if isReturn then 1 else 0 in
  let logs := if isReturn then result_logs fac (result m) else [] in
  confirmations <-
    (if deterministicAssertions env then
       currentBlockNum <- lift (ethProvider_getBlockNumber fac) ;;
       let messageBlockNum := incoming_blockNumber fac (result m) in
       ret (currentBlockNum - messageBlockNum + 1)
     else
       match l1Confs m with
       | Some c => ret c
       | None => ret 0
       end) ;;
  match incoming_l2Transaction fac (result m) with
  | None => throw (JsError notL2Transaction)
  | Some l2tx =>
      match nodeInfo m with
      | None => throw (TypeError "Cannot read property 'nodeHash' of undefined")
      | Some ni =>
          ret {| TransactionReceipt.blockHash := nodeHash ni;
                 TransactionReceipt.blockNumber := nodeHeight ni;
                 TransactionReceipt.confirmations := confirmations;
                 TransactionReceipt.cumulativeGasUsed := 1;
                 TransactionReceipt.from := incoming_sender fac (result m);
                 TransactionReceipt.gasUsed := 1;
                 TransactionReceipt.logs := logs;
                 TransactionReceipt.status := status;
                 TransactionReceipt.to := destAddress lib l2tx;
                 TransactionReceipt.transactionHash := txHash m;
                 TransactionReceipt.transactionIndex := 0;
                 TransactionReceipt.byzantium := true |}
      end
  end.

(** [perform('getTransactionReceipt', params)] *)
Definition perform_getTransactionReceipt (transactionHash : string)
  : M (option (TransactionReceipt.t (EvmLog fac))) :=
  found <- getMessageResult lib env transactionHash ;;
  match found with
  | None => ret None
  | Some m =>
      txReceipt <- getTransactionReceipt_of m ;;
      ret (Some txReceipt)
  end.

(** [getMessageRequest], last part: the response made of a result that
    [getMessageResult] returned. *)
Definition getMessageRequest_of (m : MessageResult lib)
  : M TransactionResponse.t :=
  match incoming_l2Transaction fac (result m) with
  | None => throw (JsError notL2Transaction)
  | Some l2tx =>
      let tx :=
        {| Transaction.data := hexlify fac (calldata lib l2tx);
           Transaction.from := incoming_sender fac (result m);
           Transaction.gasLimit := 1;
           Transaction.gasPrice := 1;
           Transaction.hash := Some (txHash m);
           Transaction.nonce := sequenceNum lib l2tx;
           Transaction.to := destAddress lib l2tx;
           Transaction.value := payment lib l2tx;
           Transaction.chainId := 123456789 |} in
      response <- lift (_wrapTransaction tx None) ;;
      match nodeInfo m with
      | None =>
          ret {| TransactionResponse.tx := response;
                 TransactionResponse.blockHash := None;
                 TransactionResponse.blockNumber := None;
                 TransactionResponse.confirmations := None |}
      | Some ni =>
          ret {| TransactionResponse.tx := response;
                 TransactionResponse.blockHash := Some (nodeHash ni);
                 TransactionResponse.blockNumber := Some (nodeHeight ni);
                 TransactionResponse.confirmations := Some 1000 |}
      end
  end.

(** [getMessageRequest], the task that [perform('getTransaction', params)]
    hands to the poller. *)
Definition getMessageRequest (transactionHash : string)
  : M (option TransactionResponse.t) :=
  found <- getMessageResult lib env transactionHash ;;
  match found with
  | None => ret None
  | Some m =>
      response <- getMessageRequest_of m ;;
      ret (Some response)
  end.

(** [shouldContinue] of the poller of [getTransaction]: [reason] is the
    rejection of the last attempt and [value] what it resolved to, each
    given by its truthiness. *)
Definition shouldContinue (reason value : bool) : bool :=
  if reason then true else if value then false else true.

(** [depositERC20(to, erc20, value)] *)
Definition depositERC20 (to erc20 : string) (value : BigNumberish)
  : M Transaction.t :=
  sendValue <- lift (bigNumberify fac value) ;;
  chain <- getVmID lib env ;;
  globalInbox <- wallet_globalInboxConn lib env ;;
  tx <- lift (globalInbox_depositERC20Message fac globalInbox chain erc20 to
                sendValue) ;;
  lift (_wrapTransaction tx (Transaction.hash tx)).

(** [depositERC721(to, erc721, tokenId)] *)
Definition depositERC721 (to erc721 : string) (tokenId : BigNumberish)
  : M Transaction.t :=
  chain <- getVmID lib env ;;
  globalInbox <- wallet_globalInboxConn lib env ;;
  tx <- lift (globalInbox_depositERC721Message fac globalInbox chain erc721 to
                tokenId) ;;
  lift (_wrapTransaction tx (Transaction.hash tx)).

(** [depositETH(to, value)] *)
Definition depositETH (to : string) (value : BigNumberish)
  : M Transaction.t :=
  chain <- getVmID lib env ;;
  globalInbox <- wallet_globalInboxConn lib env ;;
  tx <- lift (globalInbox_depositEthMessage fac globalInbox chain to value) ;;
  lift (_wrapTransaction tx (Transaction.hash tx)).

(** [withdrawEth()] *)
Definition withdrawEth : M Transaction.t :=
  globalInbox <- wallet_globalInboxConn lib env ;;
  lift (globalInbox_withdrawEth fac globalInbox).

(** [withdrawERC20(erc20)] *)
Definition withdrawERC20 (erc20 : string) : M Transaction.t :=
  globalInbox <- wallet_globalInboxConn lib env ;;
  lift (globalInbox_withdrawERC20 fac globalInbox erc20).

(** [withdrawERC721(erc721, tokenId)] *)
Definition withdrawERC721 (erc721 : string) (tokenId : BigNumberish)
  : M Transaction.t :=
  globalInbox <- wallet_globalInboxConn lib env ;;
  lift (globalInbox_withdrawERC721 fac globalInbox erc721 tokenId).

(** [transferPayment(originalOwner, newOwner, nodeHash, messageIndex)] *)
Definition transferPayment (originalOwner newOwner nodeHash : string)
    (messageIndex : BigNumberish) : M Transaction.t :=
  msgIndex <- lift (bigNumberify fac messageIndex) ;;
  globalInbox <- wallet_globalInboxConn lib env ;;
  tx <- lift (globalInbox_transferPayment fac globalInbox originalOwner
                newOwner nodeHash msgIndex) ;;
  ret tx.

(** [chainAddress()] *)
Definition chainAddress : M string :=
  await ReqClientGetVmID (client_getVmID env).

End Further.

(** Requests of the aggregator path: a signature, a send to the
    aggregator. *)
Definition isAggregatorRequest (q : Request) : bool :=
  match q with
  | ReqSignerSignMessage _ => true
  | ReqAggregatorSendTransaction _ _ _ _ _ _ => true
  | _ => false
  end.

(** Requests of the inbox path: the inbox's address, a send to the inbox. *)
Definition isInboxRequest (q : Request) : bool :=
  match q with
  | ReqArbRollupGlobalInbox _ => true
  | ReqGlobalInboxSendL2Message _ _ _ => true
  | _ => false
  end.

(** A computation that leaves the observation [obs] of the state as it
    found it, whatever its outcome. *)
Definition keepsObs {X A} (obs : State -> X) (m : M A) : Prop :=
  forall (st : State) (r : res A) (st' : State),
    m st = (r, st') -> obs st' = obs st.

(** The requests of the log that satisfy [p]. *)
Definition requestsOf (p : Request -> bool) (st : State) : list Request :=
  filter p (requests st).

(** The sequence counter and the cached public key. *)
Definition submissionState (st : State) : option Z * option string :=
  (seqCache st, pubkey st).

(** What [call] makes of the validator's answer: the return data of the
    result that the answered value decodes to, when its code is [Return]. *)
Definition callOutcome (lib : Lib) (answer : res (Value lib)) : res string :=
  match answer with
  | Throw e => Throw e
  | Ok value =>
      match Result_fromValue lib value with
      | Throw e => Throw e
      | Ok r =>
          if resultCode_isReturn lib r then Ok (returnData lib r)
          else Throw (JsError "Call was reverted")
      end
  end.

(** A log that the interface decodes to an event other than
    RollupAsserted. *)
Definition otherEvent (log : option LogDescription.t) : bool :=
  match log with
  | Some d => negb (LogDescription.name d =? EB_EVENT_CDA)%string
  | None => false
  end.

(** ** More of the small instance *)
Module Sample.

(** A node whose hash is the one that [Demo.assertedLog] records. *)
Definition assertedNode : NodeInfo :=
  {| nodeHash := "0x92"; nodeHeight := 9;
     l1TxHash := Some Demo.assertionHash; l1Confirmations := Some 2 |}.

(** A chain whose asserting transaction holds a log that the rollup
    interface does not decode, before the RollupAsserted log. *)
Definition foreignFirst : Env Demo.lib :=
  Demo.env None (Ok 5) (Ok Demo.inboxTx)
    (Demo.receiptOf Demo.assertionHash [Demo.foreignLog; Demo.assertedLog])
    (Demo.echo (Some assertedNode) (Some Demo.goodProof)).

(** A validator that cannot be reached for the chain's address. *)
Definition unreachable : Env Demo.lib :=
  Build_Env Demo.lib false None
    (Throw (JsError "validator unreachable"))
    (fun _ => Ok None)
    (fun _ _ => Ok "0x2a")
    (fun _ _ => Ok "0x2b")
    (fun _ => Ok None)
    (fun _ => Throw (JsError "timeout"))
    (fun _ => Ok Demo.inbox)
    Demo.parseLog
    Demo.parseLog
    (fun _ _ _ => Ok Demo.inboxTx)
    (fun _ => Ok 5)
    (fun _ => Ok "0x6080")
    (Ok Demo.account)
    (fun m => Ok ("sig(" ++ m ++ ")")).


(** A provider with deterministic assertions. *)
Definition deterministic : Env Demo.lib :=
  Build_Env Demo.lib true None
    (Ok Demo.rollup)
    (fun _ => Ok None)
    (fun _ _ => Ok "0x2a")
    (fun _ _ => Ok "0x2b")
    (fun _ => Ok None)
    (fun _ => Throw (JsError "timeout"))
    (fun _ => Ok Demo.inbox)
    Demo.parseLog
    Demo.parseLog
    (fun _ _ _ => Ok Demo.inboxTx)
    (fun _ => Ok 5)
    (fun _ => Ok "0x6080")
    (Ok Demo.account)
    (fun m => Ok ("sig(" ++ m ++ ")")).

(** A validator that reports results with a node that is not asserted. *)
Definition reporting : Env Demo.lib :=
  Demo.env None (Ok 5) (Ok Demo.inboxTx) Demo.noReceipt
    (Demo.echo (Some Demo.pendingNode) None).

(** A wallet that has used the sequence numbers below [n]. *)
Definition warm (n : Z) : State := set_seqCache (Some n) initial.

(** An account that has sent [2^53 - 1] transactions, the largest count
    that [toNumber] lets through. *)
Definition worn : Env Demo.lib :=
  Demo.env None (Ok (2 ^ 53 - 1)) (Ok Demo.inboxTx) Demo.noReceipt
    Demo.noResult.

Definition numberOf (v : BigNumberish) : res Z :=
  match v with
  | BN_number n => Ok n
  | BN_BigNumber n => Ok n
  | BN_string s => Ok (HexString.to_Z s)
  end.

(** Every result is an L2 transaction with sequence number 5, sent by
    [Demo.account] in block 100; the base chain is at block 120. *)
Definition fac : Facade Demo.lib :=
  Build_Facade Demo.lib string
    (fun r => ["log of " ++ r])
    (fun _ => 100)
    (fun _ => Demo.account)
    (fun _ => Some 5)
    (fun s => s)
    numberOf
    (Ok 120)
    (fun _ _ _ _ _ => Ok Demo.inboxTx)
    (fun _ _ _ _ _ => Ok Demo.inboxTx)
    (fun _ _ _ _ => Ok Demo.inboxTx)
    (fun _ => Ok Demo.inboxTx)
    (fun _ _ => Ok Demo.inboxTx)
    (fun _ _ _ => Ok Demo.inboxTx)
    (fun _ _ _ _ _ => Ok Demo.inboxTx).

End Sample.

(** * Properties *)

Ltac monad_unfold :=
  unfold bind, ret, throw, lift, await, fire, get, modify, try_catch in *.

Lemma set_seqCache_twice (a b : option Z) (st : State) :
  set_seqCache a (set_seqCache b st) = set_seqCache a st.
Proof. reflexivity. Qed.

Lemma set_seqCache_same (st : State) :
  set_seqCache (seqCache st) st = st.
Proof. destruct st; reflexivity. Qed.

(** ** Sums of numbers *)

(** The integers from [-2^53] to [2^53] are numbers. *)
Lemma roundNumber_exact (z : Z) :
  - 2 ^ 53 <= z <= 2 ^ 53 -> roundNumber z = z.
Proof.
  intros H. unfold roundNumber.
  destruct (Z.ltb_spec (Z.log2 (Z.abs z)) 53) as [L | L]; [reflexivity |].
  assert (Ha : Z.abs z = 2 ^ 53).
  { apply Z.le_antisymm; [lia |].
    destruct (Z.le_gt_cases (2 ^ 53) (Z.abs z)) as [G | G]; [exact G |].
    destruct (Z.eq_dec (Z.abs z) 0) as [E | N].
    - rewrite E in L. simpl in L. lia.
    - apply Z.log2_lt_pow2 in G; lia. }
  rewrite Ha. change (Z.log2 (2 ^ 53)) with 53. change (2 ^ (53 - 52)) with 2.
  assert (Hz : z = 2 ^ 53 \/ z = - 2 ^ 53) by lia.
  destruct Hz as [-> | ->]; reflexivity.
Qed.

(** Below [2^53] the successor is exact. *)
Lemma number_add_1 (s : Z) : 0 <= s < 2 ^ 53 -> number_add s 1 = s + 1.
Proof. intros H. unfold number_add. apply roundNumber_exact. lia. Qed.

(** [2^53 + 1] is no number: the sum is [2^53] again. *)
Lemma number_add_1_top : number_add (2 ^ 53) 1 = 2 ^ 53.
Proof. reflexivity. Qed.

Section Sequencing.

Variable lib : Lib.
Variable env : Env lib.

Lemma generateAndIncrementSeq_warm (st : State) (s : Z) :
  seqCache st = Some s -> s <> 0 ->
  generateAndIncrementSeq lib env st
  = (Ok s, set_seqCache (Some (number_add s 1)) st).
Proof.
  intros Hc Hs. unfold generateAndIncrementSeq. monad_unfold.
  rewrite Hc. simpl.
  destruct (Z.eqb_spec s 0) as [E | _]; [contradiction | reflexivity].
Qed.

Lemma generateAndIncrementSeq_cold (st : State) (address : string) (c : Z) :
  truthy_onumber (seqCache st) = false ->
  signer_getAddress env = Ok address ->
  arbSys_getTransactionCount env address = Ok c ->
  generateAndIncrementSeq lib env st =
    (Ok c, set_seqCache (Some (number_add c 1))
             (log_request (ReqArbSysGetTransactionCount address)
                (log_request ReqSignerGetAddress st))).
Proof.
  intros Hc Ha Hn. unfold generateAndIncrementSeq, getAddress,
    perform_getTransactionCount. monad_unfold.
  rewrite Hc. simpl. rewrite Ha, Hn. reflexivity.
Qed.

(** Reservations from a warm cache: contiguous as long as the numbers
    returned are at most [2^53], where the counter stops. *)
Lemma reserve_warm (n : nat) : forall (st : State) (s : Z),
  seqCache st = Some s -> 0 < s <= 2 ^ 53 ->
  s + Z.of_nat n <= 2 ^ 53 + 1 ->
  reserve lib env n st =
    (Ok (range s n),
     set_seqCache (Some (Z.min (s + Z.of_nat n) (2 ^ 53))) st).
Proof.
  induction n as [| n IH]; intros st s Hc Hs Hn.
  - simpl. unfold ret. rewrite Z.add_0_r, Z.min_l by lia.
    rewrite <- Hc, set_seqCache_same. reflexivity.
  - cbn [reserve range]. unfold bind at 1.
    rewrite (generateAndIncrementSeq_warm st s Hc) by lia.
    unfold bind at 1.
    destruct (Z.eq_dec s (2 ^ 53)) as [Etop | Ntop].
    + assert (n = 0%nat) by lia. subst n s. rewrite number_add_1_top.
      reflexivity.
    + rewrite number_add_1 by lia.
      rewrite (IH (set_seqCache (Some (s + 1)) st) (s + 1))
        by (simpl; auto; lia).
      unfold ret. rewrite set_seqCache_twice.
      replace (s + 1 + Z.of_nat n) with (s + Z.of_nat (S n)) by lia.
      reflexivity.
Qed.

End Sequencing.

Lemma range_length (n : nat) : forall c, List.length (range c n) = n.
Proof. induction n; intros c; simpl; auto. Qed.

Lemma range_nth (n : nat) : forall c i, (i < n)%nat ->
  nth_error (range c n) i = Some (c + Z.of_nat i).
Proof.
  induction n as [| n IH]; intros c i Hi; [lia |].
  destruct i as [| i]; simpl.
  - f_equal. lia.
  - rewrite IH by lia. f_equal. lia.
Qed.

(** C7, amended: from a cold cache, [S n] reservations in a row return
    the contiguous range that starts at the on-chain transaction count, as
    long as the numbers returned are at most [2^53]; the count is asked for
    once, by the first reservation, and the requests logged at the end are
    those of the first reservation alone; the counter ends one above the
    last number returned, or at [2^53] when that was the last number. *)
Theorem reservations_contiguous
    (lib : Lib) (env : Env lib) (st : State) (address : string)
    (initialCount : Z) (n : nat) :
  seqCache st = None ->
  signer_getAddress env = Ok address ->
  arbSys_getTransactionCount env address = Ok initialCount ->
  0 <= initialCount < 2 ^ 53 ->
  initialCount + Z.of_nat n <= 2 ^ 53 ->
  generateAndIncrementSeq lib env st =
    (Ok initialCount,
     set_seqCache (Some (initialCount + 1))
       (log_request (ReqArbSysGetTransactionCount address)
          (log_request ReqSignerGetAddress st)))
  /\ reserve lib env (S n) st =
    (Ok (range initialCount (S n)),
     set_seqCache (Some (Z.min (initialCount + Z.of_nat (S n)) (2 ^ 53)))
       (log_request (ReqArbSysGetTransactionCount address)
          (log_request ReqSignerGetAddress st))).
Proof.
  intros Hc Ha Hn Hpos Hmax.
  assert (Hcold : generateAndIncrementSeq lib env st =
    (Ok initialCount,
     set_seqCache (Some (initialCount + 1))
       (log_request (ReqArbSysGetTransactionCount address)
          (log_request ReqSignerGetAddress st)))).
  { rewrite <- (number_add_1 initialCount Hpos).
    apply generateAndIncrementSeq_cold; auto. rewrite Hc. reflexivity. }
  split; [exact Hcold |].
  cbn [reserve range]. unfold bind at 1. rewrite Hcold.
  unfold bind at 1.
  rewrite (reserve_warm lib env n _ (initialCount + 1))
    by (simpl; auto; lia).
  unfold ret. rewrite set_seqCache_twice.
  replace (initialCount + 1 + Z.of_nat n) with (initialCount + Z.of_nat (S n))
    by lia.
  reflexivity.
Qed.

Lemma reservations_contiguous_witness :
  seqCache initial = None
  /\ signer_getAddress Demo.quiet = Ok Demo.account
  /\ arbSys_getTransactionCount Demo.quiet Demo.account = Ok 5
  /\ 0 <= 5 < 2 ^ 53
  /\ 5 + Z.of_nat 2 <= 2 ^ 53
  /\ fst (reserve Demo.lib Demo.quiet 3 initial) = Ok [5; 6; 7]
  /\ fst (reserve Demo.lib Sample.worn 2 initial)
     = Ok [2 ^ 53 - 1; 2 ^ 53].
Proof.
  assert (H5 : 0 <= 5 < 2 ^ 53) by (split; [lia | reflexivity]).
  assert (H7 : 5 + Z.of_nat 2 <= 2 ^ 53) by (intro H; discriminate H).
  split; [reflexivity |]. split; [reflexivity |]. split; [reflexivity |].
  split; [exact H5 |]. split; [exact H7 |]. split.
  - destruct (reservations_contiguous Demo.lib Demo.quiet initial Demo.account
                5 2 eq_refl eq_refl eq_refl H5 H7) as [_ H].
    rewrite H. reflexivity.
  - destruct (reservations_contiguous Demo.lib Sample.worn initial
                Demo.account (2 ^ 53 - 1) 1 eq_refl eq_refl eq_refl
                ltac:(split; [intro H; discriminate H | reflexivity])
                ltac:(intro H; discriminate H)) as [_ H].
    rewrite H. reflexivity.
Defined.

(** C7 as stated fails past [2^53]: an account that has sent [2^53 - 1]
    transactions is given [2^53 - 1], [2^53] and [2^53] again by three
    reservations in a row, where the range ends with [2^53 + 1]. *)
Lemma contiguity_ends_at_the_largest_counter :
  seqCache initial = None
  /\ arbSys_getTransactionCount Sample.worn Demo.account = Ok (2 ^ 53 - 1)
  /\ fst (reserve Demo.lib Sample.worn 3 initial)
     = Ok [2 ^ 53 - 1; 2 ^ 53; 2 ^ 53]
  /\ range (2 ^ 53 - 1) 3 = [2 ^ 53 - 1; 2 ^ 53; 2 ^ 53 + 1]
  /\ fst (reserve Demo.lib Sample.worn 3 initial)
     <> Ok (range (2 ^ 53 - 1) 3).
Proof.
  split; [reflexivity |]. split; [reflexivity |]. split; [reflexivity |].
  split; [reflexivity |]. intro H. discriminate H.
Qed.

(** C10: [getCode] for the ArbSys and ArbInfo addresses is the constant
    ['0x100'] and issues no request at all; for any other address it is
    the answer of [ArbInfo.getCode], the rollup's system-info contract. *)
Theorem getCode_system_addresses (lib : Lib) (env : Env lib) (st : State) :
  perform_getCode lib env ARB_SYS_ADDRESS st = (Ok "0x100", st)
  /\ perform_getCode lib env ARB_INFO_ADDRESS st = (Ok "0x100", st)
  /\ forall address,
       address <> ARB_SYS_ADDRESS -> address <> ARB_INFO_ADDRESS ->
       perform_getCode lib env address st =
         (arbInfo_getCode env address,
          log_request (ReqArbInfoGetCode address) st).
Proof.
  split; [reflexivity | split; [reflexivity |]].
  intros address H1 H2. unfold perform_getCode.
  destruct (String.eqb_spec address ARB_SYS_ADDRESS) as [E | _];
    [contradiction |].
  destruct (String.eqb_spec address ARB_INFO_ADDRESS) as [E | _];
    [contradiction |].
  reflexivity.
Qed.

Lemma getCode_system_addresses_witness :
  Demo.account <> ARB_SYS_ADDRESS
  /\ Demo.account <> ARB_INFO_ADDRESS
  /\ perform_getCode Demo.lib Demo.quiet Demo.account initial =
       (Ok "0x6080", log_request (ReqArbInfoGetCode Demo.account) initial).
Proof.
  assert (H1 : Demo.account <> ARB_SYS_ADDRESS) by discriminate.
  assert (H2 : Demo.account <> ARB_INFO_ADDRESS) by discriminate.
  split; [exact H1 |]. split; [exact H2 |].
  exact (proj2 (proj2 (getCode_system_addresses Demo.lib Demo.quiet initial))
           Demo.account H1 H2).
Defined.

(** ** Resolving a result *)

Section Resolution.

Variable lib : Lib.
Variable env : Env lib.

(** [getMessageResult] once the rollup id is known and the validator has a
    raw result for it. *)
Lemma getMessageResult_found (txHash : string) (st st1 : State)
    (arbTxHash : string) (rawResult : RawResult lib) :
  getMessageResult_arbTxHash lib env txHash st = (Ok (Some arbTxHash), st1) ->
  client_getMessageResult env arbTxHash = Ok (Some rawResult) ->
  getMessageResult lib env txHash st =
    match getMessageResult_check lib env arbTxHash rawResult
            (log_request (ReqClientGetMessageResult arbTxHash) st1) with
    | (Ok m, st') => (Ok (Some m), st')
    | (Throw e, st') => (Throw e, st')
    end.
Proof.
  intros H1 H2. unfold getMessageResult. unfold bind at 1. rewrite H1.
  unfold bind at 1. unfold await at 1. rewrite H2.
  unfold bind, ret. reflexivity.
Qed.

(** Whatever [getMessageResult_check] returns carries the id it was asked
    for, and that id is the one recomputed from the result's envelope. *)
Lemma getMessageResult_check_ok (arbTxHash : string)
    (rawResult : RawResult lib) (st st' : State) (m : MessageResult lib) :
  getMessageResult_check lib env arbTxHash rawResult st = (Ok m, st') ->
  txHash m = arbTxHash
  /\ incoming_messageID lib (result m) = arbTxHash
  /\ Result_fromValue lib (raw_val rawResult) = Ok (result m).
Proof.
  unfold getMessageResult_check. monad_unfold.
  destruct (Result_fromValue lib (raw_val rawResult)) as [r | e];
    [| discriminate].
  destruct (String.eqb_spec arbTxHash (incoming_messageID lib r)) as [E | N];
    simpl; [| discriminate].
  destruct (raw_proof rawResult) as [proof |].
  - destruct (raw_nodeInfo rawResult) as [ni |]; [| discriminate].
    destruct (l1TxHash ni).
    + destruct (processLogsProof lib (raw_val rawResult) proof); simpl;
        [| discriminate].
      destruct (processConfirmedDisputableAssertion lib env ni proof st)
        as [[rc | e] st2]; [| discriminate].
      intros H; inversion H; subst; simpl; auto.
    + intros H; inversion H; subst; simpl; auto.
  - intros H; inversion H; subst; simpl; auto.
Qed.

(** What [getMessageResult] does, by cases on its two early returns. *)
Lemma getMessageResult_Some (id : string) (st st' : State)
    (m : MessageResult lib) :
  getMessageResult lib env id st = (Ok (Some m), st') ->
  exists st1 rawResult,
    getMessageResult_arbTxHash lib env id st = (Ok (Some (txHash m)), st1)
    /\ client_getMessageResult env (txHash m) = Ok (Some rawResult)
    /\ getMessageResult_check lib env (txHash m) rawResult
         (log_request (ReqClientGetMessageResult (txHash m)) st1) = (Ok m, st').
Proof.
  unfold getMessageResult. unfold bind at 1.
  destruct (getMessageResult_arbTxHash lib env id st) as [[[arb |] | e] st1];
    try discriminate.
  unfold bind at 1, await at 1.
  destruct (client_getMessageResult env arb) as [[raw |] | e] eqn:Hraw;
    try discriminate.
  unfold bind at 1.
  destruct (getMessageResult_check lib env arb raw
              (log_request (ReqClientGetMessageResult arb) st1))
    as [[m' | e] s] eqn:Hchk; try discriminate.
  unfold ret. intros H; inversion H; subst.
  destruct (getMessageResult_check_ok _ _ _ _ _ Hchk) as [Ht _].
  rewrite Ht. exists st1, raw. auto.
Qed.

(** C4: when the id recomputed from the fetched result's envelope differs
    from the rollup id that was queried, [getMessageResult] throws the
    mismatch error; and a result that it does return always carries the
    id recomputed from its own envelope. *)
Theorem recomputed_id_mismatch_is_fatal :
  (forall (txHash : string) (st st1 : State) (arbTxHash : string)
          (rawResult : RawResult lib) (r : Result lib),
      getMessageResult_arbTxHash lib env txHash st
        = (Ok (Some arbTxHash), st1) ->
      client_getMessageResult env arbTxHash = Ok (Some rawResult) ->
      Result_fromValue lib (raw_val rawResult) = Ok r ->
      incoming_messageID lib r <> arbTxHash ->
      getMessageResult lib env txHash st =
        (Throw (JsError (mismatchMessage arbTxHash (incoming_messageID lib r))),
         log_request (ReqClientGetMessageResult arbTxHash) st1))
  /\ (forall (txHash0 : string) (st st' : State) (m : MessageResult lib),
      getMessageResult lib env txHash0 st = (Ok (Some m), st') ->
      incoming_messageID lib (result m) = txHash m).
Proof.
  split.
  - intros txHash0 st st1 arb raw r H1 H2 H3 H4.
    rewrite (getMessageResult_found _ _ _ _ _ H1 H2).
    unfold getMessageResult_check. monad_unfold. rewrite H3.
    destruct (String.eqb_spec arb (incoming_messageID lib r)) as [E | N].
    + symmetry in E. contradiction.
    + reflexivity.
  - intros id st st' m H.
    destruct (getMessageResult_Some _ _ _ _ H) as (st1 & raw & _ & _ & Hchk).
    destruct (getMessageResult_check_ok _ _ _ _ _ Hchk) as (_ & Hid & _).
    exact Hid.
Qed.

End Resolution.

(** ** Verifying a proof *)

Section Verification.

Variable lib : Lib.
Variable env : Env lib.

Lemma fold_left_foldSiblings (hash : string -> string -> string)
    (siblings : list string) : forall acc,
  fold_left (fun a h => hash a h) siblings acc = foldSiblings hash acc siblings.
Proof.
  induction siblings as [| h t IH]; intros acc; simpl; [reflexivity |].
  apply IH.
Qed.

Lemma processLogsProof_iff (value : Value lib) (proof : AVMProof) :
  processLogsProof lib value proof = true <-> logInclusion lib value proof.
Proof.
  unfold processLogsProof, logInclusion.
  rewrite fold_left_foldSiblings, String.eqb_eq.
  split; intros H; symmetry; exact H.
Qed.

Lemma differs_false (a : option string) (b : string) :
  differs a b = false <-> a = Some b.
Proof.
  unfold differs. destruct a as [s |].
  - rewrite negb_false_iff, String.eqb_eq. split; congruence.
  - split; discriminate.
Qed.

Lemma differs_true (a : option string) (b : string) :
  differs a b = true <-> a <> Some b.
Proof.
  rewrite <- differs_false. destruct (differs a b); split; congruence.
Qed.

(** The outcome of [processConfirmedDisputableAssertion] once the
    RollupAsserted event has been located. *)
Lemma processConfirmedDisputableAssertion_located
    (ni : NodeInfo) (proof : AVMProof) (st st1 st2 : State)
    (l1 : string) (receipt : Receipt.t) (logs : list Log.t)
    (arbRollup : string) (i : nat) (rawLog : Log.t)
    (cda : LogDescription.t) (vmId : string) :
  l1TxHash ni = Some l1 ->
  ethProvider_waitForTransaction env l1 = Ok receipt ->
  Receipt.logs receipt = Some logs ->
  arbRollupConn lib env (log_request (ReqEthWaitForTransaction l1) st)
    = (Ok arbRollup, st1) ->
  findIndex_CDA (map (arbRollup_parseLog env) logs) 0 = Ok (Some i) ->
  nth_error logs i = Some rawLog ->
  arbRollup_parseLog env rawLog = Some cda ->
  getVmID lib env st1 = (Ok vmId, st2) ->
  let fields := LogValues.fields (LogDescription.values cda) in
  processConfirmedDisputableAssertion lib env ni proof st =
    if negb (toLowerCase (Log.address rawLog) =? toLowerCase vmId)%string then
      (Throw (JsError
         ("RollupAsserted Event is from a different address: "
          ++ Log.address rawLog ++ newline ++ "Expected address: " ++ vmId)),
       st2)
    else if differs (nth_error fields 6) (logPostHash proof) then
      (Throw (JsError
         ("RollupAsserted Event on-chain logPostHash is: "
          ++ show (nth_error fields 6) ++ newline
          ++ "Expected: " ++ logPostHash proof)), st2)
    else if differs (nth_error fields 7) (nodeHash ni) then
      (Throw (JsError
         ("RollupAsserted Event on-chain nodeHash is: "
          ++ show (nth_error fields 7) ++ newline
          ++ "Expected: " ++ nodeHash ni)), st2)
    else (Ok receipt, st2).
Proof.
  intros Hl1 Hw Hlogs Hconn Hidx Hraw Hcda Hvm fields.
  unfold processConfirmedDisputableAssertion. rewrite Hl1.
  unfold bind at 1, await at 1. rewrite Hw, Hlogs.
  unfold bind at 1. rewrite Hconn.
  unfold bind at 1, lift at 1. rewrite Hidx, Hraw.
  rewrite (map_nth_error (arbRollup_parseLog env) _ _ Hraw), Hcda.
  unfold bind at 1. rewrite Hvm. fold fields.
  destruct (negb (toLowerCase (Log.address rawLog) =? toLowerCase vmId)%string);
    [reflexivity |].
  destruct (differs (nth_error fields 6) (logPostHash proof)); [reflexivity |].
  destruct (differs (nth_error fields 7) (nodeHash ni)); reflexivity.
Qed.

(** C3: once the RollupAsserted event is located in the mined
    transaction's logs, a mismatch of the event's source address (compared
    as addresses, letter case aside), of its post-logs hash or of its node
    hash makes [processConfirmedDisputableAssertion] throw, and only when
    all three agree is the receipt returned; in particular
    [getMessageResult] throws on a node-hash mismatch although
    [processLogsProof] passed. *)
Theorem assertion_checks_are_fatal
    (ni : NodeInfo) (proof : AVMProof) (st st1 st2 : State)
    (l1 : string) (receipt : Receipt.t) (logs : list Log.t)
    (arbRollup : string) (i : nat) (rawLog : Log.t)
    (cda : LogDescription.t) (vmId : string) :
  l1TxHash ni = Some l1 ->
  ethProvider_waitForTransaction env l1 = Ok receipt ->
  Receipt.logs receipt = Some logs ->
  arbRollupConn lib env (log_request (ReqEthWaitForTransaction l1) st)
    = (Ok arbRollup, st1) ->
  findIndex_CDA (map (arbRollup_parseLog env) logs) 0 = Ok (Some i) ->
  nth_error logs i = Some rawLog ->
  arbRollup_parseLog env rawLog = Some cda ->
  getVmID lib env st1 = (Ok vmId, st2) ->
  (~ addressMatches rawLog vmId ->
     isThrow (fst (processConfirmedDisputableAssertion lib env ni proof st))
     = true)
  /\ (~ logPostHashMatches cda proof ->
     isThrow (fst (processConfirmedDisputableAssertion lib env ni proof st))
     = true)
  /\ (~ nodeHashMatches cda ni ->
     isThrow (fst (processConfirmedDisputableAssertion lib env ni proof st))
     = true)
  /\ (addressMatches rawLog vmId -> logPostHashMatches cda proof ->
      nodeHashMatches cda ni ->
      processConfirmedDisputableAssertion lib env ni proof st
      = (Ok receipt, st2))
  /\ (forall (arbTxHash : string) (rawResult : RawResult lib) (r : Result lib),
      Result_fromValue lib (raw_val rawResult) = Ok r ->
      incoming_messageID lib r = arbTxHash ->
      raw_proof rawResult = Some proof ->
      raw_nodeInfo rawResult = Some ni ->
      processLogsProof lib (raw_val rawResult) proof = true ->
      ~ nodeHashMatches cda ni ->
      isThrow (fst (getMessageResult_check lib env arbTxHash rawResult st))
      = true).
Proof.
  intros Hl1 Hw Hlogs Hconn Hidx Hraw Hcda Hvm.
  pose proof (processConfirmedDisputableAssertion_located
                ni proof st st1 st2 l1 receipt logs arbRollup i rawLog cda vmId
                Hl1 Hw Hlogs Hconn Hidx Hraw Hcda Hvm) as Hout.
  cbv zeta in Hout.
  unfold addressMatches, logPostHashMatches, nodeHashMatches.
  set (fields := LogValues.fields (LogDescription.values cda)) in *.
  assert (Hnode : nth_error fields 7 <> Some (nodeHash ni) ->
    isThrow (fst (processConfirmedDisputableAssertion lib env ni proof st))
    = true).
  { intros Hn. rewrite Hout.
    destruct (negb (toLowerCase (Log.address rawLog) =? toLowerCase vmId)%string);
      [reflexivity |].
    destruct (differs (nth_error fields 6) (logPostHash proof));
      [reflexivity |].
    apply differs_true in Hn. rewrite Hn. reflexivity. }
  repeat split.
  - intros Ha. rewrite Hout.
    destruct (String.eqb_spec (toLowerCase (Log.address rawLog))
                (toLowerCase vmId)) as [E | N]; [contradiction | reflexivity].
  - intros Hp. rewrite Hout.
    destruct (negb (toLowerCase (Log.address rawLog) =? toLowerCase vmId)%string);
      [reflexivity |].
    apply differs_true in Hp. rewrite Hp. reflexivity.
  - exact Hnode.
  - intros Ha Hp Hn. rewrite Hout.
    rewrite Ha, String.eqb_refl. cbn [negb].
    apply differs_false in Hp. apply differs_false in Hn.
    rewrite Hp, Hn. reflexivity.
  - intros arb raw r Hr Hid Hproof Hni Hlog Hn.
    unfold getMessageResult_check. monad_unfold.
    rewrite Hr, Hid, String.eqb_refl, Hproof, Hni, Hl1, Hlog. simpl.
    specialize (Hnode Hn).
    destruct (processConfirmedDisputableAssertion lib env ni proof st)
      as [[rc | e] s']; simpl in *; [discriminate | reflexivity].
Qed.

(** C2, amended: [processLogsProof] holds exactly when folding the siblings
    in order from [hash(logPreHash, hash(value))] gives [logPostHash]; when
    it does not and the raw result, its id check passed, carries a proof
    and a node info that names the asserting base-chain transaction,
    [getMessageResult] throws ['Failed to prove val is in logPostHash'];
    when the node info names no such transaction the result is returned
    with the proof unchecked. *)
Theorem log_inclusion_checked :
  (forall (value : Value lib) (proof : AVMProof),
      processLogsProof lib value proof = true <-> logInclusion lib value proof)
  /\ (forall (id : string) (st st1 : State) (arbTxHash : string)
             (rawResult : RawResult lib) (r : Result lib) (proof : AVMProof)
             (ni : NodeInfo) (l1 : string),
      getMessageResult_arbTxHash lib env id st = (Ok (Some arbTxHash), st1) ->
      client_getMessageResult env arbTxHash = Ok (Some rawResult) ->
      Result_fromValue lib (raw_val rawResult) = Ok r ->
      incoming_messageID lib r = arbTxHash ->
      raw_proof rawResult = Some proof ->
      raw_nodeInfo rawResult = Some ni ->
      l1TxHash ni = Some l1 ->
      ~ logInclusion lib (raw_val rawResult) proof ->
      getMessageResult lib env id st =
        (Throw (JsError "Failed to prove val is in logPostHash"),
         log_request (ReqClientGetMessageResult arbTxHash) st1))
  /\ (forall (id : string) (st st1 : State) (arbTxHash : string)
             (rawResult : RawResult lib) (r : Result lib) (proof : AVMProof)
             (ni : NodeInfo),
      getMessageResult_arbTxHash lib env id st = (Ok (Some arbTxHash), st1) ->
      client_getMessageResult env arbTxHash = Ok (Some rawResult) ->
      Result_fromValue lib (raw_val rawResult) = Ok r ->
      incoming_messageID lib r = arbTxHash ->
      raw_proof rawResult = Some proof ->
      raw_nodeInfo rawResult = Some ni ->
      l1TxHash ni = None ->
      getMessageResult lib env id st =
        (Ok (Some {| result := r; txHash := arbTxHash; nodeInfo := Some ni |}),
         log_request (ReqClientGetMessageResult arbTxHash) st1)).
Proof.
  split; [exact processLogsProof_iff |]. split.
  - intros id st st1 arb raw r proof ni l1 H1 H2 Hr Hid Hp Hni Hl1 Hno.
    rewrite (getMessageResult_found lib env _ _ _ _ _ H1 H2).
    unfold getMessageResult_check. monad_unfold.
    rewrite Hr, Hid, String.eqb_refl, Hp, Hni, Hl1. simpl.
    destruct (processLogsProof lib (raw_val raw) proof) eqn:E.
    + apply processLogsProof_iff in E. contradiction.
    + reflexivity.
  - intros id st st1 arb raw r proof ni H1 H2 Hr Hid Hp Hni Hl1.
    rewrite (getMessageResult_found lib env _ _ _ _ _ H1 H2).
    unfold getMessageResult_check. monad_unfold.
    rewrite Hr, Hid, String.eqb_refl, Hp, Hni, Hl1. simpl.
    reflexivity.
Qed.

End Verification.

(** ** Padding a message number *)

Section Padding.

Lemma hexlen_step (s : nat) :
  ((S (S (S (S s))) + 3) / 4 = S ((s + 3) / 4))%nat.
Proof.
  replace (S (S (S (S s))) + 3)%nat with (1 * 4 + (s + 3))%nat by lia.
  rewrite Nat.div_add_l by lia. reflexivity.
Qed.

(** Induction on a positive number by the number of its bits. *)
Lemma pos_size_ind (P : positive -> Prop) :
  (forall p, (forall q, (Pos.size_nat q < Pos.size_nat p)%nat -> P q) -> P p) ->
  forall p, P p.
Proof.
  intros H p. remember (Pos.size_nat p) as n eqn:Hn. revert p Hn.
  induction n as [n IH] using lt_wf_ind. intros p ->.
  apply H. intros q Hq. exact (IH _ Hq q eq_refl).
Qed.

Lemma of_pos_length (p : positive) : forall rest : string,
  String.length (HexString.Raw.of_pos p rest)
  = (hexlen p + String.length rest)%nat.
Proof.
  induction p as [p IH] using pos_size_ind. intros rest. unfold hexlen.
  do 4 try destruct p as [p | p |]; try reflexivity;
    cbn [HexString.Raw.of_pos Pos.size_nat];
    (rewrite IH by (cbn [Pos.size_nat]; lia));
    rewrite hexlen_step; unfold hexlen;
    cbn [String.length]; rewrite Nat.add_succ_r; reflexivity.
Qed.

Lemma of_pos_all_hex (p : positive) : forall rest : string,
  all_hex rest = true -> all_hex (HexString.Raw.of_pos p rest) = true.
Proof.
  induction p as [p IH] using pos_size_ind. intros rest H.
  do 4 try destruct p as [p | p |]; try (cbn; exact H);
    cbn [HexString.Raw.of_pos];
    (apply IH; [cbn [Pos.size_nat]; lia | cbn; exact H]).
Qed.

Lemma size_nat_bound (p : positive) : forall k : nat,
  Zpos p < 2 ^ Z.of_nat k -> (Pos.size_nat p <= k)%nat.
Proof.
  induction p as [p IH | p IH |]; intros k Hk; simpl.
  - destruct k as [| k]; [simpl in Hk; lia |].
    rewrite Nat2Z.inj_succ, Z.pow_succ_r in Hk by lia.
    apply le_n_S, IH. lia.
  - destruct k as [| k]; [simpl in Hk; lia |].
    rewrite Nat2Z.inj_succ, Z.pow_succ_r in Hk by lia.
    apply le_n_S, IH. lia.
  - destruct k as [| k]; [simpl in Hk; lia | lia].
Qed.

Lemma hex_digits_length (n : Z) :
  0 <= n < 2 ^ 256 -> (1 <= String.length (hex_digits n) <= 64)%nat.
Proof.
  intros [H0 H1]. destruct n as [| p | p]; [simpl; lia | | lia].
  unfold hex_digits. rewrite of_pos_length. cbn [String.length].
  pose proof (size_nat_bound p 256 H1) as Hs. unfold hexlen.
  assert (1 <= Pos.size_nat p)%nat by (destruct p; simpl; lia).
  split.
  - rewrite Nat.add_0_r. apply (Nat.div_le_lower_bound _ 4 1); lia.
  - rewrite Nat.add_0_r. apply Nat.lt_succ_r.
    apply Nat.Div0.div_lt_upper_bound. lia.
Qed.

Lemma hex_digits_all_hex (n : Z) : all_hex (hex_digits n) = true.
Proof.
  destruct n; try reflexivity. apply of_pos_all_hex. reflexivity.
Qed.

Lemma zeros_snoc (k : nat) (s : string) :
  zeros k ++ String "0" s = zeros (S k) ++ s.
Proof.
  induction k as [| k IH]; [reflexivity |].
  cbn [zeros append]. rewrite IH. reflexivity.
Qed.

Lemma hexZeroPad_loop_zeros (k : nat) : forall d : string,
  hexZeroPad_loop k ("0x" ++ d) = "0x" ++ zeros k ++ d.
Proof.
  induction k as [| k IH]; intros d; [reflexivity |].
  cbn [hexZeroPad_loop]. change (substring2 ("0x" ++ d)) with d.
  change ("0x0" ++ d) with ("0x" ++ String "0" d).
  rewrite IH. cbn [append]. do 2 f_equal. apply zeros_snoc.
Qed.

Lemma string_length_append (a b : string) :
  String.length (a ++ b) = (String.length a + String.length b)%nat.
Proof. induction a; simpl; auto. Qed.

(** On a message number that fits in 32 bytes, the code's
    [hexZeroPad(messageNum.toHexString(), 32)] is the spec's left padding. *)
Lemma hexZeroPad_toHexString (n : Z) :
  0 <= n < 2 ^ 256 -> hexZeroPad (toHexString n) 32 = Ok (leftPad32 n).
Proof.
  intros Hn. pose proof (hex_digits_length n Hn) as Hlen.
  pose proof (hex_digits_all_hex n) as Hhex.
  unfold toHexString, leftPad32.
  rewrite Z.abs_eq by lia.
  destruct (Z.ltb_spec n 0) as [Hneg | _]; [lia |].
  set (d := hex_digits n) in *.
  destruct (Nat.even (String.length d)) eqn:Hev.
  - unfold hexZeroPad.
    change (isHexString ("0x" ++ d)) with (all_hex d). rewrite Hhex.
    rewrite hexZeroPad_loop_zeros. reflexivity.
  - unfold hexZeroPad.
    change (isHexString ("0x0" ++ d)) with (all_hex (String "0" d)).
    cbn [all_hex]. rewrite Hhex.
    change (is_hex_digit "0" && true) with true. cbv iota.
    change ("0x0" ++ d) with ("0x" ++ String "0" d).
    rewrite hexZeroPad_loop_zeros, zeros_snoc.
    assert (Hodd : String.length d <> 64%nat).
    { intros E. rewrite E in Hev. discriminate. }
    replace (S (2 * 32 + 2 - String.length ("0x" ++ String "0" d)))
      with (64 - String.length d)%nat; [reflexivity |].
    cbn [append String.length]. lia.
Qed.

Lemma hexZeroPad_loop_nonempty (k : nat) : forall v : string,
  v <> "" -> hexZeroPad_loop k v <> "".
Proof.
  induction k as [| k IH]; intros v Hv; [exact Hv |].
  cbn [hexZeroPad_loop]. apply IH. discriminate.
Qed.

Lemma hexZeroPad_nonempty (v : string) (k : nat) (r : string) :
  hexZeroPad v k = Ok r -> r <> "".
Proof.
  unfold hexZeroPad. destruct (isHexString v) eqn:E; [| discriminate].
  intros H; inversion H; subst. apply hexZeroPad_loop_nonempty.
  destruct v; [discriminate | discriminate].
Qed.

End Padding.

(** ** From a base-chain receipt to the rollup message id *)

Section Delivery.

Variable lib : Lib.
Variable env : Env lib.

Lemma isDelivery_false (log : LogDescription.t) :
  isDelivery (Some log) = false ->
  (LogDescription.name log =? TransactionMessageDelivered)%string = false
  /\ isDeposit (LogDescription.name log) = false.
Proof. unfold isDelivery. apply orb_false_iff. Qed.

Lemma getArbTxId_loop_skip (pre rest : list (option LogDescription.t))
    (st : State) :
  noDelivery pre = true ->
  getArbTxId_loop lib env (pre ++ rest) st = getArbTxId_loop lib env rest st.
Proof.
  induction pre as [| [log |] pre IH]; intros H; [reflexivity | |].
  - cbn [noDelivery forallb] in H. apply andb_prop in H. destruct H as [H1 H2].
    apply negb_true_iff, isDelivery_false in H1. destruct H1 as [Ht Hd].
    cbn [app getArbTxId_loop]. rewrite Ht, Hd. apply IH, H2.
  - cbn [noDelivery forallb] in H. apply andb_prop in H. destruct H as [_ H2].
    cbn [app getArbTxId_loop]. apply IH, H2.
Qed.

Lemma getArbTxId_loop_none (logs : list (option LogDescription.t))
    (st : State) :
  noDelivery logs = true -> getArbTxId_loop lib env logs st = (Ok None, st).
Proof.
  intros H. rewrite <- (app_nil_r logs), (getArbTxId_loop_skip _ _ _ H).
  reflexivity.
Qed.

Lemma getArbTxId_loop_None_inv (logs : list (option LogDescription.t)) :
  forall st st' : State,
  getArbTxId_loop lib env logs st = (Ok None, st') ->
  noDelivery logs = true /\ st' = st.
Proof.
  induction logs as [| [log |] logs IH]; intros st st' H.
  - inversion H. auto.
  - cbn [getArbTxId_loop] in H. cbn [noDelivery forallb isDelivery].
    destruct (LogDescription.name log =? TransactionMessageDelivered)%string.
    + monad_unfold. destruct (getVmID lib env st) as [[v | e] s1];
        discriminate.
    + destruct (isDeposit (LogDescription.name log)).
      * monad_unfold.
        destruct (hexZeroPad _ 32); discriminate.
      * simpl. apply IH, H.
  - cbn [getArbTxId_loop] in H. cbn [noDelivery forallb isDelivery]. simpl.
    apply IH, H.
Qed.

Lemma isDeposit_not_transaction (name : string) :
  isDeposit name = true ->
  (name =? TransactionMessageDelivered)%string = false.
Proof.
  unfold isDeposit. intros H.
  apply orb_true_iff in H. destruct H as [H | H];
    [apply orb_true_iff in H; destruct H as [H | H] |];
    apply String.eqb_eq in H; subst; reflexivity.
Qed.

(** C5, amended: when the first message-delivery event among the decoded
    logs of a receipt, in log order, is a deposit event (ETH, ERC-20 or
    ERC-721) whose message number fits in 32 bytes, the resolved rollup id
    is that number left-padded to 32 bytes, so that 7 gives [0x00..07]; when
    the first one is a transaction-delivery event, the id is
    [calculateTransactionHash] of the chain id and the event's destination,
    sender, sequence number, value and payload. *)
Theorem first_delivery_event_decides
    (receipt : Receipt.t) (logs : list Log.t)
    (pre post : list (option LogDescription.t)) (log : LogDescription.t)
    (globalInbox : string) (st st1 : State) :
  Receipt.logs receipt = Some logs ->
  map (globalInbox_parseLog env) logs = (pre ++ Some log :: post)%list ->
  noDelivery pre = true ->
  globalInboxConn lib env st = (Ok globalInbox, st1) ->
  let v := LogDescription.values log in
  (isDeposit (LogDescription.name log) = true ->
   0 <= LogValues.messageNum v < 2 ^ 256 ->
   getArbTxId lib env receipt st
   = (Ok (Some (leftPad32 (LogValues.messageNum v))), st1))
  /\ (LogDescription.name log = TransactionMessageDelivered ->
      forall (vmId : string) (st2 : State),
      getVmID lib env st1 = (Ok vmId, st2) ->
      getArbTxId lib env receipt st
      = (Ok (Some (calculateTransactionHash lib vmId
                     (LogValues.to v) (LogValues.from v)
                     (LogValues.seqNumber v) (LogValues.value v)
                     (LogValues.data v))), st2))
  /\ leftPad32 7
     = "0x0000000000000000000000000000000000000000000000000000000000000007".
Proof.
  intros Hlogs Hmap Hpre Hconn v.
  assert (Hstart : getArbTxId lib env receipt st
                   = getArbTxId_loop lib env (Some log :: post) st1).
  { unfold getArbTxId. unfold bind at 1. rewrite Hconn, Hlogs, Hmap.
    apply getArbTxId_loop_skip, Hpre. }
  split; [| split].
  - intros Hdep Hnum. rewrite Hstart. cbn [getArbTxId_loop].
    rewrite (isDeposit_not_transaction _ Hdep), Hdep.
    unfold bind, lift, ret. fold v.
    rewrite (hexZeroPad_toHexString _ Hnum). reflexivity.
  - intros Hname vmId st2 Hvm. rewrite Hstart. cbn [getArbTxId_loop].
    rewrite Hname, String.eqb_refl. unfold bind, ret. rewrite Hvm.
    reflexivity.
  - reflexivity.
Qed.

Hypothesis calculateTransactionHash_nonempty :
  forall chain to from seqNumber value data,
    calculateTransactionHash lib chain to from seqNumber value data <> "".

Lemma getArbTxId_loop_Some_nonempty (logs : list (option LogDescription.t)) :
  forall (st st' : State) (id : string),
  getArbTxId_loop lib env logs st = (Ok (Some id), st') -> id <> "".
Proof.
  induction logs as [| [log |] logs IH]; intros st st' id H.
  - inversion H.
  - cbn [getArbTxId_loop] in H.
    destruct (LogDescription.name log =? TransactionMessageDelivered)%string.
    + monad_unfold. destruct (getVmID lib env st) as [[v | e] s1];
        [| discriminate].
      inversion H. apply calculateTransactionHash_nonempty.
    + destruct (isDeposit (LogDescription.name log)).
      * monad_unfold.
        destruct (hexZeroPad _ 32) as [r | e] eqn:E; [| discriminate].
        inversion H; subst. eapply hexZeroPad_nonempty, E.
      * eapply IH, H.
  - cbn [getArbTxId_loop] in H. eapply IH, H.
Qed.

(** The early [return null] of [getMessageResult]: a receipt exists and
    its logs hold no message-delivery event. *)
Lemma getMessageResult_arbTxHash_None (id : string) (st st' : State) :
  getMessageResult_arbTxHash lib env id st = (Ok None, st') <->
  exists receipt globalInbox,
    ethProvider_getTransactionReceipt env id = Ok (Some receipt)
    /\ globalInboxConn lib env (log_request (ReqEthGetTransactionReceipt id) st)
       = (Ok globalInbox, st')
    /\ receiptHasNoDelivery (globalInbox_parseLog env) receipt = true.
Proof.
  unfold getMessageResult_arbTxHash, getArbTxId, receiptHasNoDelivery.
  unfold bind at 1, await at 1. split.
  - destruct (ethProvider_getTransactionReceipt env id) as [[rc |] | e];
      try discriminate.
    unfold bind at 1 2.
    destruct (globalInboxConn lib env
                (log_request (ReqEthGetTransactionReceipt id) st))
      as [[gi | e] s1]; [| discriminate].
    destruct (Receipt.logs rc) as [logs |] eqn:Hlogs.
    + destruct (getArbTxId_loop lib env (map (globalInbox_parseLog env) logs) s1)
        as [[[a |] | e] s2] eqn:Hloop; try discriminate.
      * pose proof (getArbTxId_loop_Some_nonempty _ _ _ _ Hloop) as Hne.
        unfold truthy_ostring, truthy_string, ret.
        destruct (String.eqb_spec a "") as [E | N]; [contradiction |].
        simpl. discriminate.
      * apply getArbTxId_loop_None_inv in Hloop. destruct Hloop as [Hn ->].
        simpl. unfold ret. intros H; inversion H; subst.
        exists rc, gi. rewrite Hlogs. auto.
    + simpl. unfold ret. intros H; inversion H; subst. exists rc, gi.
      rewrite Hlogs. auto.
  - intros (rc & gi & Hr & Hg & Hn). rewrite Hr. unfold bind at 1 2.
    rewrite Hg. destruct (Receipt.logs rc) as [logs |].
    + rewrite (getArbTxId_loop_none _ _ Hn). reflexivity.
    + reflexivity.
Qed.

(** C8: [getMessageResult] returns [null] in two cases and no other: a
    base-chain receipt exists for the identifier and its logs hold none of
    the four message-delivery events, or the validator has no raw result
    for the rollup id the identifier resolved to. *)
Theorem not_found_exactly_two_cases (id : string) (st st' : State) :
  getMessageResult lib env id st = (Ok None, st') <->
  (exists receipt globalInbox,
      ethProvider_getTransactionReceipt env id = Ok (Some receipt)
      /\ globalInboxConn lib env
           (log_request (ReqEthGetTransactionReceipt id) st)
         = (Ok globalInbox, st')
      /\ receiptHasNoDelivery (globalInbox_parseLog env) receipt = true)
  \/ (exists arbTxHash st1,
      getMessageResult_arbTxHash lib env id st = (Ok (Some arbTxHash), st1)
      /\ client_getMessageResult env arbTxHash = Ok None
      /\ st' = log_request (ReqClientGetMessageResult arbTxHash) st1).
Proof.
  rewrite <- getMessageResult_arbTxHash_None.
  unfold getMessageResult. unfold bind at 1. split.
  - destruct (getMessageResult_arbTxHash lib env id st)
      as [[[arb |] | e] st1] eqn:Hres; try discriminate.
    + unfold bind at 1, await at 1.
      destruct (client_getMessageResult env arb) as [[raw |] | e] eqn:Hraw;
        try discriminate.
      * unfold bind at 1.
        destruct (getMessageResult_check lib env arb raw _) as [[m | e] s2];
          discriminate.
      * unfold ret. intros H; inversion H; subst. right.
        exists arb, st1. auto.
    + unfold ret. intros H; inversion H; subst. left. reflexivity.
  - intros [H | (arb & st1 & H1 & H2 & ->)].
    + rewrite H. reflexivity.
    + rewrite H1. unfold bind at 1, await at 1. rewrite H2. reflexivity.
Qed.

End Delivery.

(** ** What a method leaves alone *)

Section Frames.

Context {X : Type} (obs : State -> X).

Lemma keepsObs_ret {A} (a : A) : keepsObs obs (ret a).
Proof. intros st r st' H; inversion H; reflexivity. Qed.

Lemma keepsObs_throw {A} (e : Error) : keepsObs obs (@throw A e).
Proof. intros st r st' H; inversion H; reflexivity. Qed.

Lemma keepsObs_lift {A} (x : res A) : keepsObs obs (lift x).
Proof. intros st r st' H; inversion H; reflexivity. Qed.

Lemma keepsObs_await {A} (q : Request) (x : res A) :
  (forall st, obs (log_request q st) = obs st) -> keepsObs obs (await q x).
Proof. intros Hq st r st' H; inversion H; apply Hq. Qed.

Lemma keepsObs_fire (q : Request) :
  (forall st, obs (log_request q st) = obs st) -> keepsObs obs (fire q).
Proof. intros Hq st r st' H; inversion H; apply Hq. Qed.

Lemma keepsObs_modify (f : State -> State) :
  (forall st, obs (f st) = obs st) -> keepsObs obs (modify f).
Proof. intros Hf st r st' H; inversion H; apply Hf. Qed.

Lemma keepsObs_bind {A B} (m : M A) (k : A -> M B) :
  keepsObs obs m -> (forall a, keepsObs obs (k a)) ->
  keepsObs obs (bind m k).
Proof.
  intros Hm Hk st r st' H. unfold bind in H.
  destruct (m st) as [[a | e] s1] eqn:E.
  - rewrite (Hk a _ _ _ H). eapply Hm, E.
  - inversion H; subst. eapply Hm, E.
Qed.

Lemma keepsObs_get_bind {B} (k : State -> M B) :
  (forall s, keepsObs obs (k s)) -> keepsObs obs (bind get k).
Proof. intros Hk st r st' H. exact (Hk st _ _ _ H). Qed.

Lemma keepsObs_try_catch {A} (body : M A) (handler : Error -> M A) :
  keepsObs obs body -> (forall e, keepsObs obs (handler e)) ->
  keepsObs obs (try_catch body handler).
Proof.
  intros Hb Hh st r st' H. unfold try_catch in H.
  destruct (body st) as [[a | e] s1] eqn:E.
  - inversion H; subst. eapply Hb, E.
  - rewrite (Hh e _ _ _ H). eapply Hb, E.
Qed.

End Frames.

Ltac keepsObs_step :=
  match goal with
  | |- keepsObs _ (ret _) => apply keepsObs_ret
  | |- keepsObs _ (throw _) => apply keepsObs_throw
  | |- keepsObs _ (lift _) => apply keepsObs_lift
  | |- keepsObs _ (await _ _) => apply keepsObs_await; intros; reflexivity
  | |- keepsObs _ (fire _) => apply keepsObs_fire; intros; reflexivity
  | |- keepsObs _ (modify _) => apply keepsObs_modify; intros; reflexivity
  | |- keepsObs _ (bind get _) => apply keepsObs_get_bind; intros
  | |- keepsObs _ (bind _ _) => apply keepsObs_bind; [| intros]
  | |- keepsObs _ (try_catch _ _) => apply keepsObs_try_catch; [| intros]
  | |- keepsObs _ (match ?c with _ => _ end) => destruct c
  | H : keepsObs ?o ?m |- keepsObs ?o ?m => exact H
  end.

Ltac keepsObs_all := repeat keepsObs_step.

(** ** Submitting a transaction *)

Section Submission.

Variable lib : Lib.
Variable env : Env lib.

(** Frame lemmas: what keeps [seqCache]. *)
Lemma keeps_ret {A} (a : A) : keepsSeqCache (ret a).
Proof. intros st r st' H; inversion H; reflexivity. Qed.

Lemma keeps_throw {A} (e : Error) : keepsSeqCache (@throw A e).
Proof. intros st r st' H; inversion H; reflexivity. Qed.

Lemma keeps_lift {A} (x : res A) : keepsSeqCache (lift x).
Proof. intros st r st' H; inversion H; reflexivity. Qed.

Lemma keeps_await {A} (q : Request) (x : res A) : keepsSeqCache (await q x).
Proof. intros st r st' H; inversion H; reflexivity. Qed.

Lemma keeps_fire (q : Request) : keepsSeqCache (fire q).
Proof. intros st r st' H; inversion H; reflexivity. Qed.

Lemma keeps_modify (f : State -> State) :
  (forall st, seqCache (f st) = seqCache st) -> keepsSeqCache (modify f).
Proof. intros Hf st r st' H; inversion H; apply Hf. Qed.

Lemma keeps_bind {A B} (m : M A) (k : A -> M B) :
  keepsSeqCache m -> (forall a, keepsSeqCache (k a)) ->
  keepsSeqCache (bind m k).
Proof.
  intros Hm Hk st r st' H. unfold bind in H.
  destruct (m st) as [[a | e] s1] eqn:E.
  - rewrite (Hk a _ _ _ H). eapply Hm, E.
  - inversion H; subst. eapply Hm, E.
Qed.

Lemma keeps_get_bind {B} (k : State -> M B) :
  (forall s, keepsSeqCache (k s)) -> keepsSeqCache (bind get k).
Proof. intros Hk st r st' H. exact (Hk st _ _ _ H). Qed.

Ltac keeps_step :=
  match goal with
  | |- keepsSeqCache (ret _) => apply keeps_ret
  | |- keepsSeqCache (throw _) => apply keeps_throw
  | |- keepsSeqCache (lift _) => apply keeps_lift
  | |- keepsSeqCache (await _ _) => apply keeps_await
  | |- keepsSeqCache (fire _) => apply keeps_fire
  | |- keepsSeqCache (modify _) => apply keeps_modify; intros; reflexivity
  | |- keepsSeqCache (bind get _) => apply keeps_get_bind; intros
  | |- keepsSeqCache (bind _ _) => apply keeps_bind; [| intros]
  | |- keepsSeqCache (match ?c with _ => _ end) => destruct c
  | H : keepsSeqCache ?m |- keepsSeqCache ?m => exact H
  end.

Ltac keeps := repeat keeps_step.

Lemma arbRollupConn_keeps : keepsSeqCache (arbRollupConn lib env).
Proof. unfold arbRollupConn. keeps. Qed.

Lemma globalInboxConn_keeps : keepsSeqCache (globalInboxConn lib env).
Proof.
  pose proof arbRollupConn_keeps. unfold globalInboxConn. keeps.
Qed.

Lemma getVmID_keeps : keepsSeqCache (getVmID lib env).
Proof. unfold getVmID. keeps. Qed.

Lemma getAddress_keeps : keepsSeqCache (getAddress lib env).
Proof. unfold getAddress. keeps. Qed.

Lemma wallet_globalInboxConn_keeps :
  keepsSeqCache (wallet_globalInboxConn lib env).
Proof.
  pose proof globalInboxConn_keeps. unfold wallet_globalInboxConn. keeps.
Qed.

Lemma sendTransactionMessage_try_keeps
    (l2tx : L2Transaction lib) (vmId from : string) :
  keepsSeqCache (sendTransactionMessage_try lib env l2tx vmId from).
Proof.
  pose proof wallet_globalInboxConn_keeps.
  unfold sendTransactionMessage_try, sendTransactionMessage_aggregator,
    sendTransactionMessage_inbox.
  keeps.
Qed.

(** What a successful reservation did: it came from the cache, or from
    the on-chain count; either way the cache holds what it returned plus
    one, as numbers add. *)
Lemma generateAndIncrementSeq_Ok (st st1 : State) (seq : Z) :
  generateAndIncrementSeq lib env st = (Ok seq, st1) ->
  seqCache st1 = Some (number_add seq 1)
  /\ ((seqCache st = Some seq /\ seq <> 0)
      \/ (truthy_onumber (seqCache st) = false
          /\ exists address,
               signer_getAddress env = Ok address
               /\ arbSys_getTransactionCount env address = Ok seq)).
Proof.
  unfold generateAndIncrementSeq, getAddress, perform_getTransactionCount.
  monad_unfold.
  destruct (truthy_onumber (seqCache st)) eqn:Ht; simpl.
  - destruct (seqCache st) as [s |] eqn:Hs; [| discriminate].
    intros H; inversion H; subst. split; [reflexivity |]. left.
    split; [reflexivity |]. simpl in Ht.
    destruct (Z.eqb_spec seq 0); [discriminate | assumption].
  - destruct (signer_getAddress env) as [a | e]; [| discriminate].
    destruct (arbSys_getTransactionCount env a) as [c | e] eqn:Hc;
      [| discriminate].
    intros H; inversion H; subst. split; [reflexivity |]. right.
    split; [reflexivity |]. exists a. auto.
Qed.

(** A failure before the dispatch starts ([getVmID] here) is outside the
    [try] block: the error leaves with the reservation still in place. *)
Lemma failure_before_dispatch_keeps_reservation
    (l2tx : L2Transaction lib) (st st' : State) (e : Error) :
  getVmID lib env st = (Throw e, st') ->
  sendTransactionMessage lib env l2tx st = (Throw e, st')
  /\ seqCache st' = seqCache st.
Proof.
  intros H. split.
  - unfold sendTransactionMessage. unfold bind at 1. rewrite H. reflexivity.
  - eapply getVmID_keeps, H.
Qed.


(** [sendTransaction] once the gas fields are there and the reservation
    is made. *)
Lemma sendTransaction_reserved
    (transaction : TransactionRequest.t) (gasLimit gasPrice : BigNumberish)
    (st st1 : State) (seq : Z) :
  TransactionRequest.gasLimit transaction = Some gasLimit ->
  truthy_BigNumberish (Some gasLimit) = true ->
  TransactionRequest.gasPrice transaction = Some gasPrice ->
  truthy_BigNumberish (Some gasPrice) = true ->
  generateAndIncrementSeq lib env st = (Ok seq, st1) ->
  sendTransaction lib env transaction st
  = (tx <- lift (new_L2Transaction lib gasLimit gasPrice seq
                   (TransactionRequest.to transaction)
                   (TransactionRequest.value transaction)
                   (TransactionRequest.data transaction)) ;;
     sendTransactionMessage lib env tx) st1.
Proof.
  intros Hgl Hglt Hgp Hgpt Hres.
  unfold sendTransaction. rewrite Hgl, Hglt, Hgp, Hgpt. cbn [negb].
  unfold bind at 1. rewrite Hres. reflexivity.
Qed.

(** A failure between the reservation and the [try] block: the error
    leaves [sendTransaction] with the counter where the reservation put
    it. *)
Lemma failure_before_dispatch
    (transaction : TransactionRequest.t) (gasLimit gasPrice : BigNumberish)
    (st st1 : State) (seq : Z) (e : Error) :
  TransactionRequest.gasLimit transaction = Some gasLimit ->
  truthy_BigNumberish (Some gasLimit) = true ->
  TransactionRequest.gasPrice transaction = Some gasPrice ->
  truthy_BigNumberish (Some gasPrice) = true ->
  generateAndIncrementSeq lib env st = (Ok seq, st1) ->
  let made :=
    new_L2Transaction lib gasLimit gasPrice seq
      (TransactionRequest.to transaction)
      (TransactionRequest.value transaction)
      (TransactionRequest.data transaction) in
  (made = Throw e
   \/ (exists l2tx, made = Ok l2tx /\ fst (getVmID lib env st1) = Throw e)
   \/ (exists l2tx vmId st2,
         made = Ok l2tx /\ getVmID lib env st1 = (Ok vmId, st2)
         /\ fst (getAddress lib env st2) = Throw e)) ->
  exists st',
    sendTransaction lib env transaction st = (Throw e, st')
    /\ seqCache st' = seqCache st1.
Proof.
  intros Hgl Hglt Hgp Hgpt Hres made Hfail.
  rewrite (sendTransaction_reserved _ _ _ _ _ _ Hgl Hglt Hgp Hgpt Hres).
  fold made.
  destruct Hfail
    as [Hm | [(l2tx & Hm & Hvm) | (l2tx & vmId & st2 & Hm & Hvm & Ha)]].
  - exists st1. unfold bind, lift. rewrite Hm. auto.
  - destruct (getVmID lib env st1) as [r st2] eqn:Hg. simpl in Hvm. subst r.
    exists st2. unfold bind at 1, lift at 1. rewrite Hm.
    unfold sendTransactionMessage. unfold bind at 1. rewrite Hg.
    split; [reflexivity |]. exact (getVmID_keeps _ _ _ Hg).
  - destruct (getAddress lib env st2) as [r st3] eqn:Hg. simpl in Ha. subst r.
    exists st3. unfold bind at 1, lift at 1. rewrite Hm.
    unfold sendTransactionMessage. unfold bind at 1. rewrite Hvm.
    unfold bind at 1. rewrite Hg. split; [reflexivity |].
    rewrite (getAddress_keeps _ _ _ Hg). exact (getVmID_keeps _ _ _ Hvm).
Qed.



(** [sendTransaction] without a gas limit, or without a gas price, throws
    before anything else happens: the state is the one it started from. *)
Lemma sendTransaction_requires_gas
    (transaction : TransactionRequest.t) (st : State) :
  (TransactionRequest.gasLimit transaction = None ->
   sendTransaction lib env transaction st
   = (Throw (JsError "must specify gas limit"), st))
  /\ (truthy_BigNumberish (TransactionRequest.gasLimit transaction) = true ->
      TransactionRequest.gasPrice transaction = None ->
      sendTransaction lib env transaction st
      = (Throw (JsError "must specify gas price"), st)).
Proof.
  unfold sendTransaction. split.
  - intros H. rewrite H. reflexivity.
  - intros H1 H2. rewrite H1, H2. reflexivity.
Qed.

(** [call] with a truthy block tag other than ['pending'] and ['latest']
    throws ['Invalid block tag'] without asking the validator. *)
Lemma call_rejects_other_tags
    (transaction : TransactionRequest.t) (tag : BlockTag) (tx : L2Call lib)
    (st : State) :
  new_L2Call lib (TransactionRequest.gasLimit transaction)
    (TransactionRequest.gasPrice transaction)
    (TransactionRequest.to transaction)
    (TransactionRequest.data transaction) = Ok tx ->
  truthy_BlockTag (Some tag) = true ->
  tag_eq tag "pending" = false -> tag_eq tag "latest" = false ->
  call lib env transaction (Some tag) st
  = (Throw (JsError "Invalid block tag"), st).
Proof.
  intros Hnew Ht Hp Hl. unfold call. unfold bind at 1, lift at 1.
  rewrite Hnew, Ht, Hp, Hl. reflexivity.
Qed.

(** C9: the block tag [0] (a number) is falsy, so [call] takes it for an
    omitted tag and answers with [callLatest] where ['Invalid block tag']
    was to be thrown; on the small instance the call with tag [0] returns
    data while the call with tag [5] throws. *)
Theorem call_blockTag_zero_is_latest :
  (forall (transaction : TransactionRequest.t) (st : State),
      call lib env transaction (Some (TagNumber 0)) st
      = call lib env transaction None st)
  /\ fst (call Demo.lib Demo.quiet Demo.request (Some (TagNumber 0)) initial)
     = Ok "0x2a"
  /\ fst (call Demo.lib Demo.quiet Demo.request (Some (TagNumber 5)) initial)
     = Throw (JsError "Invalid block tag").
Proof.
  split; [| split].
  - intros transaction st. unfold call.
    change (truthy_BlockTag (Some (TagNumber 0))) with false.
    reflexivity.
  - reflexivity.
  - reflexivity.
Qed.

(** The chain's address, once [getVmID] has returned it, is what
    [getVmID] returns from every state with the same [vmIdCache]. *)
Lemma getVmID_again (st st1 : State) (vmId : string) :
  getVmID lib env st = (Ok vmId, st1) ->
  forall s : State, vmIdCache s = vmIdCache st1 ->
  exists s1, getVmID lib env s = (Ok vmId, s1).
Proof.
  unfold getVmID. monad_unfold.
  destruct (truthy_ostring (vmIdCache st)) eqn:Ht; cbn [negb].
  - destruct (vmIdCache st) as [v |] eqn:Hv; [| discriminate Ht].
    intros H s Hs; inversion H; subst. rewrite Hs, Hv, Ht. cbn [negb].
    eauto.
  - destruct (client_getVmID env) as [v | e] eqn:Hc; [| discriminate].
    cbn [vmIdCache log_request]. rewrite Ht. cbn [negb].
    intros H s Hs; inversion H; subst. cbn [vmIdCache set_vmIdCache] in Hs.
    rewrite Hs. cbn [truthy_ostring].
    destruct (truthy_string vmId) eqn:Hv; cbn [negb].
    + eauto.
    + rewrite Hs. cbn [truthy_ostring]. rewrite Hv. cbn [negb]. eauto.
Qed.

Lemma connections_keep_vmIdCache :
  keepsObs vmIdCache (globalInboxConn lib env)
  /\ keepsObs vmIdCache (wallet_globalInboxConn lib env)
  /\ keepsObs vmIdCache (getAddress lib env).
Proof.
  assert (Hg : keepsObs vmIdCache (globalInboxConn lib env))
    by (unfold globalInboxConn, arbRollupConn; keepsObs_all).
  split; [exact Hg |]. split.
  - unfold wallet_globalInboxConn. keepsObs_all.
  - unfold getAddress. keepsObs_all.
Qed.

(** A successful dispatch on the aggregator path returns a handle whose
    hash is the message id computed from [l2tx] and the sender. *)
Lemma aggregator_handle (agg : AggregatorClient) (l2tx : L2Transaction lib)
    (st st1 st2 st' : State) (vmId from : string) (handle : Transaction.t) :
  aggregator env = Some agg ->
  getVmID lib env st = (Ok vmId, st1) ->
  getAddress lib env st1 = (Ok from, st2) ->
  sendTransactionMessage lib env l2tx st = (Ok handle, st') ->
  Transaction.hash handle = Some (messageID lib l2tx from).
Proof.
  intros Hagg Hvm Haddr.
  unfold sendTransactionMessage. unfold bind at 1. rewrite Hvm.
  unfold bind at 1. rewrite Haddr. unfold try_catch.
  destruct (sendTransactionMessage_try lib env l2tx vmId from st2)
    as [[h | e] s3] eqn:Htry.
  - intros H; inversion H; subst. revert Htry.
    unfold sendTransactionMessage_try. rewrite Hagg.
    unfold sendTransactionMessage_aggregator.
    unfold bind at 1, await at 1.
    destruct (signer_signMessage env _) as [sig | e]; [| discriminate].
    unfold bind at 1. unfold get at 1. unfold bind at 1.
    match goal with
    | |- context [(if ?c then _ else _)] => destruct c
    end.
    + unfold bind at 1, lift at 1.
      destruct (recoverPublicKey lib _ sig) as [pk | e]; [| discriminate].
      unfold bind, modify, ret, fire, lift.
      unfold _wrapTransaction.
      destruct (hexDataLength (messageID lib l2tx from)) as [[| n] |];
        try discriminate.
      do 32 (destruct n as [| n]; try discriminate).
      cbn [Transaction.hash]. rewrite String.eqb_refl.
      intros Hw; inversion Hw; reflexivity.
    + match goal with
      | |- context [match ?c with Some _ => _ | None => _ end] => destruct c
      end; unfold bind, ret, fire, lift; unfold _wrapTransaction;
      (destruct (hexDataLength (messageID lib l2tx from)) as [[| n] |];
        try discriminate;
      do 32 (destruct n as [| n]; try discriminate);
      cbn [Transaction.hash]; rewrite String.eqb_refl;
      intros Hw; inversion Hw; reflexivity).
  - unfold sendTransactionMessage_catch. monad_unfold.
    destruct (truthy_onumber (seqCache s3)); [destruct (seqCache s3) |];
      discriminate.
Qed.

(** A successful dispatch on the inbox path returns the transaction that
    [sendL2Message] returned, and leaves the chain's cached address as
    [getVmID] left it. *)
Lemma inbox_handle (l2tx : L2Transaction lib)
    (st st1 st2 st' : State) (vmId from : string) (handle : Transaction.t) :
  aggregator env = None ->
  getVmID lib env st = (Ok vmId, st1) ->
  getAddress lib env st1 = (Ok from, st2) ->
  sendTransactionMessage lib env l2tx st = (Ok handle, st') ->
  (exists globalInbox,
     globalInbox_sendL2Message env globalInbox vmId (asData lib l2tx)
     = Ok handle)
  /\ vmIdCache st' = vmIdCache st1.
Proof.
  intros Hagg Hvm Haddr.
  destruct connections_keep_vmIdCache as (_ & Hw & Ha).
  unfold sendTransactionMessage. unfold bind at 1. rewrite Hvm.
  unfold bind at 1. rewrite Haddr. unfold try_catch.
  destruct (sendTransactionMessage_try lib env l2tx vmId from st2)
    as [[h | e] s3] eqn:Htry.
  - intros H; inversion H; subst. revert Htry.
    unfold sendTransactionMessage_try. rewrite Hagg.
    unfold sendTransactionMessage_inbox. unfold bind at 1.
    destruct (wallet_globalInboxConn lib env st2) as [[gi | e] s4] eqn:Hconn;
      [| discriminate].
    unfold bind at 1, await at 1.
    destruct (globalInbox_sendL2Message env gi vmId _) as [tx | e] eqn:Hsend;
      [| discriminate].
    unfold bind, lift, ret.
    destruct (_wrapTransaction tx (Transaction.hash tx)) as [tx2 | e] eqn:Hwr;
      [| discriminate].
    intros Hret; inversion Hret; subst. split.
    + exists gi. rewrite Hsend. f_equal.
      revert Hwr. unfold _wrapTransaction.
      repeat match goal with
             | |- context [match ?c with _ => _ end] => destruct c
             end; intros Hwr; inversion Hwr; reflexivity.
    + cbn [vmIdCache log_request].
      rewrite (Hw _ _ _ Hconn). exact (Ha _ _ _ Haddr).
  - unfold sendTransactionMessage_catch. monad_unfold.
    destruct (truthy_onumber (seqCache s3)); [destruct (seqCache s3) |];
      discriminate.
Qed.

(** The id of a returned result: the queried identifier when the base
    chain has no receipt for it, and otherwise what [getArbTxId] makes of
    the receipt, in the state that the receipt's lookup left. *)
Lemma resolved_id (id : string) (st st' : State) (m : MessageResult lib) :
  getMessageResult lib env id st = (Ok (Some m), st') ->
  incoming_messageID lib (result m) = txHash m
  /\ (ethProvider_getTransactionReceipt env id = Ok None -> txHash m = id)
  /\ (forall receipt,
        ethProvider_getTransactionReceipt env id = Ok (Some receipt) ->
        exists st1,
          getArbTxId lib env receipt
            (log_request (ReqEthGetTransactionReceipt id) st)
          = (Ok (Some (txHash m)), st1)).
Proof.
  intros H.
  destruct (getMessageResult_Some lib env _ _ _ _ H)
    as (st1 & raw & Harb & _ & Hchk).
  destruct (getMessageResult_check_ok lib env _ _ _ _ _ Hchk)
    as (_ & Hid & _).
  split; [exact Hid |]. revert Harb.
  unfold getMessageResult_arbTxHash. unfold bind at 1, await at 1.
  split.
  - intros Hr. rewrite Hr in Harb. inversion Harb. reflexivity.
  - intros rc Hr. rewrite Hr in Harb. unfold bind at 1 in Harb.
    destruct (getArbTxId lib env rc _) as [[[a |] | e] s1] eqn:Hget;
      try discriminate.
    simpl in Harb.
    destruct (truthy_string a); simpl in Harb; inversion Harb; subst.
    eauto.
Qed.

(** C1, amended.  On the aggregator path the handle's hash is the locally
    computed [l2tx.messageID(from)], whatever becomes of the aggregator's
    promise, and when the base chain has no receipt for that hash the
    result it resolves to has this very hash as its recomputed id.  On the
    inbox path the handle is the base-chain transaction that
    [sendL2Message] returned for the chain and the serialized message, so
    its id is a base-chain hash; when the base chain has a receipt for it
    whose first delivery event is the delivery of the submitted message,
    a result that this hash resolves to, from any state that holds the
    chain's address as the submission left it, has as [txHash] and as
    recomputed id [calculateTransactionHash] of the chain, the
    destination, the sender, the sequence number, the value and the
    payload of the submitted message, which is [l2tx.messageID(from)]
    exactly when the two hashes agree on this message.  And every result
    that [getMessageResult] returns carries, as [txHash] and as the id
    recomputed from its envelope, the rollup id that the queried
    identifier resolved to: the identifier itself when the base chain has
    no receipt for it, the id that [getArbTxId] derives from the receipt,
    right after the receipt's lookup, otherwise. *)
Theorem handle_id_resolves :
  (forall (agg : AggregatorClient) (l2tx : L2Transaction lib)
          (st st1 st2 st' : State) (vmId from : string)
          (handle : Transaction.t),
      aggregator env = Some agg ->
      getVmID lib env st = (Ok vmId, st1) ->
      getAddress lib env st1 = (Ok from, st2) ->
      sendTransactionMessage lib env l2tx st = (Ok handle, st') ->
      Transaction.hash handle = Some (messageID lib l2tx from)
      /\ (ethProvider_getTransactionReceipt env (messageID lib l2tx from)
          = Ok None ->
          forall (st0 st3 : State) (m : MessageResult lib),
            getMessageResult lib env (messageID lib l2tx from) st0
            = (Ok (Some m), st3) ->
            incoming_messageID lib (result m) = messageID lib l2tx from))
  /\ (forall (l2tx : L2Transaction lib) (st st1 st2 st' : State)
             (vmId from : string) (handle : Transaction.t),
      aggregator env = None ->
      getVmID lib env st = (Ok vmId, st1) ->
      getAddress lib env st1 = (Ok from, st2) ->
      sendTransactionMessage lib env l2tx st = (Ok handle, st') ->
      (exists globalInbox,
         globalInbox_sendL2Message env globalInbox vmId (asData lib l2tx)
         = Ok handle)
      /\ forall (h : string) (receipt : Receipt.t) (logs : list Log.t)
                (pre post : list (option LogDescription.t))
                (log : LogDescription.t) (s s' : State)
                (m : MessageResult lib),
           Transaction.hash handle = Some h ->
           ethProvider_getTransactionReceipt env h = Ok (Some receipt) ->
           Receipt.logs receipt = Some logs ->
           map (globalInbox_parseLog env) logs
           = (pre ++ Some log :: post)%list ->
           noDelivery pre = true ->
           deliveryOf lib l2tx from log ->
           vmIdCache s = vmIdCache st' ->
           getMessageResult lib env h s = (Ok (Some m), s') ->
           let id :=
             calculateTransactionHash lib vmId (destAddress lib l2tx) from
               (sequenceNum lib l2tx) (payment lib l2tx) (calldata lib l2tx) in
           txHash m = id
           /\ incoming_messageID lib (result m) = id
           /\ (incoming_messageID lib (result m) = messageID lib l2tx from
               <-> id = messageID lib l2tx from))
  /\ (forall (id : string) (st st' : State) (m : MessageResult lib),
      getMessageResult lib env id st = (Ok (Some m), st') ->
      incoming_messageID lib (result m) = txHash m
      /\ (ethProvider_getTransactionReceipt env id = Ok None -> txHash m = id)
      /\ (forall receipt,
            ethProvider_getTransactionReceipt env id = Ok (Some receipt) ->
            exists st1,
              getArbTxId lib env receipt
                (log_request (ReqEthGetTransactionReceipt id) st)
              = (Ok (Some (txHash m)), st1))).
Proof.
  split; [| split].
  - intros agg l2tx st st1 st2 st' vmId from handle Hagg Hvm Haddr Hsend.
    split; [exact (aggregator_handle agg l2tx st st1 st2 st' vmId from handle
                     Hagg Hvm Haddr Hsend) |].
    intros Hnone st0 st3 m Hget.
    destruct (resolved_id _ _ _ _ Hget) as (Hid & Hsame & _).
    rewrite Hid. exact (Hsame Hnone).
  - intros l2tx st st1 st2 st' vmId from handle Hagg Hvm Haddr Hsend.
    destruct (inbox_handle l2tx st st1 st2 st' vmId from handle
                Hagg Hvm Haddr Hsend) as [Hsent Hcache].
    split; [exact Hsent |].
    intros h receipt logs pre post log s s' m Hh Hrc Hlogs Hmap Hpre Hdel
      Hs Hget id.
    destruct (resolved_id _ _ _ _ Hget) as (Hid & _ & Hfrom).
    destruct (Hfrom receipt Hrc) as (s1 & Harb).
    assert (Htx : txHash m = id).
    { revert Harb. unfold getArbTxId. unfold bind at 1.
      destruct (globalInboxConn lib env
                  (log_request (ReqEthGetTransactionReceipt h) s))
        as [[gi | e] sA] eqn:Hconn; [| discriminate].
      rewrite Hlogs, Hmap, (getArbTxId_loop_skip lib env _ _ _ Hpre).
      destruct Hdel as (Hname & Hto & Hfr & Hsq & Hval & Hdat).
      cbn [getArbTxId_loop]. rewrite Hname, String.eqb_refl.
      rewrite Hto, Hfr, Hsq, Hval, Hdat.
      assert (HcA : vmIdCache sA = vmIdCache st1).
      { rewrite (proj1 connections_keep_vmIdCache _ _ _ Hconn).
        cbn [vmIdCache log_request]. rewrite Hs. exact Hcache. }
      destruct (getVmID_again _ _ _ Hvm sA HcA) as (sB & HvmA).
      unfold bind, ret. rewrite HvmA.
      intros H; inversion H; reflexivity. }
    split; [exact Htx |]. split; [rewrite Hid; exact Htx |].
    rewrite Hid, Htx. reflexivity.
  - intros id st st' m H. exact (resolved_id _ _ _ _ H).
Qed.

End Submission.

(** * The properties on the small instance *)

Lemma recomputed_id_mismatch_is_fatal_witness :
  incoming_messageID Demo.lib "forged" <> "0xabc"
  /\ fst (getMessageResult Demo.lib Demo.forging "0xabc" initial)
     = Throw (JsError (mismatchMessage "0xabc" "forged")).
Proof.
  assert (N : incoming_messageID Demo.lib "forged" <> "0xabc")
    by (intro H; discriminate H).
  split; [exact N |].
  rewrite (proj1 (recomputed_id_mismatch_is_fatal Demo.lib Demo.forging)
             "0xabc" initial _ "0xabc"
             (Build_RawResult Demo.lib "forged" None None) "forged"
             eq_refl eq_refl eq_refl N).
  reflexivity.
Defined.

Lemma log_inclusion_checked_witness :
  ~ logInclusion Demo.lib Demo.messageId5 Demo.badProof
  /\ l1TxHash Demo.assertedNode = Some Demo.assertionHash
  /\ fst (getMessageResult Demo.lib
            (Demo.asserted Demo.assertedNode Demo.badProof)
            Demo.messageId5 initial)
     = Throw (JsError "Failed to prove val is in logPostHash").
Proof.
  assert (N : ~ logInclusion Demo.lib Demo.messageId5 Demo.badProof)
    by (intro H; discriminate H).
  split; [exact N |]. split; [reflexivity |].
  rewrite (proj1 (proj2 (log_inclusion_checked Demo.lib
                           (Demo.asserted Demo.assertedNode Demo.badProof)))
             Demo.messageId5 initial _ Demo.messageId5
             (Build_RawResult Demo.lib Demo.messageId5
                (Some Demo.assertedNode) (Some Demo.badProof))
             Demo.messageId5 Demo.badProof Demo.assertedNode
             Demo.assertionHash
             eq_refl eq_refl eq_refl eq_refl eq_refl eq_refl eq_refl N).
  reflexivity.
Defined.

(** C2 as stated fails: the proof has no siblings and its [logPostHash]
    is not the hash of [logPreHash] and the value's hash, the node info
    names no asserting transaction, and [getMessageResult] returns the
    result. *)
Lemma unasserted_result_skips_the_proof :
  logValHashes Demo.badProof = []
  /\ logPostHash Demo.badProof
     <> solidityKeccak256 Demo.lib (logPreHash Demo.badProof)
          (value_hash Demo.lib Demo.messageId5)
  /\ ~ logInclusion Demo.lib Demo.messageId5 Demo.badProof
  /\ exists st',
       getMessageResult Demo.lib
         (Demo.asserted Demo.pendingNode Demo.badProof)
         Demo.messageId5 initial
       = (Ok (Some (Build_MessageResult Demo.lib Demo.messageId5
                      Demo.messageId5 (Some Demo.pendingNode))), st').
Proof.
  split; [reflexivity |].
  split; [intro H; discriminate H |].
  split; [intro H; discriminate H |].
  eexists. reflexivity.
Qed.

Lemma assertion_checks_are_fatal_witness :
  Demo.parseLog Demo.assertedLog <> None
  /\ processLogsProof Demo.lib Demo.messageId5 Demo.goodProof = true
  /\ isThrow (fst (processConfirmedDisputableAssertion Demo.lib
                     (Demo.asserted Demo.assertedNode Demo.goodProof)
                     Demo.assertedNode Demo.goodProof initial)) = true.
Proof.
  split; [intro H; discriminate H |]. split; [reflexivity |].
  destruct (Demo.parseLog Demo.assertedLog) as [cda |] eqn:Hcda;
    [| discriminate Hcda].
  assert (N : ~ nodeHashMatches cda Demo.assertedNode).
  { inversion Hcda; subst. intro H; discriminate H. }
  refine (proj1 (proj2 (proj2
    (assertion_checks_are_fatal Demo.lib
       (Demo.asserted Demo.assertedNode Demo.goodProof)
       Demo.assertedNode Demo.goodProof initial _ _ Demo.assertionHash
       _ [Demo.otherLog; Demo.assertedLog] Demo.rollup 1%nat
       Demo.assertedLog cda Demo.rollup
       eq_refl eq_refl eq_refl eq_refl eq_refl eq_refl Hcda eq_refl))) N).
Defined.

Lemma first_delivery_event_decides_witness :
  noDelivery (map Demo.parseLog [Demo.foreignLog; Demo.otherLog]) = true
  /\ fst (getArbTxId Demo.lib
            (Demo.delivered [Demo.foreignLog; Demo.otherLog; Demo.depositLog])
            (Demo.receipt [Demo.foreignLog; Demo.otherLog; Demo.depositLog])
            initial)
     = Ok (Some
         "0x0000000000000000000000000000000000000000000000000000000000000007").
Proof.
  split; [reflexivity |].
  destruct (Demo.parseLog Demo.depositLog) as [dep |] eqn:Hdep;
    [| discriminate Hdep].
  assert (Hnum : LogValues.messageNum (LogDescription.values dep) = 7)
    by (inversion Hdep; reflexivity).
  assert (Hname : isDeposit (LogDescription.name dep) = true)
    by (inversion Hdep; reflexivity).
  assert (Hmap : map Demo.parseLog
                   [Demo.foreignLog; Demo.otherLog; Demo.depositLog]
                 = (map Demo.parseLog [Demo.foreignLog; Demo.otherLog]
                    ++ Some dep :: [])%list).
  { cbn [map app]. rewrite Hdep. reflexivity. }
  rewrite (proj1
    (first_delivery_event_decides Demo.lib
       (Demo.delivered [Demo.foreignLog; Demo.otherLog; Demo.depositLog])
       (Demo.receipt [Demo.foreignLog; Demo.otherLog; Demo.depositLog])
       [Demo.foreignLog; Demo.otherLog; Demo.depositLog]
       (map Demo.parseLog [Demo.foreignLog; Demo.otherLog]) [] dep
       Demo.inbox initial _
       eq_refl Hmap eq_refl eq_refl) Hname
    ltac:(rewrite Hnum; split; [lia | reflexivity])).
  rewrite Hnum. reflexivity.
Defined.

(** C5 as stated fails: the logs of the receipt hold an ETH deposit with
    message number 7, after a transaction delivery, and the resolved id is
    the transaction's hash, not [0x00..07]. *)
Lemma earlier_transaction_event_wins :
  In (Some
        {| LogDescription.name := EthDepositMessageDelivered;
           LogDescription.values :=
             {| LogValues.to := "0x00000000000000000000000000000000000000d4";
                LogValues.from := Demo.account;
                LogValues.seqNumber := 7;
                LogValues.value := 0;
                LogValues.data := "0x";
                LogValues.messageNum := 7;
                LogValues.fields := [] |} |})
     (map Demo.parseLog [Demo.txLog; Demo.depositLog])
  /\ fst (getArbTxId Demo.lib (Demo.delivered [Demo.txLog; Demo.depositLog])
            (Demo.receipt [Demo.txLog; Demo.depositLog]) initial)
     = Ok (Some Demo.messageId5)
  /\ Demo.messageId5 <> leftPad32 7.
Proof.
  split; [right; left; reflexivity |].
  split; [reflexivity | intro H; discriminate H].
Qed.



Lemma not_found_exactly_two_cases_witness :
  (forall chain to from seqNumber value data,
      calculateTransactionHash Demo.lib chain to from seqNumber value data
      <> "")
  /\ fst (getMessageResult Demo.lib Demo.quiet "0xabc" initial) = Ok None
  /\ fst (getMessageResult Demo.lib (Demo.delivered [Demo.otherLog])
            Demo.l1Hash initial) = Ok None.
Proof.
  assert (Hne : forall chain to from seqNumber value data,
             calculateTransactionHash Demo.lib chain to from seqNumber
               value data <> "")
    by (intros; intro H; discriminate H).
  split; [exact Hne |]. split.
  - rewrite (proj2 (not_found_exactly_two_cases Demo.lib Demo.quiet Hne
                      "0xabc" initial _)
               (or_intror (ex_intro _ "0xabc" (ex_intro _ _
                  (conj eq_refl (conj eq_refl eq_refl)))))).
    reflexivity.
  - rewrite (proj2 (not_found_exactly_two_cases Demo.lib
                      (Demo.delivered [Demo.otherLog]) Hne
                      Demo.l1Hash initial _)
               (or_introl (ex_intro _ _ (ex_intro _ Demo.inbox
                  (conj eq_refl (conj eq_refl eq_refl)))))).
    reflexivity.
Defined.

Lemma handle_id_resolves_witness :
  aggregator Demo.aggregated = Some Demo.deafAggregator
  /\ isThrow (Demo.deafAggregator "" 0 0 "" "" "") = true
  /\ (exists handle st',
       sendTransactionMessage Demo.lib Demo.aggregated 5 initial
       = (Ok handle, st')
       /\ Transaction.hash handle
          = Some (messageID Demo.lib 5 Demo.account))
  /\ aggregator (Demo.delivered [Demo.txLog]) = None
  /\ (forall log, Demo.parseLog Demo.txLog = Some log ->
      deliveryOf Demo.lib 5 Demo.account log)
  /\ exists handle st' m s',
       sendTransactionMessage Demo.lib (Demo.delivered [Demo.txLog]) 5 initial
       = (Ok handle, st')
       /\ Transaction.hash handle = Some Demo.l1Hash
       /\ getMessageResult Demo.lib (Demo.delivered [Demo.txLog])
            Demo.l1Hash st' = (Ok (Some m), s')
       /\ txHash m
          = calculateTransactionHash Demo.lib Demo.rollup
              (destAddress Demo.lib 5) Demo.account (sequenceNum Demo.lib 5)
              (payment Demo.lib 5) (calldata Demo.lib 5)
       /\ incoming_messageID Demo.lib (result m)
          = messageID Demo.lib 5 Demo.account.
Proof.
  split; [reflexivity |]. split; [reflexivity |]. split.
  { destruct (sendTransactionMessage Demo.lib Demo.aggregated 5 initial)
      as [[handle | e] st'] eqn:Hsend; [| discriminate Hsend].
    exists handle, st'. split; [reflexivity |].
    exact (proj1 (proj1 (handle_id_resolves Demo.lib Demo.aggregated)
             Demo.deafAggregator 5 initial _ _ st' Demo.rollup Demo.account
             handle eq_refl eq_refl eq_refl Hsend)). }
  split; [reflexivity |].
  assert (Hdel : forall log, Demo.parseLog Demo.txLog = Some log ->
                 deliveryOf Demo.lib 5 Demo.account log).
  { intros log H. inversion H. repeat split. }
  split; [exact Hdel |].
  destruct (sendTransactionMessage Demo.lib (Demo.delivered [Demo.txLog]) 5
              initial) as [[handle | e] st'] eqn:Hsend;
    [| discriminate Hsend].
  destruct (getMessageResult Demo.lib (Demo.delivered [Demo.txLog])
              Demo.l1Hash st') as [[[m |] | e] s'] eqn:Hget;
    try (inversion Hsend; subst; discriminate Hget).
  assert (Hh : Transaction.hash handle = Some Demo.l1Hash)
    by (inversion Hsend; reflexivity).
  exists handle, st', m, s'.
  split; [reflexivity |]. split; [exact Hh |]. split; [exact Hget |].
  destruct (proj2 (proj1 (proj2 (handle_id_resolves Demo.lib
                                   (Demo.delivered [Demo.txLog])))
                     5 initial _ _ st' Demo.rollup Demo.account handle
                     eq_refl eq_refl eq_refl Hsend)
              Demo.l1Hash (Demo.receipt [Demo.txLog]) [Demo.txLog] [] [] _
              st' s' m Hh eq_refl eq_refl eq_refl eq_refl
              (Hdel _ eq_refl) eq_refl Hget) as (Htx & _ & Hlink).
  split; [exact Htx |]. apply (proj2 Hlink). reflexivity.
Defined.

(** C1 as stated fails on the inbox path: the handle's id is the hash of
    the base-chain transaction, and the result that this id resolves to
    carries the rollup message id, which is another value. *)
Lemma inbox_handle_is_not_the_message_id :
  aggregator (Demo.delivered [Demo.txLog]) = None
  /\ exists handle st1 m st2,
       sendTransactionMessage Demo.lib (Demo.delivered [Demo.txLog]) 5 initial
       = (Ok handle, st1)
       /\ Transaction.hash handle = Some Demo.l1Hash
       /\ getMessageResult Demo.lib (Demo.delivered [Demo.txLog])
            Demo.l1Hash st1 = (Ok (Some m), st2)
       /\ incoming_messageID Demo.lib (result m) = messageID Demo.lib 5 Demo.account
       /\ incoming_messageID Demo.lib (result m) <> Demo.l1Hash.
Proof.
  split; [reflexivity |].
  eexists. eexists. eexists. eexists.
  split; [reflexivity |]. split; [reflexivity |]. split; [reflexivity |].
  split; [reflexivity | intro H; discriminate H].
Qed.

(** * Further properties *)

(** ** The sequence counter *)

Section Counter.

Variable lib : Lib.
Variable env : Env lib.

(** X3: reading the sequence number with [generateSeq] and then calling
    [incrementSeq] is [generateAndIncrementSeq]: the same number, the same
    final state, the same failure. *)
Theorem generateSeq_then_incrementSeq (st : State) :
  (seq <- generateSeq lib env ;; incrementSeq ;;; ret seq) st
  = generateAndIncrementSeq lib env st.
Proof.
  unfold generateSeq, generateAndIncrementSeq, incrementSeq, getAddress,
    perform_getTransactionCount.
  monad_unfold.
  destruct (truthy_onumber (seqCache st)) eqn:Ht; simpl.
  - destruct (seqCache st) as [s |] eqn:Hs; [| discriminate Ht].
    simpl. rewrite Hs. reflexivity.
  - destruct (signer_getAddress env) as [a | e]; [| reflexivity].
    destruct (arbSys_getTransactionCount env a) as [c | e]; reflexivity.
Qed.

(** What a successful [generateSeq] did. *)
Lemma generateSeq_Ok (st st1 : State) (seq : Z) :
  generateSeq lib env st = (Ok seq, st1) ->
  (seqCache st = Some seq /\ seq <> 0 /\ st1 = st)
  \/ (truthy_onumber (seqCache st) = false
      /\ seqCache st1 = Some seq
      /\ exists address,
           signer_getAddress env = Ok address
           /\ arbSys_getTransactionCount env address = Ok seq).
Proof.
  unfold generateSeq, getAddress, perform_getTransactionCount. monad_unfold.
  destruct (truthy_onumber (seqCache st)) eqn:Ht; simpl.
  - destruct (seqCache st) as [s |] eqn:Hs; [| discriminate].
    intros H; inversion H; subst. left. split; [reflexivity |].
    split; [| reflexivity]. simpl in Ht.
    destruct (Z.eqb_spec seq 0); [discriminate | assumption].
  - destruct (signer_getAddress env) as [a | e]; [| discriminate].
    destruct (arbSys_getTransactionCount env a) as [c | e] eqn:Hc;
      [| discriminate].
    intros H; inversion H; subst. right. split; [reflexivity |].
    split; [reflexivity |]. exists a. auto.
Qed.

(** X4: [generateSeq] reserves nothing: the number it returned is the one
    that the next [generateSeq] and the next reservation return. *)
Theorem generateSeq_reserves_nothing (st st1 : State) (seq : Z) :
  generateSeq lib env st = (Ok seq, st1) ->
  fst (generateSeq lib env st1) = Ok seq
  /\ fst (generateAndIncrementSeq lib env st1) = Ok seq.
Proof.
  intros H. pose proof (generateSeq_then_incrementSeq st1) as Hcomp.
  assert (Hpeek : fst (generateSeq lib env st1) = Ok seq).
  { destruct (generateSeq_Ok _ _ _ H)
      as [(Hc & Hnz & ->) | (Hf & Hc1 & a & Ha & Hn)].
    - rewrite H. reflexivity.
    - unfold generateSeq, getAddress, perform_getTransactionCount.
      monad_unfold. rewrite Hc1. simpl.
      destruct (Z.eqb_spec seq 0) as [E | N]; simpl.
      + rewrite Ha, Hn. reflexivity.
      + reflexivity. }
  split; [exact Hpeek |].
  rewrite <- Hcomp. unfold bind at 1.
  destruct (generateSeq lib env st1) as [[s | e] st2] eqn:Hg;
    simpl in Hpeek; [| discriminate].
  inversion Hpeek; subst s.
  assert (Hc2 : seqCache st2 = Some seq).
  { destruct (generateSeq_Ok _ _ _ Hg) as [(Hc & _ & ->) | (_ & Hc & _)];
      assumption. }
  unfold incrementSeq. monad_unfold. rewrite Hc2. reflexivity.
Qed.

Lemma generateAndIncrementSeq_Throw (st st' : State) (e : Error) :
  generateAndIncrementSeq lib env st = (Throw e, st') ->
  seqCache st' = seqCache st.
Proof.
  unfold generateAndIncrementSeq, getAddress, perform_getTransactionCount.
  monad_unfold.
  destruct (truthy_onumber (seqCache st)); simpl.
  - destruct (seqCache st); discriminate.
  - destruct (signer_getAddress env) as [a | e1];
      [| intros H; inversion H; reflexivity].
    destruct (arbSys_getTransactionCount env a);
      [discriminate | intros H; inversion H; reflexivity].
Qed.

Lemma sendTransactionMessage_Ok (l2tx : L2Transaction lib)
    (st st' : State) (handle : Transaction.t) :
  sendTransactionMessage lib env l2tx st = (Ok handle, st') ->
  seqCache st' = seqCache st
  /\ exists vmId from st2,
       sendTransactionMessage_try lib env l2tx vmId from st2
       = (Ok handle, st').
Proof.
  unfold sendTransactionMessage. unfold bind at 1.
  destruct (getVmID lib env st) as [[vmId | e] st1] eqn:Hvm;
    [| discriminate].
  unfold bind at 1.
  destruct (getAddress lib env st1) as [[from | e] st2] eqn:Ha;
    [| discriminate].
  unfold try_catch.
  destruct (sendTransactionMessage_try lib env l2tx vmId from st2)
    as [[h | e] st3] eqn:Htry.
  - intros H; inversion H; subst. split.
    + rewrite (sendTransactionMessage_try_keeps _ _ _ _ _ _ _ _ Htry).
      rewrite (getAddress_keeps _ _ _ _ _ Ha).
      exact (getVmID_keeps _ _ _ _ _ Hvm).
    + exists vmId, from, st2. exact Htry.
  - unfold sendTransactionMessage_catch. monad_unfold.
    destruct (truthy_onumber (seqCache st3)); [destruct (seqCache st3) |];
      discriminate.
Qed.

(** X5: a [sendTransaction] that succeeds has reserved one sequence number
    and keeps it: the counter is where the reservation left it, one above
    the reserved number when that number is below [2^53], and at [2^53]
    when the reserved number is [2^53] itself; one that fails because the
    reservation itself failed leaves the counter as it was. *)
Theorem sendTransaction_keeps_its_reservation
    (transaction : TransactionRequest.t) (st st' : State) :
  (forall handle : Transaction.t,
      sendTransaction lib env transaction st = (Ok handle, st') ->
      exists (seq : Z) (st1 : State),
        generateAndIncrementSeq lib env st = (Ok seq, st1)
        /\ seqCache st' = seqCache st1
        /\ (0 <= seq < 2 ^ 53 -> seqCache st' = Some (seq + 1))
        /\ (seq = 2 ^ 53 -> seqCache st' = Some (2 ^ 53)))
  /\ (forall (e : Error) (st1 : State),
      truthy_BigNumberish (TransactionRequest.gasLimit transaction) = true ->
      truthy_BigNumberish (TransactionRequest.gasPrice transaction) = true ->
      generateAndIncrementSeq lib env st = (Throw e, st1) ->
      sendTransaction lib env transaction st = (Throw e, st1)
      /\ seqCache st1 = seqCache st).
Proof.
  split.
  - intros handle. unfold sendTransaction.
    destruct (truthy_BigNumberish (TransactionRequest.gasLimit transaction));
      [| discriminate].
    destruct (truthy_BigNumberish (TransactionRequest.gasPrice transaction));
      [| discriminate].
    cbn [negb].
    destruct (TransactionRequest.gasLimit transaction) as [gl |];
      [| discriminate].
    destruct (TransactionRequest.gasPrice transaction) as [gp |];
      [| discriminate].
    unfold bind at 1.
    destruct (generateAndIncrementSeq lib env st) as [[seq | e] st1] eqn:Hres;
      [| discriminate].
    unfold bind at 1, lift at 1.
    destruct (new_L2Transaction lib gl gp seq _ _ _) as [l2tx | e];
      [| discriminate].
    intros Hsend. apply sendTransactionMessage_Ok in Hsend.
    destruct Hsend as [Hc _]. exists seq, st1. split; [reflexivity |].
    pose proof (proj1 (generateAndIncrementSeq_Ok _ _ _ _ _ Hres)) as Hc1.
    split; [exact Hc |]. rewrite Hc, Hc1. split.
    + intros Hlow. rewrite number_add_1 by exact Hlow. reflexivity.
    + intros ->. rewrite number_add_1_top. reflexivity.
  - intros e st1 Hgl Hgp Hres. split.
    + unfold sendTransaction. rewrite Hgl, Hgp. cbn [negb].
      destruct (TransactionRequest.gasLimit transaction) as [gl |];
        [| discriminate Hgl].
      destruct (TransactionRequest.gasPrice transaction) as [gp |];
        [| discriminate Hgp].
      unfold bind at 1. rewrite Hres. reflexivity.
    + exact (generateAndIncrementSeq_Throw _ _ _ Hres).
Qed.

End Counter.

(** ** Dispatch *)

Section Dispatch.

Variable lib : Lib.
Variable env : Env lib.

(** X6: a failure between the reservation and the [try] block (the
    construction of the [L2Transaction], [getVmID], [getAddress]) leaves
    [sendTransaction] with the counter where the reservation put it.  For
    a reserved number below [2^53] that is one above it, and the next
    reservation skips the reserved number; for the reserved number [2^53]
    the counter is [2^53] still, and the next reservation returns the same
    number again. *)
Theorem failure_before_dispatch_skips_a_number
    (transaction : TransactionRequest.t) (gasLimit gasPrice : BigNumberish)
    (st st1 : State) (seq : Z) (e : Error) :
  TransactionRequest.gasLimit transaction = Some gasLimit ->
  truthy_BigNumberish (Some gasLimit) = true ->
  TransactionRequest.gasPrice transaction = Some gasPrice ->
  truthy_BigNumberish (Some gasPrice) = true ->
  generateAndIncrementSeq lib env st = (Ok seq, st1) ->
  0 <= seq <= 2 ^ 53 ->
  let made :=
    new_L2Transaction lib gasLimit gasPrice seq
      (TransactionRequest.to transaction)
      (TransactionRequest.value transaction)
      (TransactionRequest.data transaction) in
  (made = Throw e
   \/ (exists l2tx, made = Ok l2tx /\ fst (getVmID lib env st1) = Throw e)
   \/ (exists l2tx vmId st2,
         made = Ok l2tx /\ getVmID lib env st1 = (Ok vmId, st2)
         /\ fst (getAddress lib env st2) = Throw e)) ->
  exists st',
    sendTransaction lib env transaction st = (Throw e, st')
    /\ seqCache st' = Some (Z.min (seq + 1) (2 ^ 53))
    /\ fst (generateAndIncrementSeq lib env st')
       = Ok (Z.min (seq + 1) (2 ^ 53)).
Proof.
  intros Hgl Hglt Hgp Hgpt Hres Hseq made Hfail.
  destruct (failure_before_dispatch lib env transaction gasLimit gasPrice
              st st1 seq e Hgl Hglt Hgp Hgpt Hres Hfail)
    as (st' & Hsend & Hc).
  rewrite (proj1 (generateAndIncrementSeq_Ok _ _ _ _ _ Hres)) in Hc.
  assert (Hadd : number_add seq 1 = Z.min (seq + 1) (2 ^ 53)).
  { destruct (Z.eq_dec seq (2 ^ 53)) as [-> | N]; [reflexivity |].
    rewrite number_add_1 by lia. rewrite Z.min_l by lia. reflexivity. }
  rewrite Hadd in Hc. exists st'.
  split; [exact Hsend |]. split; [exact Hc |].
  rewrite (generateAndIncrementSeq_warm lib env st' _ Hc); [reflexivity |].
  destruct (Z.eq_dec seq (2 ^ 53)) as [-> | N]; [discriminate |].
  rewrite Z.min_l by lia. lia.
Qed.

(** X7: a [sendTransactionMessage] whose dispatch fails lowers a nonzero
    [seqCache] by one, whether or not its caller had reserved a number,
    and leaves an empty or zero cache as it is. *)
Theorem failed_dispatch_lowers_the_cache
    (l2tx : L2Transaction lib) (st st1 st2 st3 : State)
    (vmId from : string) (e : Error) :
  getVmID lib env st = (Ok vmId, st1) ->
  getAddress lib env st1 = (Ok from, st2) ->
  sendTransactionMessage_try lib env l2tx vmId from st2 = (Throw e, st3) ->
  exists st',
    sendTransactionMessage lib env l2tx st = (Throw e, st')
    /\ seqCache st' =
       match seqCache st with
       | Some s => if s =? 0 then Some 0 else Some (s - 1)
       | None => None
       end.
Proof.
  intros Hvm Ha Htry.
  assert (Hc : seqCache st3 = seqCache st).
  { rewrite (sendTransactionMessage_try_keeps _ _ _ _ _ _ _ _ Htry).
    rewrite (getAddress_keeps _ _ _ _ _ Ha).
    exact (getVmID_keeps _ _ _ _ _ Hvm). }
  unfold sendTransactionMessage. unfold bind at 1. rewrite Hvm.
  unfold bind at 1. rewrite Ha. unfold try_catch. rewrite Htry.
  unfold sendTransactionMessage_catch. monad_unfold. rewrite Hc.
  destruct (seqCache st) as [s |]; simpl.
  - destruct (Z.eqb_spec s 0) as [E | N]; simpl.
    + subst s. eexists. split; [reflexivity |]. exact Hc.
    + eexists. split; [reflexivity |]. reflexivity.
  - eexists. split; [reflexivity |]. exact Hc.
Qed.

(** X8: a successful dispatch on the aggregator path signs the batch
    hash; the key it sends is the cached one when a key is cached, and
    otherwise the key recovered from this signature, which it caches; the
    last two requests are the signature and the send to the aggregator. *)
Theorem aggregator_dispatch
    (agg : AggregatorClient) (l2tx : L2Transaction lib)
    (vmId from : string) (st st' : State) (handle : Transaction.t) :
  sendTransactionMessage_aggregator lib env agg l2tx vmId from st
  = (Ok handle, st') ->
  exists sig pk,
    signer_signMessage env (batchHash lib l2tx vmId) = Ok sig
    /\ pubkey st' = Some pk
    /\ (truthy_ostring (pubkey st) = true -> pubkey st = Some pk)
    /\ (truthy_ostring (pubkey st) = false ->
        recoverPublicKey lib (hashMessage lib (batchHash lib l2tx vmId)) sig
        = Ok pk)
    /\ requests st' =
       ReqAggregatorSendTransaction (destAddress lib l2tx)
         (sequenceNum lib l2tx) (payment lib l2tx) (calldata lib l2tx) pk sig
       :: ReqSignerSignMessage (batchHash lib l2tx vmId) :: requests st.
Proof.
  unfold sendTransactionMessage_aggregator.
  unfold bind at 1, await at 1.
  destruct (signer_signMessage env (batchHash lib l2tx vmId)) as [sig | e];
    [| discriminate].
  unfold bind at 1, get at 1. unfold bind at 1.
  cbn [pubkey log_request].
  destruct (truthy_ostring (pubkey st)) eqn:Ht; cbn [negb].
  - destruct (pubkey st) as [pk |] eqn:Hpk; [| discriminate Ht].
    unfold ret at 1. unfold bind at 1, fire at 1. unfold lift.
    destruct (_wrapTransaction _ _); [| discriminate].
    intros H; inversion H; subst. exists sig, pk. cbn.
    repeat split; auto. discriminate.
  - unfold bind at 1, lift at 1.
    destruct (recoverPublicKey lib _ sig) as [pk | e] eqn:Hrec;
      [| discriminate].
    unfold bind at 1, modify at 1. unfold ret at 1.
    unfold bind at 1, fire at 1. unfold lift.
    destruct (_wrapTransaction _ _); [| discriminate].
    intros H; inversion H; subst. exists sig, pk. cbn.
    repeat split; auto. discriminate.
Qed.

End Dispatch.

(** ** The two dispatch paths *)

Section Paths.

Variable lib : Lib.
Variable env : Env lib.

Lemma connections_keep_aggregator_requests :
  keepsObs (requestsOf isAggregatorRequest) (getVmID lib env)
  /\ keepsObs (requestsOf isAggregatorRequest) (getAddress lib env)
  /\ keepsObs (requestsOf isAggregatorRequest)
       (wallet_globalInboxConn lib env).
Proof.
  split; [| split].
  - unfold getVmID. keepsObs_all.
  - unfold getAddress. keepsObs_all.
  - unfold wallet_globalInboxConn, globalInboxConn, arbRollupConn.
    keepsObs_all.
Qed.

(** X9: the two dispatch paths do not mix.  Without an aggregator,
    [sendTransactionMessage] asks for no signature and sends nothing to an
    aggregator; with an aggregator, it neither asks for the inbox's
    address nor sends to the inbox; whether it succeeds or fails. *)
Theorem dispatch_paths_do_not_mix (l2tx : L2Transaction lib) :
  (aggregator env = None ->
   keepsObs (requestsOf isAggregatorRequest)
     (sendTransactionMessage lib env l2tx))
  /\ (forall agg, aggregator env = Some agg ->
      keepsObs (requestsOf isInboxRequest)
        (sendTransactionMessage lib env l2tx)).
Proof.
  split.
  - intros Hagg.
    destruct connections_keep_aggregator_requests as (Hv & Ha & Hw).
    unfold sendTransactionMessage, sendTransactionMessage_try,
      sendTransactionMessage_catch.
    rewrite Hagg. unfold sendTransactionMessage_inbox.
    keepsObs_all.
  - intros agg Hagg.
    assert (Hv : keepsObs (requestsOf isInboxRequest) (getVmID lib env))
      by (unfold getVmID; keepsObs_all).
    assert (Ha : keepsObs (requestsOf isInboxRequest) (getAddress lib env))
      by (unfold getAddress; keepsObs_all).
    unfold sendTransactionMessage, sendTransactionMessage_try,
      sendTransactionMessage_catch.
    rewrite Hagg. unfold sendTransactionMessage_aggregator.
    keepsObs_all.
Qed.

End Paths.

(** ** Deposits, withdrawals and payments *)

Section Helpers.

Variable lib : Lib.
Variable env : Env lib.
Variable fac : Facade lib.

Lemma connections_keep_submissionState :
  keepsObs submissionState (getVmID lib env)
  /\ keepsObs submissionState (wallet_globalInboxConn lib env).
Proof.
  split.
  - unfold getVmID. keepsObs_all.
  - unfold wallet_globalInboxConn, globalInboxConn, arbRollupConn.
    keepsObs_all.
Qed.

(** X10: the deposit, withdrawal and payment helpers never touch the
    sequence counter or the cached public key, whether they succeed or
    fail; and the handle of a successful deposit is the very transaction
    that the inbox contract returned for the chain's address. *)
Theorem helpers_leave_the_counter_alone :
  (forall to erc20 value, keepsObs submissionState
                            (depositERC20 lib env fac to erc20 value))
  /\ (forall to erc721 tokenId, keepsObs submissionState
                                  (depositERC721 lib env fac to erc721 tokenId))
  /\ (forall to value, keepsObs submissionState
                         (depositETH lib env fac to value))
  /\ keepsObs submissionState (withdrawEth lib env fac)
  /\ (forall erc20, keepsObs submissionState (withdrawERC20 lib env fac erc20))
  /\ (forall erc721 tokenId, keepsObs submissionState
                               (withdrawERC721 lib env fac erc721 tokenId))
  /\ (forall a b c d, keepsObs submissionState
                        (transferPayment lib env fac a b c d))
  /\ (forall to value st st' handle,
      depositETH lib env fac to value st = (Ok handle, st') ->
      exists chain st1 globalInbox,
        getVmID lib env st = (Ok chain, st1)
        /\ wallet_globalInboxConn lib env st1 = (Ok globalInbox, st')
        /\ globalInbox_depositEthMessage fac globalInbox chain to value
           = Ok handle).
Proof.
  destruct connections_keep_submissionState as [Hv Hw].
  repeat split; intros;
    try (unfold depositERC20, depositERC721, depositETH, withdrawEth,
           withdrawERC20, withdrawERC721, transferPayment;
         keepsObs_all).
  revert H. unfold depositETH. unfold bind at 1.
  destruct (getVmID lib env st) as [[chain | e] st1] eqn:Hg; [| discriminate].
  unfold bind at 1.
  destruct (wallet_globalInboxConn lib env st1) as [[gi | e] st2] eqn:Hc;
    [| discriminate].
  unfold bind, lift.
  destruct (globalInbox_depositEthMessage fac gi chain to value)
    as [tx | e] eqn:Hdep; [| discriminate].
  destruct (_wrapTransaction tx (Transaction.hash tx)) as [h | e] eqn:Hw2;
    [| discriminate].
  intros H; inversion H; subst.
  exists chain, st1, gi. split; [reflexivity |]. split; [exact Hc |].
  rewrite Hdep. f_equal.
  revert Hw2. unfold _wrapTransaction.
  repeat match goal with
         | |- context [match ?c with _ => _ end] => destruct c
         end; intros Hw2; inversion Hw2; reflexivity.
Qed.

End Helpers.

(** ** The assertion behind a result *)

Section Assertion.

Variable lib : Lib.
Variable env : Env lib.

Lemma findIndex_CDA_Some (events : list (option LogDescription.t)) :
  forall (k i : nat),
  findIndex_CDA events k = Ok (Some i) ->
  exists (j : nat) (cda : LogDescription.t),
    i = (k + j)%nat
    /\ nth_error events j = Some (Some cda)
    /\ LogDescription.name cda = EB_EVENT_CDA
    /\ forallb otherEvent (firstn j events) = true.
Proof.
  induction events as [| [ev |] events IH]; intros k i H;
    cbn [findIndex_CDA] in H; try discriminate.
  destruct (String.eqb_spec (LogDescription.name ev) EB_EVENT_CDA) as [E | N].
  - inversion H; subst. exists 0%nat, ev. repeat split; auto.
  - destruct (IH _ _ H) as (j & cda & Hi & Hn & Hname & Hpre).
    exists (S j), cda. repeat split; auto; [lia |].
    cbn [firstn forallb otherEvent]. rewrite Hpre.
    destruct (String.eqb_spec (LogDescription.name ev) EB_EVENT_CDA);
      [contradiction | reflexivity].
Qed.

Lemma findIndex_CDA_others (pre : list (option LogDescription.t)) :
  forall (rest : list (option LogDescription.t)) (k : nat),
  forallb otherEvent pre = true ->
  findIndex_CDA (pre ++ rest) k = findIndex_CDA rest (k + List.length pre).
Proof.
  induction pre as [| [ev |] pre IH]; intros rest k H.
  - simpl. rewrite Nat.add_0_r. reflexivity.
  - cbn [forallb otherEvent] in H. apply andb_prop in H.
    destruct H as [H1 H2]. apply negb_true_iff in H1.
    cbn [app findIndex_CDA]. rewrite H1, (IH _ _ H2).
    cbn [List.length]. f_equal. lia.
  - discriminate H.
Qed.

(** X11: a receipt that [processConfirmedDisputableAssertion] returns is
    the receipt of the transaction named by the node info, and certifies
    that the first RollupAsserted event of its logs, every log before it
    being decodable, comes from the chain's address and records the
    proof's [logPostHash] and the node's hash. *)
Theorem returned_receipt_certifies_the_assertion
    (ni : NodeInfo) (proof : AVMProof) (st st' : State) (receipt : Receipt.t) :
  processConfirmedDisputableAssertion lib env ni proof st = (Ok receipt, st') ->
  exists (l1 : string) (logs : list Log.t) (i : nat) (rawLog : Log.t)
         (cda : LogDescription.t) (vmId : string) (st1 : State),
    l1TxHash ni = Some l1
    /\ ethProvider_waitForTransaction env l1 = Ok receipt
    /\ Receipt.logs receipt = Some logs
    /\ nth_error logs i = Some rawLog
    /\ arbRollup_parseLog env rawLog = Some cda
    /\ LogDescription.name cda = EB_EVENT_CDA
    /\ forallb otherEvent (firstn i (map (arbRollup_parseLog env) logs)) = true
    /\ getVmID lib env st1 = (Ok vmId, st')
    /\ addressMatches rawLog vmId
    /\ logPostHashMatches cda proof
    /\ nodeHashMatches cda ni.
Proof.
  unfold processConfirmedDisputableAssertion.
  destruct (l1TxHash ni) as [l1 |] eqn:Hl1; [| discriminate].
  unfold bind at 1, await at 1.
  destruct (ethProvider_waitForTransaction env l1) as [rc | e] eqn:Hw;
    [| discriminate].
  destruct (Receipt.logs rc) as [logs |] eqn:Hlogs; [| discriminate].
  unfold bind at 1.
  destruct (arbRollupConn lib env _) as [[ar | e] st1] eqn:Hconn;
    [| discriminate].
  unfold bind at 1, lift at 1.
  destruct (findIndex_CDA (map (arbRollup_parseLog env) logs) 0)
    as [[i |] | e] eqn:Hidx; try discriminate.
  destruct (findIndex_CDA_Some _ _ _ Hidx) as (j & cda & Hi & Hn & Hname & Hpre).
  simpl in Hi. subst j.
  rewrite Hn.
  destruct (nth_error logs i) as [rawLog |] eqn:Hraw; [| discriminate].
  rewrite (map_nth_error (arbRollup_parseLog env) _ _ Hraw) in Hn.
  inversion Hn as [Hcda].
  unfold bind at 1.
  destruct (getVmID lib env st1) as [[vmId | e] st2] eqn:Hvm; [| discriminate].
  destruct (String.eqb_spec (toLowerCase (Log.address rawLog))
              (toLowerCase vmId)) as [Ea | Na]; cbn [negb]; [| discriminate].
  destruct (differs (nth_error (LogValues.fields (LogDescription.values cda)) 6)
              (logPostHash proof)) eqn:H6; [discriminate |].
  destruct (differs (nth_error (LogValues.fields (LogDescription.values cda)) 7)
              (nodeHash ni)) eqn:H7; [discriminate |].
  unfold ret. intros H; inversion H; subst.
  exists l1, logs, i, rawLog, cda, vmId, st1.
  repeat split; auto.
  - apply differs_false, H6.
  - apply differs_false, H7.
Qed.

(** X12: what [getMessageResult] does with the node info of a raw result.
    With a proof and an asserting transaction, a result is returned only
    if the log inclusion holds and the assertion is certified, and its
    confirmations are those of the asserting transaction's receipt; in
    every other case that returns, the validator's node info, its own
    [l1Confirmations] included, is passed on as it came. *)
Theorem returned_node_info
    (arbTxHash : string) (rawResult : RawResult lib) (st st' : State)
    (m : MessageResult lib) :
  getMessageResult_check lib env arbTxHash rawResult st = (Ok m, st') ->
  (forall proof ni l1,
      raw_proof rawResult = Some proof ->
      raw_nodeInfo rawResult = Some ni ->
      l1TxHash ni = Some l1 ->
      logInclusion lib (raw_val rawResult) proof
      /\ exists receipt,
           processConfirmedDisputableAssertion lib env ni proof st
           = (Ok receipt, st')
           /\ nodeInfo m =
              Some {| nodeHash := nodeHash ni; nodeHeight := nodeHeight ni;
                      l1TxHash := Some l1;
                      l1Confirmations := Receipt.confirmations receipt |})
  /\ (raw_proof rawResult = None
      \/ (exists ni, raw_nodeInfo rawResult = Some ni /\ l1TxHash ni = None) ->
      nodeInfo m = raw_nodeInfo rawResult /\ st' = st).
Proof.
  unfold getMessageResult_check. monad_unfold.
  destruct (Result_fromValue lib (raw_val rawResult)) as [r | e];
    [| discriminate].
  destruct (String.eqb_spec arbTxHash (incoming_messageID lib r)) as [E | N];
    simpl; [| discriminate].
  destruct (raw_proof rawResult) as [proof |].
  - destruct (raw_nodeInfo rawResult) as [ni |]; [| discriminate].
    destruct (l1TxHash ni) as [l1 |] eqn:Hl1.
    + destruct (processLogsProof lib (raw_val rawResult) proof) eqn:Hlog;
        simpl; [| discriminate].
      destruct (processConfirmedDisputableAssertion lib env ni proof st)
        as [[rc | e] st2] eqn:Hpc; [| discriminate].
      intros H; inversion H; subst. split.
      * intros proof' ni' l1' Hp Hn Hl. inversion Hp; inversion Hn; subst.
        rewrite Hl1 in Hl. inversion Hl; subst.
        split; [apply processLogsProof_iff, Hlog |].
        exists rc. split; [exact Hpc | reflexivity].
      * intros [Hp | (ni' & Hn & Hl)]; [discriminate Hp |].
        inversion Hn; subst. rewrite Hl1 in Hl. discriminate Hl.
    + intros H; inversion H; subst. split.
      * intros proof' ni' l1' _ Hn Hl. inversion Hn; subst.
        rewrite Hl1 in Hl. discriminate Hl.
      * intros _. auto.
  - intros H; inversion H; subst. split.
    + intros proof' ni' l1' Hp. discriminate Hp.
    + intros _. auto.
Qed.

(** X13: the failures of [processConfirmedDisputableAssertion] that come
    before the three checks.  A node info without [l1TxHash] is refused
    before any request; a receipt without [logs] is refused; logs that all
    decode to other events, none at all included, give ['not found']; and
    a log that the interface does not decode, met before any
    RollupAsserted event, ends the search with a [TypeError], whatever
    follows it. *)
Theorem assertion_lookup_failures (ni : NodeInfo) (proof : AVMProof)
    (st : State) :
  (l1TxHash ni = None ->
   processConfirmedDisputableAssertion lib env ni proof st
   = (Throw (JsError "node doesn't exist on chain"), st))
  /\ (forall l1 receipt,
      l1TxHash ni = Some l1 ->
      ethProvider_waitForTransaction env l1 = Ok receipt ->
      Receipt.logs receipt = None ->
      processConfirmedDisputableAssertion lib env ni proof st
      = (Throw (JsError "RollupAsserted tx had no logs"),
         log_request (ReqEthWaitForTransaction l1) st))
  /\ (forall l1 receipt logs arbRollup st1,
      l1TxHash ni = Some l1 ->
      ethProvider_waitForTransaction env l1 = Ok receipt ->
      Receipt.logs receipt = Some logs ->
      arbRollupConn lib env (log_request (ReqEthWaitForTransaction l1) st)
      = (Ok arbRollup, st1) ->
      (forallb otherEvent (map (arbRollup_parseLog env) logs) = true ->
       processConfirmedDisputableAssertion lib env ni proof st
       = (Throw (JsError ("RollupAsserted " ++ l1 ++ " not found on chain")),
          st1))
      /\ (forall pre post,
          map (arbRollup_parseLog env) logs = (pre ++ None :: post)%list ->
          forallb otherEvent pre = true ->
          processConfirmedDisputableAssertion lib env ni proof st
          = (Throw (TypeError "Cannot read property 'name' of null"), st1))).
Proof.
  split; [| split].
  - intros H. unfold processConfirmedDisputableAssertion. rewrite H.
    reflexivity.
  - intros l1 rc Hl1 Hw Hlogs. unfold processConfirmedDisputableAssertion.
    rewrite Hl1. unfold bind, await. rewrite Hw, Hlogs. reflexivity.
  - intros l1 rc logs ar st1 Hl1 Hw Hlogs Hconn.
    assert (Hstart : forall r,
      findIndex_CDA (map (arbRollup_parseLog env) logs) 0 = r ->
      (r = Ok None \/ exists e, r = Throw e) ->
      processConfirmedDisputableAssertion lib env ni proof st
      = (match r with
         | Throw e => Throw e
         | _ => Throw (JsError ("RollupAsserted " ++ l1 ++ " not found on chain"))
         end, st1)).
    { intros r Hr Hcase. unfold processConfirmedDisputableAssertion.
      rewrite Hl1. unfold bind at 1, await at 1. rewrite Hw, Hlogs.
      unfold bind at 1. rewrite Hconn. unfold bind at 1, lift at 1.
      rewrite Hr. destruct Hcase as [-> | [e ->]]; reflexivity. }
    split.
    + intros Hall.
      rewrite (Hstart (Ok None)); [reflexivity | | auto].
      rewrite <- (app_nil_r (map _ logs)).
      rewrite (findIndex_CDA_others _ _ _ Hall). reflexivity.
    + intros pre post Hmap Hpre.
      rewrite (Hstart (Throw (TypeError "Cannot read property 'name' of null")));
        [reflexivity | | eauto].
      rewrite Hmap, (findIndex_CDA_others _ _ _ Hpre). reflexivity.
Qed.

End Assertion.

(** ** Deposit ids *)

Section DepositIds.

Lemma zeros_length (k : nat) : String.length (zeros k) = k.
Proof. induction k; simpl; auto. Qed.

Lemma all_hex_append (a b : string) :
  all_hex (a ++ b) = all_hex a && all_hex b.
Proof.
  induction a as [| c a IH]; [reflexivity |].
  cbn [append all_hex]. rewrite IH, andb_assoc. reflexivity.
Qed.

Lemma zeros_all_hex (k : nat) : all_hex (zeros k) = true.
Proof. induction k; simpl; auto. Qed.

Lemma leftPad32_length (n : Z) :
  0 <= n < 2 ^ 256 -> String.length (leftPad32 n) = 66%nat.
Proof.
  intros Hn. pose proof (hex_digits_length n Hn) as Hlen.
  unfold leftPad32. cbn [append String.length].
  rewrite string_length_append, zeros_length. lia.
Qed.

Lemma to_N_zeros (k : nat) (s : string) :
  HexString.Raw.to_N (zeros k ++ s) 0 = HexString.Raw.to_N s 0.
Proof.
  induction k as [| k IH]; [reflexivity |].
  cbn [zeros append]. cbn [HexString.Raw.to_N]. exact IH.
Qed.

Lemma to_Z_leftPad32 (n : Z) : 0 <= n -> HexString.to_Z (leftPad32 n) = n.
Proof.
  intros Hn. unfold leftPad32. cbn [append].
  unfold HexString.to_Z, HexString.to_N.
  destruct (ascii_dec "0" "-") as [E | _]; [discriminate E |].
  destruct (ascii_dec "0" "0") as [_ | N]; [| contradiction].
  destruct (ascii_dec "x" "x") as [_ | N]; [| contradiction].
  rewrite to_N_zeros. destruct n as [| p | p]; [reflexivity | | lia].
  unfold hex_digits. rewrite HexString.Raw.to_N_of_pos. reflexivity.
Qed.

(** X14: the id that [getArbTxId] makes of a deposit's message number, a
    number that fits in 32 bytes, is a hexadecimal string of exactly 32
    bytes that reads back as the message number; so two deposits have the
    same id only if they have the same message number. *)
Theorem deposit_id_round_trip (n : Z) :
  0 <= n < 2 ^ 256 ->
  exists id,
    hexZeroPad (toHexString n) 32 = Ok id
    /\ hexDataLength id = Some 32%nat
    /\ HexString.to_Z id = n
    /\ forall m, 0 <= m < 2 ^ 256 ->
                 hexZeroPad (toHexString m) 32 = Ok id -> m = n.
Proof.
  intros Hn. exists (leftPad32 n).
  split; [apply hexZeroPad_toHexString, Hn |].
  split; [| split].
  - unfold hexDataLength. rewrite (leftPad32_length n Hn).
    unfold leftPad32. cbn [append isHexString].
    rewrite all_hex_append, zeros_all_hex, hex_digits_all_hex. reflexivity.
  - apply to_Z_leftPad32. lia.
  - intros m Hm Hid. rewrite (hexZeroPad_toHexString m Hm) in Hid.
    assert (Heq : leftPad32 m = leftPad32 n) by congruence.
    rewrite <- (to_Z_leftPad32 m), <- (to_Z_leftPad32 n) by lia.
    rewrite Heq. reflexivity.
Qed.

End DepositIds.

(** ** Log proofs *)

Section LogProofs.

Variable lib : Lib.

(** X15: a log proof can be checked in two parts.  When the siblings
    [s1] lead from the value to [mid], the siblings [s1 ++ s2] lead to
    [post] exactly when [s2] lead from [mid] to [post]; so a valid proof
    extended by one sibling [h] is valid for the hash of its
    [logPostHash] and [h]. *)
Theorem processLogsProof_in_two_parts
    (value : Value lib) (pre mid post : string) (s1 s2 : list string) :
  processLogsProof lib value
    {| logPreHash := pre; logPostHash := mid; logValHashes := s1 |} = true ->
  (processLogsProof lib value
     {| logPreHash := pre; logPostHash := post;
        logValHashes := (s1 ++ s2)%list |} = true
   <-> foldSiblings (solidityKeccak256 lib) mid s2 = post)
  /\ forall h,
       processLogsProof lib value
         {| logPreHash := pre;
            logPostHash := solidityKeccak256 lib mid h;
            logValHashes := (s1 ++ [h])%list |} = true.
Proof.
  unfold processLogsProof. cbn [logPreHash logPostHash logValHashes].
  intros H. apply String.eqb_eq in H.
  assert (Hsplit : forall post' s,
    ((post' =? fold_left (fun acc hash => solidityKeccak256 lib acc hash)
                 (s1 ++ s)%list
                 (solidityKeccak256 lib pre (value_hash lib value)))%string
     = true)
    <-> foldSiblings (solidityKeccak256 lib) mid s = post').
  { intros post' s. rewrite fold_left_app, <- H, fold_left_foldSiblings.
    rewrite String.eqb_eq. split; intros E; symmetry; exact E. }
  split; [apply Hsplit |].
  intros h. apply Hsplit. reflexivity.
Qed.

End LogProofs.

(** ** Calls *)

Section Calls.

Variable lib : Lib.
Variable env : Env lib.

(** X16: which endpoint of the validator answers a [call].  With the tag
    ['pending'] it is [pendingCall].  With the tag ['latest'], with no tag
    and with a falsy tag it is [pendingCall] when the provider has
    deterministic assertions and [call] otherwise.  The request is logged
    and nothing else of the state changes; the outcome is the return data
    of the result that the answered value decodes to, when its code is
    [Return], so data is returned only for such a result. *)
Theorem call_answers (transaction : TransactionRequest.t) (tx : L2Call lib)
    (st : State) :
  new_L2Call lib (TransactionRequest.gasLimit transaction)
    (TransactionRequest.gasPrice transaction)
    (TransactionRequest.to transaction)
    (TransactionRequest.data transaction) = Ok tx ->
  let from := TransactionRequest.from transaction in
  let byPendingCall :=
    (callOutcome lib (client_pendingCall env tx from),
     log_request (ReqClientPendingCall from) st) in
  let byCall :=
    (callOutcome lib (client_call env tx from),
     log_request (ReqClientCall from) st) in
  call lib env transaction (Some (TagString "pending")) st = byPendingCall
  /\ (forall blockTag : option BlockTag,
        blockTag = Some (TagString "latest")
        \/ truthy_BlockTag blockTag = false ->
        call lib env transaction blockTag st
        = if deterministicAssertions env then byPendingCall else byCall)
  /\ (forall (blockTag : option BlockTag) (data : string) (st' : State),
        call lib env transaction blockTag st = (Ok data, st') ->
        exists (value : Value lib) (r : Result lib),
          ((client_pendingCall env tx from = Ok value
            /\ st' = log_request (ReqClientPendingCall from) st)
           \/ (client_call env tx from = Ok value
               /\ st' = log_request (ReqClientCall from) st))
          /\ Result_fromValue lib value = Ok r
          /\ resultCode_isReturn lib r = true
          /\ data = returnData lib r).
Proof.
  intros Hnew from byPendingCall byCall.
  assert (Hdecode : forall (q : Request) (answer : res (Value lib)),
    (resultVal <- await q answer ;;
     result <- lift (Result_fromValue lib resultVal) ;;
     if negb (resultCode_isReturn lib result) then
       throw (JsError "Call was reverted")
     else ret (returnData lib result)) st
    = (callOutcome lib answer, log_request q st)).
  { intros q [value | e]; [| reflexivity].
    unfold bind, await, lift, callOutcome.
    destruct (Result_fromValue lib value) as [r | e]; [| reflexivity].
    destruct (resultCode_isReturn lib r); reflexivity. }
  assert (Hpending :
    call lib env transaction (Some (TagString "pending")) st = byPendingCall).
  { unfold call. unfold bind at 1, lift at 1. rewrite Hnew.
    cbn [truthy_BlockTag truthy_string tag_eq String.eqb Ascii.eqb Bool.eqb
         negb].
    apply Hdecode. }
  assert (Hlatest : forall blockTag : option BlockTag,
    blockTag = Some (TagString "latest")
    \/ truthy_BlockTag blockTag = false ->
    call lib env transaction blockTag st
    = if deterministicAssertions env then byPendingCall else byCall).
  { intros blockTag Htag.
    assert (Hcl : call lib env transaction blockTag st
      = (resultVal <- callLatest lib env tx from ;;
         result <- lift (Result_fromValue lib resultVal) ;;
         if negb (resultCode_isReturn lib result) then
           throw (JsError "Call was reverted")
         else ret (returnData lib result)) st).
    { unfold call. unfold bind at 1, lift at 1. rewrite Hnew.
      destruct Htag as [-> | Hf]; [reflexivity |].
      rewrite Hf. reflexivity. }
    rewrite Hcl. unfold callLatest.
    destruct (deterministicAssertions env); apply Hdecode. }
  split; [exact Hpending |]. split; [exact Hlatest |].
  intros blockTag data st' Hcall.
  assert (Hout : forall answer : res (Value lib),
    callOutcome lib answer = Ok data ->
    exists value r,
      answer = Ok value /\ Result_fromValue lib value = Ok r
      /\ resultCode_isReturn lib r = true /\ data = returnData lib r).
  { intros [value | e]; [| discriminate]. unfold callOutcome.
    destruct (Result_fromValue lib value) as [r | e] eqn:Hr;
      [| discriminate].
    destruct (resultCode_isReturn lib r) eqn:Hret; [| discriminate].
    intros H; inversion H. exists value, r. auto. }
  assert (Hcases :
    call lib env transaction blockTag st = byPendingCall
    \/ call lib env transaction blockTag st = byCall
    \/ fst (call lib env transaction blockTag st)
       = Throw (JsError "Invalid block tag")).
  { destruct (truthy_BlockTag blockTag) eqn:Ht.
    - destruct blockTag as [tag |]; [| discriminate Ht].
      destruct (tag_eq tag "pending") eqn:Hp.
      + left. destruct tag as [t | n]; [| discriminate Hp].
        apply String.eqb_eq in Hp. subst t. exact Hpending.
      + destruct (tag_eq tag "latest") eqn:Hl.
        * destruct tag as [t | n]; [| discriminate Hl].
          apply String.eqb_eq in Hl. subst t.
          rewrite (Hlatest _ (or_introl eq_refl)).
          destruct (deterministicAssertions env); auto.
        * right. right. unfold call. unfold bind at 1, lift at 1.
          rewrite Hnew, Ht, Hp, Hl. reflexivity.
    - rewrite (Hlatest _ (or_intror Ht)).
      destruct (deterministicAssertions env); auto. }
  destruct Hcases as [Hc | [Hc | Hc]].
  - rewrite Hc in Hcall. inversion Hcall as [[Ho Hs]].
    destruct (Hout _ Ho) as (value & r & Ha & Hr & Hret & Hd).
    exists value, r. split; [left; auto |]. auto.
  - rewrite Hc in Hcall. inversion Hcall as [[Ho Hs]].
    destruct (Hout _ Ho) as (value & r & Ha & Hr & Hret & Hd).
    exists value, r. split; [right; auto |]. auto.
  - rewrite Hcall in Hc. discriminate Hc.
Qed.

End Calls.

(** ** Receipts and transactions of the facade *)

Section Lookups.

Variable lib : Lib.
Variable env : Env lib.
Variable fac : Facade lib.

Lemma getTransactionReceipt_of_Ok (m : MessageResult lib) (st st' : State)
    (receipt : TransactionReceipt.t (EvmLog fac)) :
  getTransactionReceipt_of lib env fac m st = (Ok receipt, st') ->
  st' = st
  /\ exists (l2tx : L2Transaction lib) (ni : NodeInfo),
       incoming_l2Transaction fac (result m) = Some l2tx
       /\ nodeInfo m = Some ni
       /\ TransactionReceipt.transactionHash receipt = txHash m
       /\ TransactionReceipt.to receipt = destAddress lib l2tx
       /\ TransactionReceipt.from receipt = incoming_sender fac (result m)
       /\ TransactionReceipt.blockHash receipt = nodeHash ni
       /\ TransactionReceipt.blockNumber receipt = nodeHeight ni
       /\ (if resultCode_isReturn lib (result m)
           then TransactionReceipt.status receipt = 1
                /\ TransactionReceipt.logs receipt
                   = result_logs fac (result m)
           else TransactionReceipt.status receipt = 0
                /\ TransactionReceipt.logs receipt = [])
       /\ (deterministicAssertions env = false ->
           TransactionReceipt.confirmations receipt
           = match l1Confirmations ni with Some c => c | None => 0 end).
Proof.
  unfold getTransactionReceipt_of. unfold bind at 1.
  match goal with
  | |- context [match ?c st with _ => _ end] =>
      destruct (c st) as [[conf | e] st1] eqn:Hconf
  end; [| discriminate].
  destruct (incoming_l2Transaction fac (result m)) as [l2tx |];
    [| discriminate].
  destruct (nodeInfo m) as [ni |] eqn:Hni; [| discriminate].
  unfold ret. intros H; inversion H; subst. cbn.
  assert (Hst : st' = st /\ (deterministicAssertions env = false ->
            conf = match l1Confirmations ni with Some c => c | None => 0 end)).
  { revert Hconf. destruct (deterministicAssertions env).
    - unfold bind, lift, ret.
      destruct (ethProvider_getBlockNumber fac); [| discriminate].
      intros H1; inversion H1. split; [reflexivity | discriminate].
    - unfold l1Confs. rewrite Hni. unfold ret.
      destruct (l1Confirmations ni); intros H1; inversion H1; auto. }
  destruct Hst as [Hs Hc]. split; [exact Hs |].
  exists l2tx, ni. repeat split; auto.
  destruct (resultCode_isReturn lib (result m)); auto.
Qed.

(** X17: what [perform('getTransactionReceipt')] reports.  It returns
    [null] exactly when [getMessageResult] does.  A receipt it returns is
    for a result of [getMessageResult] that is an L2 transaction; its
    [transactionHash] is the rollup id recomputed from the result's
    envelope; its status is 1 with the result's logs when the result code
    is [Return], and 0 with no logs otherwise; and without deterministic
    assertions its confirmations are the [l1Confirmations] of the result,
    or 0 when there are none. *)
Theorem getTransactionReceipt_reports (id : string) (st st' : State) :
  (perform_getTransactionReceipt lib env fac id st = (Ok None, st')
   <-> getMessageResult lib env id st = (Ok None, st'))
  /\ forall receipt,
       perform_getTransactionReceipt lib env fac id st
       = (Ok (Some receipt), st') ->
       exists (m : MessageResult lib) (l2tx : L2Transaction lib)
              (ni : NodeInfo),
         getMessageResult lib env id st = (Ok (Some m), st')
         /\ incoming_l2Transaction fac (result m) = Some l2tx
         /\ nodeInfo m = Some ni
         /\ TransactionReceipt.transactionHash receipt
            = incoming_messageID lib (result m)
         /\ TransactionReceipt.to receipt = destAddress lib l2tx
         /\ TransactionReceipt.blockHash receipt = nodeHash ni
         /\ (if resultCode_isReturn lib (result m)
             then TransactionReceipt.status receipt = 1
                  /\ TransactionReceipt.logs receipt
                     = result_logs fac (result m)
             else TransactionReceipt.status receipt = 0
                  /\ TransactionReceipt.logs receipt = [])
         /\ (deterministicAssertions env = false ->
             TransactionReceipt.confirmations receipt
             = match l1Confirmations ni with Some c => c | None => 0 end).
Proof.
  unfold perform_getTransactionReceipt. unfold bind at 1. unfold bind at 2.
  destruct (getMessageResult lib env id st) as [[[m |] | e] st1] eqn:Hget.
  - assert (Hid : incoming_messageID lib (result m) = txHash m).
    { destruct (getMessageResult_Some lib env _ _ _ _ Hget)
        as (s1 & raw & _ & _ & Hchk).
      destruct (getMessageResult_check_ok lib env _ _ _ _ _ Hchk)
        as (Ht & Hi & _). congruence. }
    unfold bind, ret.
    destruct (getTransactionReceipt_of lib env fac m st1)
      as [[rc | e] st2] eqn:Hof.
    + split; [split; discriminate |].
      intros receipt H; inversion H; subst.
      destruct (getTransactionReceipt_of_Ok _ _ _ _ Hof)
        as (-> & l2tx & ni & Hl2 & Hni & Hh & Hto & _ & Hbh & _ & Hst & Hc).
      exists m, l2tx, ni. rewrite Hid. repeat split; auto.
    + split; [split; discriminate | intros receipt H; discriminate H].
  - unfold ret. split; [split; intros H; inversion H; reflexivity |].
    intros receipt H; discriminate H.
  - split; [split; discriminate | intros receipt H; discriminate H].
Qed.

(** X18: the transaction that [getTransaction] polls for.  It is made
    of a result of [getMessageResult] and carries the result's id as its
    hash.  When the result has a node info, the transaction names the
    node's hash and height as its block and reports 1000 confirmations;
    when it has none, the transaction has no block and no confirmations.
    And it agrees with the receipt of [getTransactionReceipt], when there
    is one for the same identifier from the same state: the same hash,
    block, sender and destination. *)
Theorem transaction_and_receipt_agree
    (id : string) (st s2 : State) (response : TransactionResponse.t) :
  getMessageRequest lib env fac id st = (Ok (Some response), s2) ->
  (exists m : MessageResult lib,
      getMessageResult lib env id st = (Ok (Some m), s2)
      /\ Transaction.hash (TransactionResponse.tx response) = Some (txHash m)
      /\ match nodeInfo m with
         | Some ni =>
             TransactionResponse.blockHash response = Some (nodeHash ni)
             /\ TransactionResponse.blockNumber response
                = Some (nodeHeight ni)
             /\ TransactionResponse.confirmations response = Some 1000
         | None =>
             TransactionResponse.blockHash response = None
             /\ TransactionResponse.blockNumber response = None
             /\ TransactionResponse.confirmations response = None
         end)
  /\ forall (s1 : State) (receipt : TransactionReceipt.t (EvmLog fac)),
       perform_getTransactionReceipt lib env fac id st
       = (Ok (Some receipt), s1) ->
       Transaction.hash (TransactionResponse.tx response)
       = Some (TransactionReceipt.transactionHash receipt)
       /\ TransactionResponse.blockHash response
          = Some (TransactionReceipt.blockHash receipt)
       /\ TransactionResponse.blockNumber response
          = Some (TransactionReceipt.blockNumber receipt)
       /\ Transaction.from (TransactionResponse.tx response)
          = TransactionReceipt.from receipt
       /\ Transaction.to (TransactionResponse.tx response)
          = TransactionReceipt.to receipt
       /\ TransactionResponse.confirmations response = Some 1000.
Proof.
  unfold perform_getTransactionReceipt, getMessageRequest.
  unfold bind at 1. unfold bind at 2.
  destruct (getMessageResult lib env id st) as [[[m |] | e] st1];
    try discriminate.
  unfold bind at 1. unfold getMessageRequest_of.
  destruct (incoming_l2Transaction fac (result m)) as [l2tx |] eqn:Hl2;
    [| discriminate].
  unfold bind at 1, lift at 1. cbn [_wrapTransaction].
  split.
  - exists m. revert H.
    destruct (nodeInfo m) as [ni |]; unfold ret;
      intros H; inversion H; subst; cbn; auto.
  - intros s1 receipt. unfold bind, ret.
    destruct (getTransactionReceipt_of lib env fac m st1)
      as [[rc | e] st2] eqn:Hof; [| discriminate].
    intros H1; inversion H1; subst.
    destruct (getTransactionReceipt_of_Ok _ _ _ _ Hof)
      as (_ & l2tx' & ni & Hl2' & Hni & Hh & Hto & Hfrom & Hbh & Hbn & _).
    rewrite Hl2 in Hl2'. inversion Hl2'; subst l2tx'.
    revert H. rewrite Hni. unfold ret.
    intros H2; inversion H2; subst. cbn.
    rewrite Hh, Hto, Hfrom, Hbh, Hbn. repeat split.
Qed.

End Lookups.

(** ** Connections *)

Section Connections.

Variable lib : Lib.
Variable env : Env lib.

(** X1: [getVmID] remembers the chain's address.  A call that succeeds
    leaves the address it returned in the cache, and once a non-empty
    address is there every later call returns it without any request;
    a call that fails leaves the cache as it was, so the next call asks
    again. *)
Theorem getVmID_remembers (st st1 : State) :
  (forall vmId,
      getVmID lib env st = (Ok vmId, st1) ->
      vmIdCache st1 = Some vmId
      /\ (vmId <> "" -> getVmID lib env st1 = (Ok vmId, st1)))
  /\ (forall e,
      getVmID lib env st = (Throw e, st1) ->
      vmIdCache st1 = vmIdCache st
      /\ truthy_ostring (vmIdCache st) = false
      /\ getVmID lib env st1
         = (Throw e, log_request ReqClientGetVmID st1)).
Proof.
  unfold getVmID. monad_unfold. split.
  - intros vmId.
    destruct (truthy_ostring (vmIdCache st)) eqn:Ht; simpl.
    + destruct (vmIdCache st) as [v |] eqn:Hv; [| discriminate Ht].
      intros H; inversion H; subst. split; [exact Hv |].
      intros _. rewrite Hv, Ht. reflexivity.
    + destruct (client_getVmID env) as [v | e]; simpl; [| discriminate].
      rewrite Ht. simpl. intros H; inversion H; subst. simpl.
      split; [reflexivity |]. intros Hne.
      unfold truthy_string.
      destruct (String.eqb_spec vmId "") as [E | N]; [contradiction |].
      reflexivity.
  - intros e.
    destruct (truthy_ostring (vmIdCache st)) eqn:Ht; simpl.
    + destruct (vmIdCache st); discriminate.
    + destruct (client_getVmID env) as [v | e1] eqn:Hc; simpl.
      * rewrite Ht. simpl. discriminate.
      * intros H; inversion H; subst. simpl. rewrite Ht. simpl.
        repeat split; reflexivity.
Qed.

(** X2: the inbox connection is resolved once.  After [globalInboxConn]
    succeeds, a later call returns the same address and changes nothing,
    and so does the wallet's [globalInboxConn], whose address is the
    provider's; a [globalInboxConn] that fails with an empty cache leaves
    the cache empty. *)
Theorem globalInboxConn_resolves_once (st st1 : State) :
  (forall globalInbox,
      globalInboxConn lib env st = (Ok globalInbox, st1) ->
      globalInboxCache st1 = Some globalInbox
      /\ globalInboxConn lib env st1 = (Ok globalInbox, st1))
  /\ (forall e,
      globalInboxConn lib env st = (Throw e, st1) ->
      globalInboxCache st1 = None)
  /\ (forall globalInbox,
      wallet_globalInboxConn lib env st = (Ok globalInbox, st1) ->
      wallet_globalInboxConn lib env st1 = (Ok globalInbox, st1)
      /\ (wallet_globalInboxCache st = None ->
          globalInboxCache st1 = Some globalInbox)).
Proof.
  assert (Hprov : forall s s' a,
    globalInboxConn lib env s = (Ok a, s') ->
    globalInboxCache s' = Some a
    /\ wallet_globalInboxCache s' = wallet_globalInboxCache s).
  { intros s s' a. unfold globalInboxConn, arbRollupConn. monad_unfold.
    destruct (globalInboxCache s) as [g |] eqn:Hg.
    - intros H; inversion H; subst. auto.
    - destruct (arbRollupCache s) as [r |].
      + destruct (arbRollup_globalInbox env r); [| discriminate].
        intros H; inversion H; subst. auto.
      + destruct (client_getVmID env) as [v | e]; [| discriminate].
        destruct (arbRollup_globalInbox env v); [| discriminate].
        intros H; inversion H; subst. auto. }
  split; [| split].
  - intros g H. destruct (Hprov _ _ _ H) as [Hc _]. split; [exact Hc |].
    unfold globalInboxConn. monad_unfold. rewrite Hc. reflexivity.
  - intros e. unfold globalInboxConn, arbRollupConn. monad_unfold.
    destruct (globalInboxCache st) as [g |] eqn:Hg; [discriminate |].
    destruct (arbRollupCache st) as [r |].
    + destruct (arbRollup_globalInbox env r); [discriminate |].
      intros H; inversion H; subst. exact Hg.
    + destruct (client_getVmID env) as [v | e1].
      * destruct (arbRollup_globalInbox env v); [discriminate |].
        intros H; inversion H; subst. exact Hg.
      * intros H; inversion H; subst. exact Hg.
  - intros g. unfold wallet_globalInboxConn. unfold bind at 1, get at 1.
    destruct (wallet_globalInboxCache st) as [w |] eqn:Hw.
    + unfold ret. intros H; inversion H; subst. split.
      * unfold bind, get. rewrite Hw. reflexivity.
      * discriminate.
    + unfold bind at 1.
      destruct (globalInboxConn lib env st) as [[a | e] s1] eqn:Hconn;
        [| discriminate].
      unfold bind, modify, ret. intros H; inversion H; subst.
      destruct (Hprov _ _ _ Hconn) as [Hc _]. split.
      * unfold get. reflexivity.
      * intros _. exact Hc.
Qed.

End Connections.

(** * The further properties on the small instance *)

Lemma getVmID_remembers_witness :
  Demo.rollup <> ""
  /\ exists st1,
       getVmID Demo.lib Demo.quiet initial = (Ok Demo.rollup, st1)
       /\ getVmID Demo.lib Demo.quiet st1 = (Ok Demo.rollup, st1).
Proof.
  assert (N : Demo.rollup <> "") by (intro H; discriminate H).
  split; [exact N |].
  destruct (getVmID Demo.lib Demo.quiet initial) as [r st1] eqn:H.
  assert (Hr : r = Ok Demo.rollup) by (inversion H; reflexivity).
  subst r. exists st1. split; [reflexivity |].
  exact (proj2 (proj1 (getVmID_remembers Demo.lib Demo.quiet initial st1)
                  Demo.rollup H) N).
Defined.

Lemma globalInboxConn_resolves_once_witness :
  exists st1,
    globalInboxConn Demo.lib Demo.quiet initial = (Ok Demo.inbox, st1)
    /\ globalInboxConn Demo.lib Demo.quiet st1 = (Ok Demo.inbox, st1).
Proof.
  destruct (globalInboxConn Demo.lib Demo.quiet initial) as [r st1] eqn:H.
  assert (Hr : r = Ok Demo.inbox) by (inversion H; reflexivity).
  subst r. exists st1. split; [reflexivity |].
  exact (proj2 (proj1 (globalInboxConn_resolves_once Demo.lib Demo.quiet
                         initial st1) Demo.inbox H)).
Defined.

Lemma generateSeq_reserves_nothing_witness :
  exists st1,
    generateSeq Demo.lib Demo.quiet initial = (Ok 5, st1)
    /\ fst (generateAndIncrementSeq Demo.lib Demo.quiet st1) = Ok 5.
Proof.
  destruct (generateSeq Demo.lib Demo.quiet initial) as [r st1] eqn:H.
  assert (Hr : r = Ok 5) by (inversion H; reflexivity).
  subst r. exists st1. split; [reflexivity |].
  exact (proj2 (generateSeq_reserves_nothing Demo.lib Demo.quiet
                  initial st1 5 H)).
Defined.

Lemma sendTransaction_keeps_its_reservation_witness :
  (exists handle st',
     sendTransaction Demo.lib Demo.quiet Demo.request initial = (Ok handle, st')
     /\ fst (generateAndIncrementSeq Demo.lib Demo.quiet initial) = Ok 5
     /\ seqCache st' = Some 6)
  /\ exists handle st',
       sendTransaction Demo.lib Demo.quiet Demo.request (Sample.warm (2 ^ 53))
       = (Ok handle, st')
       /\ fst (generateAndIncrementSeq Demo.lib Demo.quiet
                 (Sample.warm (2 ^ 53))) = Ok (2 ^ 53)
       /\ seqCache st' = Some (2 ^ 53).
Proof.
  split.
  - destruct (sendTransaction Demo.lib Demo.quiet Demo.request initial)
      as [[handle | e] st'] eqn:H; [| discriminate H].
    exists handle, st'. split; [reflexivity |]. split; [reflexivity |].
    destruct (proj1 (sendTransaction_keeps_its_reservation Demo.lib Demo.quiet
                       Demo.request initial st') handle H)
      as (seq & st1 & Hgen & _ & Hlow & _).
    pose proof (f_equal fst Hgen) as Hs. change (Ok 5 = Ok seq) in Hs.
    inversion Hs; subst seq.
    assert (H5 : 0 <= 5 < 2 ^ 53) by (split; [lia | reflexivity]).
    exact (Hlow H5).
  - destruct (sendTransaction Demo.lib Demo.quiet Demo.request
                (Sample.warm (2 ^ 53)))
      as [[handle | e] st'] eqn:H; [| discriminate H].
    exists handle, st'. split; [reflexivity |]. split; [reflexivity |].
    destruct (proj1 (sendTransaction_keeps_its_reservation Demo.lib Demo.quiet
                       Demo.request (Sample.warm (2 ^ 53)) st') handle H)
      as (seq & st1 & Hgen & _ & _ & Htop).
    pose proof (f_equal fst Hgen) as Hs. change (Ok (2 ^ 53) = Ok seq) in Hs.
    inversion Hs; subst seq.
    exact (Htop eq_refl).
Defined.

Lemma failure_before_dispatch_skips_a_number_witness :
  0 <= 5 <= 2 ^ 53
  /\ fst (generateAndIncrementSeq Demo.lib Sample.unreachable (Sample.warm 5))
     = Ok 5
  /\ fst (getVmID Demo.lib Sample.unreachable (Sample.warm 6))
     = Throw (JsError "validator unreachable")
  /\ (exists st',
       sendTransaction Demo.lib Sample.unreachable Demo.request
         (Sample.warm 5)
       = (Throw (JsError "validator unreachable"), st')
       /\ seqCache st' = Some 6
       /\ fst (generateAndIncrementSeq Demo.lib Sample.unreachable st')
          = Ok 6)
  /\ fst (generateAndIncrementSeq Demo.lib Sample.unreachable
            (Sample.warm (2 ^ 53)))
     = Ok (2 ^ 53)
  /\ exists st',
       sendTransaction Demo.lib Sample.unreachable Demo.request
         (Sample.warm (2 ^ 53))
       = (Throw (JsError "validator unreachable"), st')
       /\ seqCache st' = Some (2 ^ 53)
       /\ fst (generateAndIncrementSeq Demo.lib Sample.unreachable st')
          = Ok (2 ^ 53).
Proof.
  assert (H5 : 0 <= 5 <= 2 ^ 53) by (split; [lia | intro H; discriminate H]).
  assert (Htop : 0 <= 2 ^ 53 <= 2 ^ 53)
    by (split; intro H; discriminate H).
  split; [exact H5 |]. split; [reflexivity |]. split; [reflexivity |].
  split; [| split; [reflexivity |]].
  - refine (failure_before_dispatch_skips_a_number Demo.lib Sample.unreachable
              Demo.request (BN_number 100000) (BN_number 1)
              (Sample.warm 5) (Sample.warm 6) 5
              (JsError "validator unreachable")
              eq_refl eq_refl eq_refl eq_refl eq_refl H5 _).
    right. left. exists 5. split; reflexivity.
  - refine (failure_before_dispatch_skips_a_number Demo.lib Sample.unreachable
              Demo.request (BN_number 100000) (BN_number 1)
              (Sample.warm (2 ^ 53)) (Sample.warm (2 ^ 53)) (2 ^ 53)
              (JsError "validator unreachable")
              eq_refl eq_refl eq_refl eq_refl eq_refl Htop _).
    right. left. exists (2 ^ 53). split; reflexivity.
Defined.

Lemma failed_dispatch_lowers_the_cache_witness :
  exists st',
    sendTransactionMessage Demo.lib Demo.refusing 5 (Sample.warm 9)
    = (Throw (JsError "insufficient funds"), st')
    /\ seqCache st' = Some 8.
Proof.
  destruct (getVmID Demo.lib Demo.refusing (Sample.warm 9))
    as [r1 st1] eqn:H1.
  assert (r1 = Ok Demo.rollup) by (inversion H1; reflexivity). subst r1.
  destruct (getAddress Demo.lib Demo.refusing st1) as [r2 st2] eqn:H2.
  assert (r2 = Ok Demo.account)
    by (inversion H1; subst; inversion H2; reflexivity).
  subst r2.
  destruct (sendTransactionMessage_try Demo.lib Demo.refusing 5 Demo.rollup
              Demo.account st2) as [r3 st3] eqn:H3.
  assert (r3 = Throw (JsError "insufficient funds"))
    by (inversion H1; subst; inversion H2; subst; inversion H3; reflexivity).
  subst r3.
  exact (failed_dispatch_lowers_the_cache Demo.lib Demo.refusing 5
           (Sample.warm 9) st1 st2 st3 Demo.rollup Demo.account
           (JsError "insufficient funds") H1 H2 H3).
Defined.

Lemma aggregator_dispatch_witness :
  exists handle st' pk,
    sendTransactionMessage_aggregator Demo.lib Demo.aggregated
      Demo.deafAggregator 5 Demo.rollup Demo.account initial
    = (Ok handle, st')
    /\ pubkey st' = Some pk.
Proof.
  destruct (sendTransactionMessage_aggregator Demo.lib Demo.aggregated
              Demo.deafAggregator 5 Demo.rollup Demo.account initial)
    as [[handle | e] st'] eqn:H; [| discriminate H].
  destruct (aggregator_dispatch Demo.lib Demo.aggregated Demo.deafAggregator
              5 Demo.rollup Demo.account initial st' handle H)
    as (sig & pk & _ & Hpk & _).
  exists handle, st', pk. split; [reflexivity | exact Hpk].
Defined.

Lemma dispatch_paths_do_not_mix_witness :
  aggregator Demo.quiet = None
  /\ requestsOf isAggregatorRequest
       (snd (sendTransactionMessage Demo.lib Demo.quiet 5 initial))
     = requestsOf isAggregatorRequest initial.
Proof.
  split; [reflexivity |].
  destruct (sendTransactionMessage Demo.lib Demo.quiet 5 initial)
    as [r st'] eqn:H.
  exact (proj1 (dispatch_paths_do_not_mix Demo.lib Demo.quiet 5) eq_refl
           initial r st' H).
Defined.

Lemma helpers_leave_the_counter_alone_witness :
  exists handle st',
    depositETH Demo.lib Demo.quiet Sample.fac Demo.account (BN_number 1)
      initial = (Ok handle, st')
    /\ exists chain st1 globalInbox,
         getVmID Demo.lib Demo.quiet initial = (Ok chain, st1)
         /\ wallet_globalInboxConn Demo.lib Demo.quiet st1
            = (Ok globalInbox, st')
         /\ globalInbox_depositEthMessage Sample.fac globalInbox chain
              Demo.account (BN_number 1) = Ok handle.
Proof.
  destruct (depositETH Demo.lib Demo.quiet Sample.fac Demo.account
              (BN_number 1) initial) as [[handle | e] st'] eqn:H;
    [| discriminate H].
  exists handle, st'. split; [reflexivity |].
  destruct (helpers_leave_the_counter_alone Demo.lib Demo.quiet Sample.fac)
    as (_ & _ & _ & _ & _ & _ & _ & Hd).
  exact (Hd Demo.account (BN_number 1) initial st' handle H).
Defined.

Lemma returned_receipt_certifies_the_assertion_witness :
  exists receipt st',
    processConfirmedDisputableAssertion Demo.lib
      (Demo.asserted Sample.assertedNode Demo.goodProof)
      Sample.assertedNode Demo.goodProof initial = (Ok receipt, st')
    /\ exists rawLog cda vmId,
         In rawLog [Demo.otherLog; Demo.assertedLog]
         /\ Demo.parseLog rawLog = Some cda
         /\ addressMatches rawLog vmId
         /\ nodeHashMatches cda Sample.assertedNode.
Proof.
  destruct (processConfirmedDisputableAssertion Demo.lib
              (Demo.asserted Sample.assertedNode Demo.goodProof)
              Sample.assertedNode Demo.goodProof initial)
    as [[receipt | e] st'] eqn:H; [| discriminate H].
  exists receipt, st'. split; [reflexivity |].
  destruct (returned_receipt_certifies_the_assertion Demo.lib
              (Demo.asserted Sample.assertedNode Demo.goodProof)
              Sample.assertedNode Demo.goodProof initial st' receipt H)
    as (l1 & logs & i & rawLog & cda & vmId & st1 & Hl1 & Hw & Hlogs & Hnth
        & Hparse & _ & _ & _ & Ha & _ & Hn).
  exists rawLog, cda, vmId.
  assert (Hin : In rawLog logs) by (eapply nth_error_In, Hnth).
  assert (Hl : logs = [Demo.otherLog; Demo.assertedLog]).
  { inversion Hl1; subst l1. inversion Hw; subst receipt.
    inversion Hlogs. reflexivity. }
  rewrite Hl in Hin. auto.
Defined.

Lemma returned_node_info_witness :
  exists m st',
    getMessageResult_check Demo.lib
      (Demo.asserted Sample.assertedNode Demo.goodProof) Demo.messageId5
      (Build_RawResult Demo.lib Demo.messageId5 (Some Sample.assertedNode)
         (Some Demo.goodProof)) initial = (Ok m, st')
    /\ logInclusion Demo.lib Demo.messageId5 Demo.goodProof
    /\ exists receipt,
         nodeInfo m =
         Some {| nodeHash := "0x92"; nodeHeight := 9;
                 l1TxHash := Some Demo.assertionHash;
                 l1Confirmations := Receipt.confirmations receipt |}.
Proof.
  destruct (getMessageResult_check Demo.lib
              (Demo.asserted Sample.assertedNode Demo.goodProof)
              Demo.messageId5
              (Build_RawResult Demo.lib Demo.messageId5
                 (Some Sample.assertedNode) (Some Demo.goodProof)) initial)
    as [[m | e] st'] eqn:H; [| discriminate H].
  exists m, st'. split; [reflexivity |].
  destruct (proj1 (returned_node_info Demo.lib
                     (Demo.asserted Sample.assertedNode Demo.goodProof)
                     Demo.messageId5 _ initial st' m H)
              Demo.goodProof Sample.assertedNode Demo.assertionHash
              eq_refl eq_refl eq_refl) as (Hlog & receipt & _ & Hni).
  split; [exact Hlog |]. exists receipt. exact Hni.
Defined.

Lemma assertion_lookup_failures_witness :
  l1TxHash Demo.pendingNode = None
  /\ forallb otherEvent [] = true
  /\ processConfirmedDisputableAssertion Demo.lib Demo.quiet
       Demo.pendingNode Demo.goodProof initial
     = (Throw (JsError "node doesn't exist on chain"), initial)
  /\ fst (processConfirmedDisputableAssertion Demo.lib Sample.foreignFirst
            Sample.assertedNode Demo.goodProof initial)
     = Throw (TypeError "Cannot read property 'name' of null").
Proof.
  split; [reflexivity |]. split; [reflexivity |]. split.
  - exact (proj1 (assertion_lookup_failures Demo.lib Demo.quiet
                    Demo.pendingNode Demo.goodProof initial) eq_refl).
  - destruct (assertion_lookup_failures Demo.lib Sample.foreignFirst
                Sample.assertedNode Demo.goodProof initial) as (_ & _ & H).
    destruct (H Demo.assertionHash
                (Demo.receipt [Demo.foreignLog; Demo.assertedLog])
                [Demo.foreignLog; Demo.assertedLog] Demo.rollup _
                eq_refl eq_refl eq_refl eq_refl) as [_ Hnull].
    rewrite (Hnull [] [Demo.parseLog Demo.assertedLog] eq_refl eq_refl).
    reflexivity.
Defined.

Lemma deposit_id_round_trip_witness :
  0 <= 7 < 2 ^ 256
  /\ exists id,
       hexZeroPad (toHexString 7) 32 = Ok id
       /\ hexDataLength id = Some 32%nat
       /\ HexString.to_Z id = 7.
Proof.
  assert (H7 : 0 <= 7 < 2 ^ 256) by (split; [lia | reflexivity]).
  split; [exact H7 |].
  destruct (deposit_id_round_trip 7 H7) as (id & H1 & H2 & H3 & _).
  exists id. auto.
Defined.

Lemma processLogsProof_in_two_parts_witness :
  processLogsProof Demo.lib Demo.messageId5 Demo.goodProof = true
  /\ processLogsProof Demo.lib Demo.messageId5
       {| logPreHash := "h0";
          logPostHash :=
            solidityKeccak256 Demo.lib (logPostHash Demo.goodProof) "s1";
          logValHashes := ["s1"] |} = true.
Proof.
  split; [reflexivity |].
  exact (proj2 (processLogsProof_in_two_parts Demo.lib Demo.messageId5
                  "h0" (logPostHash Demo.goodProof) "" [] [] eq_refl) "s1").
Defined.

Lemma call_answers_witness :
  deterministicAssertions Sample.deterministic = true
  /\ deterministicAssertions Demo.quiet = false
  /\ call Demo.lib Sample.deterministic Demo.request
       (Some (TagString "latest")) initial
     = (Ok "0x2b",
        log_request (ReqClientPendingCall (Some Demo.account)) initial)
  /\ call Demo.lib Demo.quiet Demo.request None initial
     = (Ok "0x2a", log_request (ReqClientCall (Some Demo.account)) initial)
  /\ call Demo.lib Demo.quiet Demo.request (Some (TagString "pending"))
       initial
     = (Ok "0x2b",
        log_request (ReqClientPendingCall (Some Demo.account)) initial).
Proof.
  split; [reflexivity |]. split; [reflexivity |].
  destruct (call_answers Demo.lib Sample.deterministic Demo.request tt
              initial eq_refl) as (_ & Hdet & _).
  destruct (call_answers Demo.lib Demo.quiet Demo.request tt
              initial eq_refl) as (Hpending & Hlatest & _).
  split; [rewrite (Hdet _ (or_introl eq_refl)); reflexivity |].
  split; [rewrite (Hlatest None (or_intror eq_refl)); reflexivity |].
  rewrite Hpending. reflexivity.
Defined.

Lemma getTransactionReceipt_reports_witness :
  exists receipt st',
    perform_getTransactionReceipt Demo.lib Sample.reporting Sample.fac
      Demo.messageId5 initial = (Ok (Some receipt), st')
    /\ TransactionReceipt.transactionHash receipt = Demo.messageId5
    /\ TransactionReceipt.status receipt = 1.
Proof.
  destruct (perform_getTransactionReceipt Demo.lib Sample.reporting
              Sample.fac Demo.messageId5 initial)
    as [[[receipt |] | e] st'] eqn:H; try discriminate H.
  exists receipt, st'. split; [reflexivity |].
  destruct (proj2 (getTransactionReceipt_reports Demo.lib Sample.reporting
                     Sample.fac Demo.messageId5 initial st') receipt H)
    as (m & l2tx & ni & Hget & _ & _ & Hh & _ & _ & Hs & _).
  assert (Hm : result m = Demo.messageId5) by (inversion Hget; reflexivity).
  rewrite Hm in Hh, Hs. split; [exact Hh | exact (proj1 Hs)].
Defined.

Lemma transaction_and_receipt_agree_witness :
  (exists receipt response s1 s2,
     perform_getTransactionReceipt Demo.lib Sample.reporting Sample.fac
       Demo.messageId5 initial = (Ok (Some receipt), s1)
     /\ getMessageRequest Demo.lib Sample.reporting Sample.fac
          Demo.messageId5 initial = (Ok (Some response), s2)
     /\ Transaction.hash (TransactionResponse.tx response)
        = Some (TransactionReceipt.transactionHash receipt)
     /\ TransactionResponse.confirmations response = Some 1000)
  /\ exists response s2,
       getMessageRequest Demo.lib Demo.aggregated Sample.fac
         Demo.messageId5 initial = (Ok (Some response), s2)
       /\ Transaction.hash (TransactionResponse.tx response)
          = Some Demo.messageId5
       /\ TransactionResponse.confirmations response = None.
Proof.
  split.
  - destruct (perform_getTransactionReceipt Demo.lib Sample.reporting
                Sample.fac Demo.messageId5 initial)
      as [[[receipt |] | e] s1] eqn:H1; try discriminate H1.
    destruct (getMessageRequest Demo.lib Sample.reporting Sample.fac
                Demo.messageId5 initial)
      as [[[response |] | e] s2] eqn:H2; try discriminate H2.
    exists receipt, response, s1, s2.
    split; [reflexivity |]. split; [reflexivity |].
    destruct (proj2 (transaction_and_receipt_agree Demo.lib Sample.reporting
                       Sample.fac Demo.messageId5 initial s2 response H2)
                s1 receipt H1) as (Hh & _ & _ & _ & _ & Hc).
    split; [exact Hh | exact Hc].
  - destruct (getMessageRequest Demo.lib Demo.aggregated Sample.fac
                Demo.messageId5 initial)
      as [[[response |] | e] s2] eqn:H2; try discriminate H2.
    exists response, s2. split; [reflexivity |].
    destruct (proj1 (transaction_and_receipt_agree Demo.lib Demo.aggregated
                       Sample.fac Demo.messageId5 initial s2 response H2))
      as (m & Hget & Hh & Hni).
    assert (Hm : txHash m = Demo.messageId5 /\ nodeInfo m = None)
      by (inversion Hget; split; reflexivity).
    destruct Hm as [Ht Hn]. rewrite Hn in Hni. rewrite Ht in Hh.
    split; [exact Hh | exact (proj2 (proj2 Hni))].
Defined.
